(** * Ledger store of the sharded ontology chain: block execution and commit

    A shallow embedding of the ledger store (package [ledgerstore], type
    [LedgerStoreImp]): the height gates of [ExecuteBlock] and
    [SubmitBlock], header verification, the block executor, the three-store
    commit of [submitBlock] and the recovery loop of [recoverStore].

    Conventions.
    - [uint32] values are integers in [Z]; every arithmetic operation the Go
      code performs on them is followed by an explicit wrap ([u32]).
    - A Go [error] is a value of type [error]; a function returning
      [(T, error)] returns a pair or a [Result].
    - The receiver [this *LedgerStoreImp] is threaded through a state monad
      [M]; a failing call keeps every mutation made before the failure, as
      the Go code does.
    - The three durable stores, the overlay/cache objects, the transaction
      handlers, the signature checks and the hash functions live in other
      packages; they are the fields of the classes [Messages] and
      [Packages] (their types) and [Services] (their operations).
    - The read/write mutex and the one-slot saving semaphore are not
      modelled: the development describes one caller at a time. *)

From Stdlib Require Import ZArith String Ascii List Lia.
From stdpp Require Import base option list gmap strings sorting.

Local Open Scope string_scope.
Local Open Scope list_scope.
Local Open Scope Z_scope.

(** ** Machine integers and hashes *)

Definition u32 (x : Z) : Z := x mod 2 ^ 32.

Definition MaxUint32 : Z := 2 ^ 32 - 1.

(** [common.Uint256]: a 256-bit hash, only ever compared for equality. *)
Definition Uint256 := N.
Definition UINT256_EMPTY : Uint256 := 0%N.

(** [common.Address], [keypair.PublicKey]: opaque identifiers. *)
Definition Address := N.
Definition PublicKey := N.

(** [[]byte]: a byte string. *)
Definition bytes := string.

(** [common.ShardID] wraps one [uint64]; [ToUint64] returns it. *)
Definition ShardID := N.

(** [scom.DataEntryPrefix] values used by the state-root computation
    (core/store/common/data_entry_prefix.go). *)
Definition ST_CONTRACT : Z := 4.
Definition ST_STORAGE : Z := 5.

Definition byte_of (b : Z) : ascii := ascii_of_nat (Z.to_nat b).

(** [[]byte{byte(p)}] *)
Definition prefix_bytes (p : Z) : bytes := String (byte_of p) EmptyString.

Definition HEADER_INDEX_BATCH_SIZE : Z := 2000.

(** ** Errors *)

(** [fmt.Errorf] keeps its format string and the error it wraps; numeric
    arguments of the message are dropped. *)
Inductive error : Type :=
| ErrNotFound
| ErrExternal (code : N)
| Errorf (fmt : string)
| Wrapf (fmt : string) (cause : error).

(** What a call can come to: a value, a returned error, or no return at
    all (a run-time panic, or a loop that never ends). *)
Inductive Result (A : Type) : Type :=
| Ok (a : A)
| Fail (e : error)
| Abort (why : string).
Arguments Ok {A} a.
Arguments Fail {A} e.
Arguments Abort {A} why.

(** ** Data model (package [types], [event], [store]) *)

(** Message and event types of the cross-shard packages. *)
Class Messages := {
  CommonShardMsg : Type;
  ShardEventState : Type;
  MetaDataEvent : Type;
  ContractLifetimeEvent : Type;
  ShardConfig : Type;
  PeerShardStakeInfo : Type
}.

(** The stores and the objects of packages [overlaydb] and [storage]. *)
Class Packages := {
  BlockStore : Type;
  StateStore : Type;
  EventStore : Type;
  OverlayDB : Type;
  CacheDB : Type;
  XShardDB : Type;
  MemDB : Type
}.

Record Header := {
  Version : Z;
  HeaderShardID : ShardID;
  Height : Z;
  ParentHeight : Z;
  PrevBlockHash : Uint256;
  TransactionsRoot : Uint256;
  BlockRoot : Uint256;
  Timestamp : Z;
  ConsensusData : Z;
  ConsensusPayload : bytes;
  NextBookkeeper : Address;
  Bookkeepers : list PublicKey;
  SigData : list bytes
}.

Section DataModel.
Context `{MS : Messages} `{PK : Packages}.

(** The payload fixes the transaction type, as deserialization does in the
    Go code; the type assertion of [HandleTransaction] on the payload of
    a shard call is then always defined. *)
Inductive TransactionType := Deploy | MetaData | Invoke | ShardCall | OtherType (code : Z).

Inductive TxPayload :=
| DeployCode (code : bytes)
| MetaDataCode (data : bytes)
| InvokeCode (code : bytes)
| ShardCallPayload (Msgs : list CommonShardMsg)
| OtherPayload (code : Z) (raw : bytes).

Record Transaction := {
  TxShardID : ShardID;
  Nonce : Z;
  Payload : TxPayload
}.

Definition TxType (tx : Transaction) : TransactionType :=
  match Payload tx with
  | DeployCode _ => Deploy
  | MetaDataCode _ => MetaData
  | InvokeCode _ => Invoke
  | ShardCallPayload _ => ShardCall
  | OtherPayload c _ => OtherType c
  end.

Definition isShardCall (t : TransactionType) : bool :=
  match t with ShardCall => true | _ => false end.

Record ShardTx := { Tx : Transaction; ShardTxSource : ShardID }.

Record Block := {
  BlockHeader : Header;
  Transactions : list Transaction;
  ShardTxs : gmap N (list ShardTx)
}.

(** [event.NotifyEventInfo.States] is an [interface{}]; the ledger store
    type-switches on three dynamic types. *)
Inductive NotifyStates :=
| StShardEvent (e : ShardEventState)
| StMetaData (e : MetaDataEvent)
| StContractLifetime (e : ContractLifetimeEvent)
| StOther (raw : bytes).

Record NotifyEventInfo := {
  ContractAddress : Address;
  States : NotifyStates
}.

Definition CONTRACT_STATE_FAIL : Z := 0.
Definition CONTRACT_STATE_SUCCESS : Z := 1.

Record ExecuteNotify := {
  TxHash : Uint256;
  State : Z;
  GasConsumed : Z;
  EvtNotify : list NotifyEventInfo;
  SourceTxHash : list Uint256
}.

Record TransactionNotify := {
  ContractEvent : ExecuteNotify;
  ShardMsg : list CommonShardMsg
}.

(** [store.ExecuteResult]; [WriteSet] is a pointer, nil in the zero value. *)
Record ExecuteResult := {
  WriteSet : option MemDB;
  Hash : Uint256;
  MerkleRoot : Uint256;
  Notify : list ExecuteNotify;
  ShardNotify : list CommonShardMsg
}.

Definition emptyResult : ExecuteResult :=
  {| WriteSet := None; Hash := UINT256_EMPTY; MerkleRoot := UINT256_EMPTY;
     Notify := []; ShardNotify := [] |}.

Record ShardSystemEventMsg := {
  FromAddress : Address;
  Event : ShardEventState
}.

(** [vconfig.VbftBlockInfo] and the chain configuration it may carry. *)
Record PeerConfig := { Index : Z; ID : string }.
Record ChainConfig := { cfgN : Z; cfgC : Z; Peers : list PeerConfig }.
Record VbftBlockInfo := {
  LastConfigBlockNum : Z;
  NewChainConfig : option ChainConfig
}.

(** [smartcontract.Config] as [executeBlock] fills it in. *)
Record Config := {
  cfgShardID : ShardID;
  cfgTime : Z;
  cfgHeight : Z;
  cfgParentHeight : Z
}.

(** [scom.StoreIterator]: the entries it yields, then its [Error()]. *)
Record StoreIterator := {
  iterItems : list (bytes * bytes);
  iterError : option error
}.

(** *** The ledger store *)

Record LedgerStoreImp := {
  blockStore : BlockStore;
  stateStore : StateStore;
  eventStore : EventStore;
  storedIndexCount : Z;
  currBlockHeight : Z;
  currBlockHash : Uint256;
  headerCache : gmap N Header;
  headerIndex : gmap Z N;
  vbftPeerInfoheader : gmap string Z;
  vbftPeerInfoblock : gmap string Z;
  stateHashCheckHeight : Z
}.

(** Objects one run of [executeBlock] creates and hands to every
    transaction handler: the overlay, the cache and the cross-shard
    database (both writing through to the same overlay), and the two
    locked sets. *)
Record ExecCtx := {
  overlay : OverlayDB;
  cache : CacheDB;
  xshardDB : XShardDB;
  lockedAddress : gset N;
  lockedKeys : gset string
}.

(** *** Observable effects *)

Inductive StoreName := BlockDB | StateDB | EventDB.

(** What a run does besides changing the ledger store: the log records,
    in order, batch openings and commits, updates of the current-block
    pointer, block executions with their cache resets and handled
    transactions, and published messages. *)
Inductive Effect :=
| EvNewBatch (s : StoreName)
| EvCommitTo (s : StoreName) (ok : bool)
| EvSetCurrentBlock (height : Z) (hash : Uint256)
| EvCacheReset
| EvExecuteBlock (height : Z)
| EvHandleTransaction (tx : Transaction)
| EvPushSmartCodeEvent (txHash : Uint256)
| EvPublishSaveBlockComplete (block : Block)
    (ShardSysEvents : list ShardSystemEventMsg) (SourceAndShardTxHashMap : gmap N N).

(** The process: the ledger store, the global gas table
    [neovm.GAS_TABLE], and the log of effects (newest last). *)
Record World := {
  ledger : LedgerStoreImp;
  GAS_TABLE : gmap string Z;
  trace : list Effect
}.

(** The order in which one run of the Go runtime enumerates the three maps
    [executeBlock] ranges over: some permutation of their keys. *)
Record GoRuntime := {
  rangeShardTxs : list N -> list N;
  rangeLockedAddress : list N -> list N;
  rangeLockedKeys : list string -> list string;
  rangeShardTxs_perm : forall l, rangeShardTxs l ≡ₚ l;
  rangeLockedAddress_perm : forall l, rangeLockedAddress l ≡ₚ l;
  rangeLockedKeys_perm : forall l, rangeLockedKeys l ≡ₚ l
}.

End DataModel.

(** ** Other packages (interfaces only)

    Every store method takes the store and returns the store it leaves
    behind together with its Go result; a method that only reads returns
    its result alone. *)

Class Services `{MS : Messages} `{PK : Packages} := {
  (** hashes *)
  Header_Hash : Header -> Uint256;
  Transaction_Hash : Transaction -> Uint256;
  sha256_Sum : bytes -> Uint256;
  (** [config.DefConfig] and [events.DefActorPublisher] *)
  Genesis_ConsensusType : string;
  CONSENSUS_TYPE_SOLO : string;
  Common_EnableEventLog : bool;
  DefActorPublisher_present : bool;
  (** [vconfig], [signature], [types] *)
  PubkeyID : PublicKey -> string;
  VerifyMultiSignature : Uint256 -> list PublicKey -> Z -> list bytes -> option error;
  VbftBlock : Header -> Result VbftBlockInfo;
  AddressFromBookkeepers : list PublicKey -> Address * option error;
  json_Unmarshal_VbftBlockInfo : bytes -> Result VbftBlockInfo;
  (** [BlockStore] *)
  bs_NewBatch : BlockStore -> BlockStore;
  bs_CommitTo : BlockStore -> BlockStore * option error;
  bs_SaveCurrentBlock : BlockStore -> Z -> Uint256 -> BlockStore * option error;
  bs_SaveBlockHash : BlockStore -> Z -> Uint256 -> BlockStore;
  bs_SaveBlock : BlockStore -> Block -> BlockStore * option error;
  bs_SaveHeaderIndexList : BlockStore -> Z -> list Uint256 -> BlockStore * option error;
  bs_GetCurrentBlock : BlockStore -> (Uint256 * Z) * option error;
  bs_GetHeaderIndexList : BlockStore -> gmap Z N * option error;
  bs_GetBlockHash : BlockStore -> Z -> Uint256 * option error;
  bs_GetBlock : BlockStore -> Uint256 -> option Block * option error;
  bs_GetHeader : BlockStore -> Uint256 -> option Header * option error;
  (** [StateStore] *)
  ss_NewBatch : StateStore -> StateStore;
  ss_CommitTo : StateStore -> StateStore * option error;
  ss_NewOverlayDB : StateStore -> OverlayDB;
  ss_GetCurrentBlock : StateStore -> (Uint256 * Z) * option error;
  ss_SaveCurrentBlock : StateStore -> Z -> Uint256 -> StateStore * option error;
  ss_GetCurrentLockedAddress : StateStore -> list Address * option error;
  ss_GetCurrentLockedKeys : StateStore -> list bytes * option error;
  ss_GetStateMerkleRoot : StateStore -> Z -> Uint256 * option error;
  ss_GetStateMerkleRootWithNewHash : StateStore -> Uint256 -> Uint256;
  ss_GetBlockRootWithNewTxRoots : StateStore -> list Uint256 -> Uint256;
  ss_AddStateMerkleTreeRoot : StateStore -> Z -> Uint256 -> StateStore * option error;
  ss_AddBlockMerkleTreeRoot : StateStore -> Uint256 -> StateStore * option error;
  ss_AddBlockShardEvents : StateStore -> Z -> list ShardSystemEventMsg -> StateStore;
  ss_BatchPutRawKeyVal : StateStore -> bytes -> bytes -> StateStore;
  ss_BatchDeleteRawKey : StateStore -> bytes -> StateStore;
  ss_GetStorageState : StateStore -> Address -> bytes -> option bytes * option error;
  (** [EventStore] *)
  es_NewBatch : EventStore -> EventStore;
  es_CommitTo : EventStore -> EventStore * option error;
  es_SaveCurrentBlock : EventStore -> Z -> Uint256 -> EventStore * option error;
  es_SaveEventNotifyByTx : EventStore -> Uint256 -> ExecuteNotify -> EventStore * option error;
  es_SaveEventNotifyByBlock : EventStore -> Z -> list Uint256 -> EventStore * option error;
  es_AddShardConsensusConfig : EventStore -> ShardID -> Z -> bytes -> EventStore * option error;
  es_GetShardConsensusHeight : EventStore -> ShardID -> list Z * option error;
  es_AddShardConsensusHeight : EventStore -> ShardID -> list Z -> EventStore;
  es_SaveContractMetaDataEvent : EventStore -> MetaDataEvent -> EventStore * option error;
  es_SaveContractEvent : EventStore -> ContractLifetimeEvent -> EventStore * option error;
  (** [overlaydb], [storage] *)
  MemDB_ForEach : MemDB -> list (bytes * bytes);
  overlay_Error : OverlayDB -> option error;
  overlay_ChangeHash : OverlayDB -> Uint256;
  overlay_GetWriteSet : OverlayDB -> MemDB;
  overlay_NewIterator : OverlayDB -> bytes -> StoreIterator;
  NewCacheDB : OverlayDB -> CacheDB;
  cache_Reset : CacheDB -> CacheDB;
  cache_Commit : CacheDB -> OverlayDB -> CacheDB * OverlayDB;
  NewXShardDB : OverlayDB -> XShardDB;
  xshard_SetXShardMsgInBlock : XShardDB -> Z -> list CommonShardMsg -> XShardDB;
  xshard_SetLockedAddress : XShardDB -> list Address -> XShardDB;
  xshard_SetLockedKeys : XShardDB -> list bytes -> XShardDB;
  xshard_Commit : XShardDB -> OverlayDB -> XShardDB * OverlayDB;
  (** the transaction handlers and the gas-table refresh *)
  refreshGlobalParam :
    Config -> CacheDB -> LedgerStoreImp -> gmap string Z -> gmap string Z * option error;
  HandleDeployTransaction :
    LedgerStoreImp -> gmap string Z -> Transaction -> Header ->
    OverlayDB -> CacheDB -> ExecuteNotify ->
    (OverlayDB * CacheDB * ExecuteNotify) * option error;
  HandleChangeMetadataTransaction :
    LedgerStoreImp -> gmap string Z -> Transaction -> Header ->
    OverlayDB -> CacheDB -> ExecuteNotify ->
    (OverlayDB * CacheDB * ExecuteNotify) * option error;
  HandleInvokeTransaction :
    LedgerStoreImp -> gmap string Z -> Transaction -> Header ->
    ExecCtx -> TransactionNotify -> (ExecCtx * TransactionNotify) * option error;
  HandleShardCallTransaction :
    LedgerStoreImp -> gmap string Z -> list CommonShardMsg -> Header ->
    ExecCtx -> TransactionNotify -> (ExecCtx * TransactionNotify) * option error;
  (** shard governance events ([shardstates], [shardmgmt], [utils]) *)
  ShardMgmtContractAddress : Address;
  ShardSysMsgContractAddress : Address;
  EVENT_SHARD_CONFIG_UPDATE : Z;
  EVENT_SHARD_ACTIVATED : Z;
  EventType : ShardEventState -> Z;
  EventPayload : ShardEventState -> bytes;
  decodeConfigShardEvent :
    bytes -> option (Z * ShardID * ShardConfig * gmap string PeerShardStakeInfo);
  decodeShardActiveEvent : bytes -> option ShardID;
  decodeShardState : bytes -> option (ShardConfig * gmap string PeerShardStakeInfo);
  shardStateKey : ShardID -> bytes;
  GetRawStorageItemFromMemDb : MemDB -> Address -> bytes -> bytes * bool;
  GetValueFromRawStorageItem : bytes -> bytes * option error;
  serializeConfigShardEvent :
    Z -> ShardConfig -> gmap string PeerShardStakeInfo -> bytes;
  mkVbftShardConfig : Z -> Z -> ShardConfig;
  mkConsensusPeer : Z -> string -> PeerShardStakeInfo
}.

(** ** The state monad of the ledger store *)

Section Monad.
Context `{SV : Services}.

Definition M (A : Type) : Type := World -> World * Result A.

Definition ret {A} (a : A) : M A := fun w => (w, Ok a).

Definition bind {A B} (c : M A) (k : A -> M B) : M B :=
  fun w =>
    match c w with
    | (w', Ok a) => k a w'
    | (w', Fail e) => (w', Fail e)
    | (w', Abort s) => (w', Abort s)
    end.

Definition fail {A} (e : error) : M A := fun w => (w, Fail e).
Definition abort {A} (why : string) : M A := fun w => (w, Abort why).

Definition getLedger : M LedgerStoreImp := fun w => (w, Ok (ledger w)).

Definition modifyLedger (f : LedgerStoreImp -> LedgerStoreImp) : M unit :=
  fun w => ({| ledger := f (ledger w); GAS_TABLE := GAS_TABLE w; trace := trace w |}, Ok tt).

Definition getGasTable : M (gmap string Z) := fun w => (w, Ok (GAS_TABLE w)).

Definition setGasTable (g : gmap string Z) : M unit :=
  fun w => ({| ledger := ledger w; GAS_TABLE := g; trace := trace w |}, Ok tt).

Definition emit (ev : Effect) : M unit :=
  fun w => ({| ledger := ledger w; GAS_TABLE := GAS_TABLE w; trace := trace w ++ [ev] |}, Ok tt).

(** [if err != nil { return wrap(err) }] *)
Definition check (err : option error) (wrap : error -> error) : M unit :=
  match err with
  | None => ret tt
  | Some e => fail (wrap e)
  end.

(** [err := c(); if err != nil { return wrap(err) }] for a method [c] of
    the receiver that itself returns an error. *)
Definition try {A} (c : M A) (wrap : error -> error) : M A :=
  fun w =>
    match c w with
    | (w', Fail e) => (w', Fail (wrap e))
    | r => r
    end.

Definition liftResult {A} (r : Result A) : M A := fun w => (w, r).

End Monad.

Notation "x <- c ;; k" := (bind c (fun x => k))
  (at level 100, c at next level, right associativity).
Notation "c ;;; k" := (bind c (fun _ => k))
  (at level 100, right associativity).

Section Ledger.
Context `{SV : Services}.

(** *** Field updates of the receiver *)

Definition set_blockStore (v : BlockStore) (l : LedgerStoreImp) : LedgerStoreImp :=
  {| blockStore := v; stateStore := stateStore l; eventStore := eventStore l;
     storedIndexCount := storedIndexCount l; currBlockHeight := currBlockHeight l;
     currBlockHash := currBlockHash l; headerCache := headerCache l;
     headerIndex := headerIndex l; vbftPeerInfoheader := vbftPeerInfoheader l;
     vbftPeerInfoblock := vbftPeerInfoblock l;
     stateHashCheckHeight := stateHashCheckHeight l |}.

Definition set_stateStore (v : StateStore) (l : LedgerStoreImp) : LedgerStoreImp :=
  {| blockStore := blockStore l; stateStore := v; eventStore := eventStore l;
     storedIndexCount := storedIndexCount l; currBlockHeight := currBlockHeight l;
     currBlockHash := currBlockHash l; headerCache := headerCache l;
     headerIndex := headerIndex l; vbftPeerInfoheader := vbftPeerInfoheader l;
     vbftPeerInfoblock := vbftPeerInfoblock l;
     stateHashCheckHeight := stateHashCheckHeight l |}.

Definition set_eventStore (v : EventStore) (l : LedgerStoreImp) : LedgerStoreImp :=
  {| blockStore := blockStore l; stateStore := stateStore l; eventStore := v;
     storedIndexCount := storedIndexCount l; currBlockHeight := currBlockHeight l;
     currBlockHash := currBlockHash l; headerCache := headerCache l;
     headerIndex := headerIndex l; vbftPeerInfoheader := vbftPeerInfoheader l;
     vbftPeerInfoblock := vbftPeerInfoblock l;
     stateHashCheckHeight := stateHashCheckHeight l |}.

Definition set_storedIndexCount (v : Z) (l : LedgerStoreImp) : LedgerStoreImp :=
  {| blockStore := blockStore l; stateStore := stateStore l; eventStore := eventStore l;
     storedIndexCount := v; currBlockHeight := currBlockHeight l;
     currBlockHash := currBlockHash l; headerCache := headerCache l;
     headerIndex := headerIndex l; vbftPeerInfoheader := vbftPeerInfoheader l;
     vbftPeerInfoblock := vbftPeerInfoblock l;
     stateHashCheckHeight := stateHashCheckHeight l |}.

Definition set_currBlock (height : Z) (hash : Uint256) (l : LedgerStoreImp) : LedgerStoreImp :=
  {| blockStore := blockStore l; stateStore := stateStore l; eventStore := eventStore l;
     storedIndexCount := storedIndexCount l; currBlockHeight := height;
     currBlockHash := hash; headerCache := headerCache l;
     headerIndex := headerIndex l; vbftPeerInfoheader := vbftPeerInfoheader l;
     vbftPeerInfoblock := vbftPeerInfoblock l;
     stateHashCheckHeight := stateHashCheckHeight l |}.

Definition set_headerCache (v : gmap N Header) (l : LedgerStoreImp) : LedgerStoreImp :=
  {| blockStore := blockStore l; stateStore := stateStore l; eventStore := eventStore l;
     storedIndexCount := storedIndexCount l; currBlockHeight := currBlockHeight l;
     currBlockHash := currBlockHash l; headerCache := v;
     headerIndex := headerIndex l; vbftPeerInfoheader := vbftPeerInfoheader l;
     vbftPeerInfoblock := vbftPeerInfoblock l;
     stateHashCheckHeight := stateHashCheckHeight l |}.

Definition set_headerIndex (v : gmap Z N) (l : LedgerStoreImp) : LedgerStoreImp :=
  {| blockStore := blockStore l; stateStore := stateStore l; eventStore := eventStore l;
     storedIndexCount := storedIndexCount l; currBlockHeight := currBlockHeight l;
     currBlockHash := currBlockHash l; headerCache := headerCache l;
     headerIndex := v; vbftPeerInfoheader := vbftPeerInfoheader l;
     vbftPeerInfoblock := vbftPeerInfoblock l;
     stateHashCheckHeight := stateHashCheckHeight l |}.

Definition set_vbftPeerInfoheader (v : gmap string Z) (l : LedgerStoreImp) : LedgerStoreImp :=
  {| blockStore := blockStore l; stateStore := stateStore l; eventStore := eventStore l;
     storedIndexCount := storedIndexCount l; currBlockHeight := currBlockHeight l;
     currBlockHash := currBlockHash l; headerCache := headerCache l;
     headerIndex := headerIndex l; vbftPeerInfoheader := v;
     vbftPeerInfoblock := vbftPeerInfoblock l;
     stateHashCheckHeight := stateHashCheckHeight l |}.

Definition set_vbftPeerInfoblock (v : gmap string Z) (l : LedgerStoreImp) : LedgerStoreImp :=
  {| blockStore := blockStore l; stateStore := stateStore l; eventStore := eventStore l;
     storedIndexCount := storedIndexCount l; currBlockHeight := currBlockHeight l;
     currBlockHash := currBlockHash l; headerCache := headerCache l;
     headerIndex := headerIndex l; vbftPeerInfoheader := vbftPeerInfoheader l;
     vbftPeerInfoblock := v;
     stateHashCheckHeight := stateHashCheckHeight l |}.

(** A method of one of the three stores, run on the receiver's store. *)
Definition onBlockStore {A} (op : BlockStore -> BlockStore * A) : M A :=
  l <- getLedger ;;
  let '(s, a) := op (blockStore l) in
  modifyLedger (set_blockStore s) ;;; ret a.

Definition onStateStore {A} (op : StateStore -> StateStore * A) : M A :=
  l <- getLedger ;;
  let '(s, a) := op (stateStore l) in
  modifyLedger (set_stateStore s) ;;; ret a.

Definition onEventStore {A} (op : EventStore -> EventStore * A) : M A :=
  l <- getLedger ;;
  let '(s, a) := op (eventStore l) in
  modifyLedger (set_eventStore s) ;;; ret a.

Definition blockStore_NewBatch : M unit :=
  onBlockStore (fun s => (bs_NewBatch s, tt)) ;;; emit (EvNewBatch BlockDB).
Definition stateStore_NewBatch : M unit :=
  onStateStore (fun s => (ss_NewBatch s, tt)) ;;; emit (EvNewBatch StateDB).
Definition eventStore_NewBatch : M unit :=
  onEventStore (fun s => (es_NewBatch s, tt)) ;;; emit (EvNewBatch EventDB).

Definition blockStore_CommitTo : M (option error) :=
  err <- onBlockStore bs_CommitTo ;;
  emit (EvCommitTo BlockDB (bool_decide (err = None))) ;;; ret err.
Definition stateStore_CommitTo : M (option error) :=
  err <- onStateStore ss_CommitTo ;;
  emit (EvCommitTo StateDB (bool_decide (err = None))) ;;; ret err.
Definition eventStore_CommitTo : M (option error) :=
  err <- onEventStore es_CommitTo ;;
  emit (EvCommitTo EventDB (bool_decide (err = None))) ;;; ret err.


(** *** Accessors *)

Definition GetCurrentBlockHeight (this : LedgerStoreImp) : Z := currBlockHeight this.

Definition GetCurrentBlockHash (this : LedgerStoreImp) : Uint256 := currBlockHash this.

Definition getHeaderIndex (this : LedgerStoreImp) (height : Z) : Uint256 :=
  match headerIndex this !! height with
  | Some blockHash => blockHash
  | None => UINT256_EMPTY
  end.

Definition GetBlockHash (this : LedgerStoreImp) (height : Z) : Uint256 :=
  getHeaderIndex this height.

Definition GetCurrentHeaderHeight (this : LedgerStoreImp) : Z :=
  let size := Z.of_nat (size (headerIndex this)) in
  if size =? 0 then 0 else u32 (u32 size - 1).

Definition GetCurrentHeaderHash (this : LedgerStoreImp) : Uint256 :=
  let size := Z.of_nat (size (headerIndex this)) in
  if size =? 0 then UINT256_EMPTY else getHeaderIndex this (u32 (u32 size - 1)).

Definition setHeaderIndex (height : Z) (blockHash : Uint256) : M unit :=
  modifyLedger (fun this => set_headerIndex (<[height := blockHash]> (headerIndex this)) this).

Definition setCurrentBlock (height : Z) (blockHash : Uint256) : M unit :=
  modifyLedger (set_currBlock height blockHash) ;;;
  emit (EvSetCurrentBlock height blockHash).

Definition addHeaderCache (header : Header) : M unit :=
  modifyLedger (fun this =>
    set_headerCache (<[Header_Hash header := header]> (headerCache this)) this).

Definition delHeaderCache (blockHash : Uint256) : M unit :=
  modifyLedger (fun this => set_headerCache (delete blockHash (headerCache this)) this).

Definition getHeaderCache (this : LedgerStoreImp) (blockHash : Uint256) : option Header :=
  headerCache this !! blockHash.

Definition GetHeaderByHash (this : LedgerStoreImp) (blockHash : Uint256)
  : option Header * option error :=
  match getHeaderCache this blockHash with
  | Some header => (Some header, None)
  | None => bs_GetHeader (blockStore this) blockHash
  end.

Definition GetStateMerkleRoot (this : LedgerStoreImp) (height : Z) : Uint256 * option error :=
  ss_GetStateMerkleRoot (stateStore this) height.

(** A block is identified by the hash of its header. *)
Definition Block_Hash (block : Block) : Uint256 := Header_Hash (BlockHeader block).

(** *** Header verification *)

(** [strings.ToLower] on ASCII letters. *)
Definition lower_ascii (c : ascii) : ascii :=
  let n := nat_of_ascii c in
  if ((65 <=? n) && (n <=? 90))%nat then ascii_of_nat (n + 32) else c.

Fixpoint strings_ToLower (s : string) : string :=
  match s with
  | EmptyString => EmptyString
  | String c r => String (lower_ascii c) (strings_ToLower r)
  end.

(** The first bookkeeper whose key is not a known peer. *)
Fixpoint findUnknownBookkeeper (vbftPeerInfo : gmap string Z) (bks : list PublicKey)
  : option string :=
  match bks with
  | [] => None
  | bookkeeper :: rest =>
      let pubkey := PubkeyID bookkeeper in
      match vbftPeerInfo !! pubkey with
      | None => Some pubkey
      | Some _ => findUnknownBookkeeper vbftPeerInfo rest
      end
  end.

Fixpoint peerInfoOf (peers : list PeerConfig) (peerInfo : gmap string Z) : gmap string Z :=
  match peers with
  | [] => peerInfo
  | p :: rest => peerInfoOf rest (<[ID p := Index p]> peerInfo)
  end.

Definition len {A} (l : list A) : Z := Z.of_nat (length l).

Definition verifyHeader (this : LedgerStoreImp) (header : Header)
    (vbftPeerInfo : gmap string Z) : gmap string Z * Result unit :=
  if Height header =? 0 then (vbftPeerInfo, Ok tt) else
  let prevHeaderHash := PrevBlockHash header in
  match GetHeaderByHash this prevHeaderHash with
  | (_, Some (ErrExternal _ as err))
  | (_, Some (Errorf _ as err))
  | (_, Some (Wrapf _ _ as err)) =>
      (vbftPeerInfo, Fail (Wrapf "get prev header error %s" err))
  | (None, _) =>
      (vbftPeerInfo, Fail (Errorf "cannot find pre header by blockHash %s"))
  | (Some prevHeader, _) =>
      if negb (u32 (Height prevHeader + 1) =? Height header) then
        (vbftPeerInfo, Fail (Errorf "block height is incorrect"))
      else if Timestamp header <=? Timestamp prevHeader then
        (vbftPeerInfo, Fail (Errorf "block timestamp is incorrect"))
      else
      let consensusType := strings_ToLower Genesis_ConsensusType in
      if String.eqb consensusType "vbft" then
        let m := Z.of_nat (size vbftPeerInfo) - Z.quot (Z.of_nat (size vbftPeerInfo) * 6) 7 in
        if len (Bookkeepers header) <? m then
          (vbftPeerInfo, Fail (Errorf "header Bookkeepers %d more than 6/7 len vbftPeerInfo%d"))
        else
        match findUnknownBookkeeper vbftPeerInfo (Bookkeepers header) with
        | Some _ => (vbftPeerInfo, Fail (Errorf "invalid pubkey :%v"))
        | None =>
        let hash := Header_Hash header in
        match VerifyMultiSignature hash (Bookkeepers header) m (SigData header) with
        | Some err => (vbftPeerInfo, Fail err)
        | None =>
        match VbftBlock header with
        | Fail err => (vbftPeerInfo, Fail err)
        | Abort why => (vbftPeerInfo, Abort why)
        | Ok blkInfo =>
            match NewChainConfig blkInfo with
            | Some cfg => (peerInfoOf (Peers cfg) ∅, Ok tt)
            | None => (vbftPeerInfo, Ok tt)
            end
        end end end
      else
        match AddressFromBookkeepers (Bookkeepers header) with
        | (_, Some err) => (vbftPeerInfo, Fail err)
        | (address, None) =>
        if negb (N.eqb (NextBookkeeper prevHeader) address) then
          (vbftPeerInfo, Fail (Errorf "bookkeeper address error"))
        else
        let m := len (Bookkeepers header) - Z.quot (len (Bookkeepers header) - 1) 3 in
        let hash := Header_Hash header in
        match VerifyMultiSignature hash (Bookkeepers header) m (SigData header) with
        | Some err => (vbftPeerInfo, Fail err)
        | None => (vbftPeerInfo, Ok tt)
        end end
  end.

(** [AddHeader] adds a header to the cache and maps its height to its hash
    (block synchronisation). *)
Definition AddHeader (header : Header) : M unit :=
  this <- getLedger ;;
  let nextHeaderHeight := u32 (GetCurrentHeaderHeight this + 1) in
  if negb (Height header =? nextHeaderHeight) then
    fail (Errorf "header height %d not equal next header height %d")
  else
  let '(peerInfo, err) := verifyHeader this header (vbftPeerInfoheader this) in
  modifyLedger (set_vbftPeerInfoheader peerInfo) ;;;
  try (liftResult err) (Wrapf "verifyHeader error %s") ;;;
  addHeaderCache header ;;;
  setHeaderIndex (Height header) (Header_Hash header).

(** *** Saving a block to the three stores *)

(** [err != nil && err != scom.ErrNotFound] *)
Definition exceptNotFound (err : option error) : option error :=
  match err with
  | Some ErrNotFound => None
  | _ => err
  end.

Definition saveHeaderIndexList : M unit :=
  this <- getLedger ;;
  let storeCount := storedIndexCount this in
  let currHeight := currBlockHeight this in
  if u32 (currHeight - storeCount) <? HEADER_INDEX_BATCH_SIZE then ret tt else
  let headerList :=
    map (fun i : nat => getHeaderIndex this (u32 (storeCount + Z.of_nat i)))
        (seq 0 (Z.to_nat HEADER_INDEX_BATCH_SIZE)) in
  err <- onBlockStore (fun s => bs_SaveHeaderIndexList s storeCount headerList) ;;
  check err (Wrapf "SaveHeaderIndexList start %d error %s") ;;;
  modifyLedger (fun this =>
    set_storedIndexCount (u32 (storedIndexCount this + HEADER_INDEX_BATCH_SIZE)) this).

Definition saveBlockToBlockStore (block : Block) : M unit :=
  let blockHash := Block_Hash block in
  let blockHeight := Height (BlockHeader block) in
  setHeaderIndex blockHeight blockHash ;;;
  try saveHeaderIndexList (Wrapf "saveHeaderIndexList error %s") ;;;
  err <- onBlockStore (fun s => bs_SaveCurrentBlock s blockHeight blockHash) ;;
  check err (Wrapf "SaveCurrentBlock error %s") ;;;
  onBlockStore (fun s => (bs_SaveBlockHash s blockHeight blockHash, tt)) ;;;
  err <- onBlockStore (fun s => bs_SaveBlock s block) ;;
  check err (Wrapf "SaveBlock height %d hash %s error %s").

Definition extractShardEvents (notify : list ExecuteNotify)
  : list ShardSystemEventMsg * list MetaDataEvent * list ContractLifetimeEvent :=
  foldl (fun acc txEvents =>
    foldl (fun acc n =>
      let '(shardSysMsg, metaEvents, contractEvents) := acc in
      if N.eqb (ContractAddress n) ShardMgmtContractAddress
         || N.eqb (ContractAddress n) ShardSysMsgContractAddress then
        match States n with
        | StShardEvent shardEvt =>
            (shardSysMsg ++ [{| FromAddress := ContractAddress n; Event := shardEvt |}],
             metaEvents, contractEvents)
        | _ => acc
        end
      else
        match States n with
        | StMetaData evt => (shardSysMsg, metaEvents ++ [evt], contractEvents)
        | StContractLifetime evt => (shardSysMsg, metaEvents, contractEvents ++ [evt])
        | _ => acc
        end)
      acc (EvtNotify txEvents))
    ([], [], []) notify.

Definition extractSourceAndShardTxHash (notify : list ExecuteNotify) : gmap N N :=
  foldl (fun sourceAndShardTxHash n =>
    foldl (fun m sourceTxHash => <[sourceTxHash := TxHash n]> m)
      sourceAndShardTxHash (SourceTxHash n))
    ∅ notify.

Definition saveShardState (block : Block) (result : ExecuteResult) : M unit :=
  let '(shardSysMsg, _, _) := extractShardEvents (Notify result) in
  onStateStore (fun s =>
    (ss_AddBlockShardEvents s (Height (BlockHeader block)) shardSysMsg, tt)).

Fixpoint saveEventNotifies (notifies : list ExecuteNotify) : M unit :=
  match notifies with
  | [] => ret tt
  | notify :: rest =>
      err <- onEventStore (fun s => es_SaveEventNotifyByTx s (TxHash notify) notify) ;;
      check err (Wrapf "SaveEventNotifyByTx error %s") ;;;
      emit (EvPushSmartCodeEvent (TxHash notify)) ;;;
      saveEventNotifies rest
  end.

Definition saveBlockToStateStore (block : Block) (result : ExecuteResult) : M unit :=
  let blockHash := Block_Hash block in
  let blockHeight := Height (BlockHeader block) in
  err <- onStateStore (fun s => ss_AddStateMerkleTreeRoot s blockHeight (Hash result)) ;;
  check err (Wrapf "AddBlockMerkleTreeRoot error %s") ;;;
  err <- onStateStore (fun s =>
           ss_AddBlockMerkleTreeRoot s (TransactionsRoot (BlockHeader block))) ;;
  check err (Wrapf "AddBlockMerkleTreeRoot error %s") ;;;
  err <- onStateStore (fun s => ss_SaveCurrentBlock s blockHeight blockHash) ;;
  check err (Wrapf "SaveCurrentBlock error %s") ;;;
  saveShardState block result ;;;
  match WriteSet result with
  | None => abort "nil pointer dereference"
  | Some writeSet =>
      onStateStore (fun s =>
        (foldl (fun s kv =>
           if (String.length (snd kv) =? 0)%nat then ss_BatchDeleteRawKey s (fst kv)
           else ss_BatchPutRawKeyVal s (fst kv) (snd kv))
         s (MemDB_ForEach writeSet), tt)) ;;;
      if Common_EnableEventLog then saveEventNotifies (Notify result) else ret tt
  end.

Definition saveBlockToEventStore (block : Block) : M unit :=
  let blockHash := Block_Hash block in
  let blockHeight := Height (BlockHeader block) in
  let txs := map Transaction_Hash (Transactions block) in
  (if (0 <? len txs) then
     err <- onEventStore (fun s =>
              es_SaveEventNotifyByBlock s (Height (BlockHeader block)) txs) ;;
     check err (Wrapf "SaveEventNotifyByBlock error %s")
   else ret tt) ;;;
  err <- onEventStore (fun s => es_SaveCurrentBlock s blockHeight blockHash) ;;
  check err (Wrapf "SaveCurrentBlock error %s").

Definition addShardEventConfig (height : Z) (shardID : ShardID) (cfg : ShardConfig)
    (peers : gmap string PeerShardStakeInfo) : M unit :=
  let sink := serializeConfigShardEvent height cfg peers in
  err <- onEventStore (fun s => es_AddShardConsensusConfig s shardID height sink) ;;
  check err (Wrapf "AddShardConsensusConfig err:%s") ;;;
  this <- getLedger ;;
  let '(heights, err) := es_GetShardConsensusHeight (eventStore this) shardID in
  check (exceptNotFound err) (Wrapf "GetShardConsensusHeight shardID:%v, err:%s") ;;;
  let heights := heights ++ [height] in
  onEventStore (fun s => (es_AddShardConsensusHeight s shardID heights, tt)).

Definition GetStorageItem (this : LedgerStoreImp) (contract : Address) (key : bytes)
  : option bytes * option error :=
  ss_GetStorageState (stateStore this) contract key.

(** The loop returns at the first governance event it manages to decode;
    an event it cannot decode is logged and skipped. *)
Fixpoint saveCrossShardGovernanceData (shardEvts : list ShardSystemEventMsg)
    (overlayDB : option MemDB) : M unit :=
  match shardEvts with
  | [] => ret tt
  | evt :: rest =>
      let shardEvt := Event evt in
      if EventType shardEvt =? EVENT_SHARD_CONFIG_UPDATE then
        match decodeConfigShardEvent (EventPayload shardEvt) with
        | None => saveCrossShardGovernanceData rest overlayDB
        | Some (height, shardID, cfg, peers) =>
            addShardEventConfig height shardID cfg peers
        end
      else if EventType shardEvt =? EVENT_SHARD_ACTIVATED then
        match decodeShardActiveEvent (EventPayload shardEvt) with
        | None => saveCrossShardGovernanceData rest overlayDB
        | Some shardID =>
            let key := shardStateKey shardID in
            match overlayDB with
            | None => abort "nil pointer dereference"
            | Some db =>
                this <- getLedger ;;
                let '(data, unknown) :=
                  GetRawStorageItemFromMemDb db ShardMgmtContractAddress key in
                let shardState :=
                  if (unknown : bool) then
                    match GetStorageItem this ShardMgmtContractAddress key with
                    | (Some value, None) => decodeShardState value
                    | _ => None
                    end
                  else
                    match GetValueFromRawStorageItem data with
                    | (value, None) => decodeShardState value
                    | (_, Some _) => None
                    end in
                match shardState with
                | None => saveCrossShardGovernanceData rest overlayDB
                | Some (cfg, peers) => addShardEventConfig 0 shardID cfg peers
                end
            end
        end
      else saveCrossShardGovernanceData rest overlayDB
  end.

Definition saveParentShardConfig (block : Block) : M unit :=
  if String.eqb Genesis_ConsensusType CONSENSUS_TYPE_SOLO then ret tt else
  match json_Unmarshal_VbftBlockInfo (ConsensusPayload (BlockHeader block)) with
  | Fail err => fail (Wrapf "unmarshal blockInfo: %s" err)
  | Abort why => abort why
  | Ok blkInfo =>
      if negb (LastConfigBlockNum blkInfo =? Height (BlockHeader block)) then ret tt else
      match NewChainConfig blkInfo with
      | None => abort "nil pointer dereference"
      | Some chainCfg =>
          let config := mkVbftShardConfig (cfgN chainCfg) (cfgC chainCfg) in
          let peers :=
            foldl (fun m peer => <[ID peer := mkConsensusPeer (Index peer) (ID peer)]> m)
                  ∅ (Peers chainCfg) in
          addShardEventConfig (Height (BlockHeader block))
            (HeaderShardID (BlockHeader block)) config peers
      end
  end.

Fixpoint saveContractMetaData (metaEvents : list MetaDataEvent) : M unit :=
  match metaEvents with
  | [] => ret tt
  | metaEvent :: rest =>
      err <- onEventStore (fun s => es_SaveContractMetaDataEvent s metaEvent) ;;
      check err id ;;;
      saveContractMetaData rest
  end.

Fixpoint saveCrossShardDeployContractEventData
    (contractEvents : list ContractLifetimeEvent) : M unit :=
  match contractEvents with
  | [] => ret tt
  | contractEvent :: rest =>
      err <- onEventStore (fun s => es_SaveContractEvent s contractEvent) ;;
      check err id ;;;
      saveCrossShardDeployContractEventData rest
  end.

Definition saveCrossShardDataToStore (block : Block) (result : ExecuteResult) : M unit :=
  let '(shardSysMsg, metaEvents, deployContractEvent) :=
    extractShardEvents (Notify result) in
  saveCrossShardGovernanceData shardSysMsg (WriteSet result) ;;;
  saveParentShardConfig block ;;;
  saveContractMetaData metaEvents ;;;
  saveCrossShardDeployContractEventData deployContractEvent.

(** [GetBlockRootWithNewTxRoots]: the block root after adding new
    transaction roots.  The slice expression [txRoots[i:]] panics when [i]
    exceeds the length. *)
Definition GetBlockRootWithNewTxRoots (this : LedgerStoreImp) (startHeight : Z)
    (txRoots : list Uint256) : Result Uint256 :=
  if u32 (u32 (startHeight + u32 (len txRoots)) - 1) <? currBlockHeight this then
    Ok UINT256_EMPTY
  else
    let from := u32 (u32 (currBlockHeight this + 1) - startHeight) in
    if len txRoots <? from then Abort "slice bounds out of range"
    else Ok (ss_GetBlockRootWithNewTxRoots (stateStore this) (drop (Z.to_nat from) txRoots)).

(** [submitBlock] commits an executed block to the three stores. *)
Definition submitBlock (block : Block) (result : ExecuteResult) : M unit :=
  let blockHash := Block_Hash block in
  let blockHeight := Height (BlockHeader block) in
  this <- getLedger ;;
  blockRoot <- liftResult (GetBlockRootWithNewTxRoots this (Height (BlockHeader block))
                             [TransactionsRoot (BlockHeader block)]) ;;
  if negb (Height (BlockHeader block) =? 0)
     && negb (N.eqb blockRoot (BlockRoot (BlockHeader block))) then
    fail (Errorf "wrong block root at height:%d, expected:%s, got:%s")
  else
  blockStore_NewBatch ;;;
  stateStore_NewBatch ;;;
  eventStore_NewBatch ;;;
  try (saveBlockToBlockStore block) (Wrapf "save to block store height:%d error:%s") ;;;
  try (saveBlockToStateStore block result)
      (Wrapf "save to state store height:%d error:%s") ;;;
  try (saveBlockToEventStore block) (Wrapf "save to event store height:%d error:%s") ;;;
  try (saveCrossShardDataToStore block result)
      (Wrapf "save to save cross shard data height:%d error:%s") ;;;
  err <- blockStore_CommitTo ;;
  check err (Wrapf "blockStore.CommitTo height:%d error %s") ;;;
  err <- eventStore_CommitTo ;;
  check err (Wrapf "eventStore.CommitTo height:%d error %s") ;;;
  err <- stateStore_CommitTo ;;
  check err (Wrapf "stateStore.CommitTo height:%d error %s") ;;;
  setCurrentBlock blockHeight blockHash ;;;
  let '(shardSysMsg, _, _) := extractShardEvents (Notify result) in
  let sourceAndShardTxHashMap := extractSourceAndShardTxHash (Notify result) in
  if DefActorPublisher_present then
    emit (EvPublishSaveBlockComplete block shardSysMsg sourceAndShardTxHashMap)
  else ret tt.

(** *** Executing the transactions of a block *)

Definition set_overlay_cache (ov : OverlayDB) (ca : CacheDB) (ctx : ExecCtx) : ExecCtx :=
  {| overlay := ov; cache := ca; xshardDB := xshardDB ctx;
     lockedAddress := lockedAddress ctx; lockedKeys := lockedKeys ctx |}.

Definition set_cache (ca : CacheDB) (ctx : ExecCtx) : ExecCtx :=
  set_overlay_cache (overlay ctx) ca ctx.

(** [cache.Commit()] writes the cache through to the overlay. *)
Definition commitCache (ctx : ExecCtx) : ExecCtx :=
  let '(ca, ov) := cache_Commit (cache ctx) (overlay ctx) in
  set_overlay_cache ov ca ctx.

Definition shardCallMsgs (tx : Transaction) : list CommonShardMsg :=
  match Payload tx with
  | ShardCallPayload msgs => msgs
  | _ => []
  end.

(** The error a handler returns is only logged; what [HandleTransaction]
    returns depends on the overlay's error alone. *)
Definition HandleTransaction (store : LedgerStoreImp) (gasTable : gmap string Z)
    (header : Header) (tx : Transaction) (ctx : ExecCtx)
  : ExecCtx * Result TransactionNotify :=
  let txHash := Transaction_Hash tx in
  let events := {| TxHash := txHash; State := CONTRACT_STATE_FAIL; GasConsumed := 0;
                   EvtNotify := []; SourceTxHash := [] |} in
  let notify := {| ContractEvent := events; ShardMsg := [] |} in
  match TxType tx with
  | Deploy =>
      let '((ov, ca, ev), _) :=
        HandleDeployTransaction store gasTable tx header (overlay ctx) (cache ctx)
          (ContractEvent notify) in
      let notify := {| ContractEvent := ev; ShardMsg := ShardMsg notify |} in
      let ctx := set_overlay_cache ov ca ctx in
      match overlay_Error (overlay ctx) with
      | Some oerr => (ctx, Fail (Wrapf "HandleDeployTransaction tx %s error %s" oerr))
      | None => (commitCache ctx, Ok notify)
      end
  | MetaData =>
      let '((ov, ca, ev), _) :=
        HandleChangeMetadataTransaction store gasTable tx header (overlay ctx) (cache ctx)
          (ContractEvent notify) in
      let notify := {| ContractEvent := ev; ShardMsg := ShardMsg notify |} in
      let ctx := set_overlay_cache ov ca ctx in
      match overlay_Error (overlay ctx) with
      | Some oerr =>
          (ctx, Fail (Wrapf "HandleChangeMetadataTransaction tx %s error %s" oerr))
      | None => (ctx, Ok notify)
      end
  | Invoke =>
      let '((ctx, notify), _) :=
        HandleInvokeTransaction store gasTable tx header ctx notify in
      match overlay_Error (overlay ctx) with
      | Some oerr => (ctx, Fail (Wrapf "HandleInvokeTransaction tx %s error %s" oerr))
      | None => (commitCache ctx, Ok notify)
      end
  | ShardCall =>
      let '((ctx, notify), _) :=
        HandleShardCallTransaction store gasTable (shardCallMsgs tx) header ctx notify in
      match overlay_Error (overlay ctx) with
      | Some oerr => (ctx, Fail (Wrapf "HandleDeployTransaction tx %s error %s" oerr))
      | None => (commitCache ctx, Ok notify)
      end
  | OtherType _ => (ctx, Ok notify)
  end.

(** The local variables of [executeBlock] that its loops update. *)
Record ExecState := {
  ctx : ExecCtx;
  result : ExecuteResult;
  shardNotify : list CommonShardMsg
}.

Definition resetCache (es : ExecState) : ExecState :=
  {| ctx := set_cache (cache_Reset (cache (ctx es))) (ctx es);
     result := result es; shardNotify := shardNotify es |}.

Definition set_ctx (c : ExecCtx) (es : ExecState) : ExecState :=
  {| ctx := c; result := result es; shardNotify := shardNotify es |}.

Definition appendNotify (notify : TransactionNotify) (r : ExecuteResult) : ExecuteResult :=
  {| WriteSet := WriteSet r; Hash := Hash r; MerkleRoot := MerkleRoot r;
     Notify := Notify r ++ [ContractEvent notify]; ShardNotify := ShardNotify r |}.

(** After a transaction: [shardNotify = append(shardNotify, notify.ShardMsg...)]
    and [result.Notify = append(result.Notify, notify.ContractEvent)]. *)
Definition recordNotify (c : ExecCtx) (notify : TransactionNotify) (es : ExecState)
  : ExecState :=
  {| ctx := c; result := appendNotify notify (result es);
     shardNotify := shardNotify es ++ ShardMsg notify |}.

(** One iteration of either loop of [executeBlock]; [wantShardCall] tells
    which transaction type the loop insists on. *)
Definition executeOne (store : LedgerStoreImp) (gasTable : gmap string Z) (header : Header)
    (wantShardCall : bool) (tx : Transaction) (es : ExecState)
  : M (ExecState * option error) :=
  emit EvCacheReset ;;;
  let es := resetCache es in
  if negb (Bool.eqb (isShardCall (TxType tx)) wantShardCall) then
    ret (es, Some (Errorf "handleTransaction failed tx type:%d,txHash:%s"))
  else
    emit (EvHandleTransaction tx) ;;;
    match HandleTransaction store gasTable header tx (ctx es) with
    | (c, Fail e) => ret (set_ctx c es, Some e)
    | (c, Abort why) => abort why
    | (c, Ok notify) => ret (recordNotify c notify es, None)
    end.

(** [for _, shardTx := range block.ShardTxs[id]] *)
Fixpoint executeShardTxs (store : LedgerStoreImp) (gasTable : gmap string Z)
    (header : Header) (shardTxs : list ShardTx) (es : ExecState)
  : M (ExecState * option error) :=
  match shardTxs with
  | [] => ret (es, None)
  | shardTx :: rest =>
      r <- executeOne store gasTable header true (Tx shardTx) es ;;
      match r with
      | (es, Some e) => ret (es, Some e)
      | (es, None) => executeShardTxs store gasTable header rest es
      end
  end.

(** [for _, id := range ids] *)
Fixpoint executeShardGroups (store : LedgerStoreImp) (gasTable : gmap string Z)
    (block : Block) (ids : list N) (es : ExecState) : M (ExecState * option error) :=
  match ids with
  | [] => ret (es, None)
  | id :: rest =>
      r <- executeShardTxs store gasTable (BlockHeader block)
             (default [] (ShardTxs block !! id)) es ;;
      match r with
      | (es, Some e) => ret (es, Some e)
      | (es, None) => executeShardGroups store gasTable block rest es
      end
  end.

(** [for _, tx := range block.Transactions] *)
Fixpoint executeTransactions (store : LedgerStoreImp) (gasTable : gmap string Z)
    (header : Header) (txs : list Transaction) (es : ExecState)
  : M (ExecState * option error) :=
  match txs with
  | [] => ret (es, None)
  | tx :: rest =>
      r <- executeOne store gasTable header false tx es ;;
      match r with
      | (es, Some e) => ret (es, Some e)
      | (es, None) => executeTransactions store gasTable header rest es
      end
  end.

(** [sort.Slice(ids, func(i, j int) bool { return ids[i].ToUint64() < ids[j].ToUint64() })];
    the keys of a map are pairwise distinct, so every sorting algorithm
    returns the same slice (lemma [sorted_ids_unique]). *)
Definition sortShardIDs (ids : list N) : list N := merge_sort N.le ids.

(** *** The state root *)

Definition accumulateHash (hasher : bytes) (iter : StoreIterator) : bytes * option error :=
  (foldl (fun h kv => String.append (String.append h (fst kv)) (snd kv))
         hasher (iterItems iter),
   iterError iter).

Definition calculateTotalStateHash (overlay : OverlayDB) : Uint256 * option error :=
  let stateDiff := EmptyString in
  let iter := overlay_NewIterator overlay (prefix_bytes ST_CONTRACT) in
  let '(stateDiff, err) := accumulateHash stateDiff iter in
  match err with
  | Some e => (UINT256_EMPTY, Some e)
  | None =>
      let iter := overlay_NewIterator overlay (prefix_bytes ST_STORAGE) in
      let '(stateDiff, err) := accumulateHash stateDiff iter in
      match err with
      | Some e => (UINT256_EMPTY, Some e)
      | None => (sha256_Sum stateDiff, None)
      end
  end.

(** *** [executeBlock] *)

(** First part of [executeBlock], up to the end of the two loops: the
    overlay is opened, the global parameters refreshed, the locked sets
    loaded, and the transactions run. *)
Definition executeBlock_run (rt : GoRuntime) (block : Block)
  : M (ExecState * option error) :=
  emit (EvExecuteBlock (Height (BlockHeader block))) ;;;
  this <- getLedger ;;
  let overlay := ss_NewOverlayDB (stateStore this) in
  let es0 (c : ExecCtx) := {| ctx := c; result := emptyResult; shardNotify := [] |} in
  let c0 := {| overlay := overlay; cache := NewCacheDB overlay;
               xshardDB := NewXShardDB overlay;
               lockedAddress := ∅; lockedKeys := ∅ |} in
  err <- (if negb (Height (BlockHeader block) =? 0) then
            let config := {| cfgShardID := HeaderShardID (BlockHeader block);
                             cfgTime := Timestamp (BlockHeader block);
                             cfgHeight := Height (BlockHeader block);
                             cfgParentHeight := ParentHeight (BlockHeader block) |} in
            g <- getGasTable ;;
            let '(g', err) :=
              refreshGlobalParam config (NewCacheDB (ss_NewOverlayDB (stateStore this)))
                this g in
            setGasTable g' ;;; ret err
          else ret None) ;;
  match err with
  | Some e => ret (es0 c0, Some e)
  | None =>
  gasTable <- getGasTable ;;
  match ss_GetCurrentLockedAddress (stateStore this) with
  | (_, Some e) => ret (es0 c0, Some e)
  | (addrList, None) =>
  match ss_GetCurrentLockedKeys (stateStore this) with
  | (_, Some e) => ret (es0 c0, Some e)
  | (keyList, None) =>
  let c := {| overlay := overlay; cache := NewCacheDB overlay;
              xshardDB := NewXShardDB overlay;
              lockedAddress := list_to_set addrList;
              lockedKeys := list_to_set keyList |} in
  let ids := sortShardIDs (rangeShardTxs rt (fst <$> map_to_list (ShardTxs block))) in
  r <- executeShardGroups this gasTable block ids (es0 c) ;;
  match r with
  | (es, Some e) => ret (es, Some e)
  | (es, None) =>
      executeTransactions this gasTable (BlockHeader block) (Transactions block) es
  end end end end.

(** Second part of [executeBlock]: the cross-shard messages and the locked
    sets are written back through the overlay ([executeBlock_persist]),
    and the result is filled in, the state root last
    ([executeBlock_seal]). *)
Definition executeBlock_persist (rt : GoRuntime) (block : Block) (es : ExecState)
  : XShardDB * OverlayDB :=
  let xdb := xshard_SetXShardMsgInBlock (xshardDB (ctx es)) (Height (BlockHeader block))
               (shardNotify es) in
  let addrList := rangeLockedAddress rt (elements (lockedAddress (ctx es))) in
  let keyList := rangeLockedKeys rt (elements (lockedKeys (ctx es))) in
  let xdb := xshard_SetLockedAddress xdb addrList in
  let xdb := xshard_SetLockedKeys xdb keyList in
  xshard_Commit xdb (overlay (ctx es)).

Definition executeBlock_seal (rt : GoRuntime) (this : LedgerStoreImp) (block : Block)
    (es : ExecState) : ExecuteResult * option error :=
  let overlay := snd (executeBlock_persist rt block es) in
  let result := {| WriteSet := Some (overlay_GetWriteSet overlay);
                   Hash := overlay_ChangeHash overlay;
                   MerkleRoot := MerkleRoot (result es);
                   Notify := Notify (result es);
                   ShardNotify := shardNotify es |} in
  if Height (BlockHeader block) <? stateHashCheckHeight this then
    ({| WriteSet := WriteSet result; Hash := Hash result;
        MerkleRoot := UINT256_EMPTY;
        Notify := Notify result; ShardNotify := ShardNotify result |}, None)
  else if Height (BlockHeader block) =? stateHashCheckHeight this then
    match calculateTotalStateHash overlay with
    | (_, Some e) => (result, Some e)
    | (res, None) =>
        ({| WriteSet := WriteSet result; Hash := res; MerkleRoot := res;
            Notify := Notify result; ShardNotify := ShardNotify result |}, None)
    end
  else
    ({| WriteSet := WriteSet result; Hash := Hash result;
        MerkleRoot := ss_GetStateMerkleRootWithNewHash (stateStore this) (Hash result);
        Notify := Notify result; ShardNotify := ShardNotify result |}, None).

Definition executeBlock (rt : GoRuntime) (block : Block) : M (ExecuteResult * option error) :=
  r <- executeBlock_run rt block ;;
  match r with
  | (es, Some e) => ret (result es, Some e)
  | (es, None) =>
      this <- getLedger ;;
      ret (executeBlock_seal rt this block es)
  end.

(** *** The two entry points *)

Definition ExecuteBlock (rt : GoRuntime) (block : Block) : M (ExecuteResult * option error) :=
  this <- getLedger ;;
  let currBlockHeight := GetCurrentBlockHeight this in
  let blockHeight := Height (BlockHeader block) in
  if blockHeight <=? currBlockHeight then
    let '(root, err) := GetStateMerkleRoot this blockHeight in
    ret ({| WriteSet := None; Hash := UINT256_EMPTY; MerkleRoot := root;
            Notify := []; ShardNotify := [] |}, err)
  else
  let nextBlockHeight := u32 (currBlockHeight + 1) in
  if negb (blockHeight =? nextBlockHeight) then
    ret (emptyResult, Some (Errorf "block height %d not equal next block height %d"))
  else executeBlock rt block.

Definition SubmitBlock (block : Block) (result : ExecuteResult) : M unit :=
  this <- getLedger ;;
  let currBlockHeight := GetCurrentBlockHeight this in
  let blockHeight := Height (BlockHeader block) in
  if blockHeight <=? currBlockHeight then ret tt else
  let nextBlockHeight := u32 (currBlockHeight + 1) in
  if negb (blockHeight =? nextBlockHeight) then
    fail (Errorf "block height %d not equal next block height %d")
  else
  let '(peerInfo, err) := verifyHeader this (BlockHeader block) (vbftPeerInfoblock this) in
  modifyLedger (set_vbftPeerInfoblock peerInfo) ;;;
  try (liftResult err) (Wrapf "verifyHeader error %s") ;;;
  try (submitBlock block result) (Wrapf "saveBlock error %s") ;;;
  delHeaderCache (Block_Hash block).

(** *** Start-up and recovery *)

Definition loadCurrentBlock : M unit :=
  this <- getLedger ;;
  let '((currentBlockHash, currentBlockHeight), err) :=
    bs_GetCurrentBlock (blockStore this) in
  check err (Wrapf "LoadCurrentBlock error %s") ;;;
  modifyLedger (set_currBlock currentBlockHeight currentBlockHash).

(** [n] iterations of the loop of [loadHeaderIndexList], from height [i]. *)
Fixpoint loadBlockHashes (n : nat) (i : Z) : M unit :=
  match n with
  | O => ret tt
  | S n' =>
      this <- getLedger ;;
      let height := i in
      let '(blockHash, err) := bs_GetBlockHash (blockStore this) height in
      check err (Wrapf "LoadBlockHash height %d error %s") ;;;
      if N.eqb blockHash UINT256_EMPTY then fail (Errorf "LoadBlockHash height %d hash nil")
      else
        setHeaderIndex height blockHash ;;;
        loadBlockHashes n' (u32 (i + 1))
  end.

(** The loop [for i := storeIndexCount; i <= currBlockHeight; i++] runs
    [currBlockHeight - storeIndexCount + 1] times; when [currBlockHeight]
    is the largest [uint32] the counter wraps around and, unless a read
    fails during the first round, the loop never ends. *)
Definition loadHeaderIndexList : M unit :=
  this <- getLedger ;;
  let currBlockHeight := GetCurrentBlockHeight this in
  let '(headerIndex, err) := bs_GetHeaderIndexList (blockStore this) in
  check err (Wrapf "LoadHeaderIndexList error %s") ;;;
  let storeIndexCount := u32 (Z.of_nat (size headerIndex)) in
  modifyLedger (fun this => set_storedIndexCount storeIndexCount
                              (set_headerIndex headerIndex this)) ;;;
  if currBlockHeight <? storeIndexCount then ret tt
  else if currBlockHeight =? MaxUint32 then
    loadBlockHashes (Z.to_nat (2 ^ 32)) storeIndexCount ;;; abort "loop never ends"
  else loadBlockHashes (Z.to_nat (currBlockHeight - storeIndexCount + 1)) storeIndexCount.

(** [n] iterations of the loop of [recoverStore], from height [i]. *)
Fixpoint recoverBlocks (rt : GoRuntime) (n : nat) (i : Z) : M unit :=
  match n with
  | O => ret tt
  | S n' =>
      this <- getLedger ;;
      let '(blockHash, err) := bs_GetBlockHash (blockStore this) i in
      check err (Wrapf "blockStore.GetBlockHash height:%d error:%s") ;;;
      let '(block, err) := bs_GetBlock (blockStore this) blockHash in
      check err (Wrapf "blockStore.GetBlock height:%d error:%s") ;;;
      match block with
      | None => abort "nil pointer dereference"
      | Some block =>
          eventStore_NewBatch ;;;
          stateStore_NewBatch ;;;
          r <- executeBlock rt block ;;
          let '(result, err) := r in
          check err id ;;;
          try (saveBlockToStateStore block result)
              (Wrapf "save to state store height:%d error:%s") ;;;
          try (saveBlockToEventStore block)
              (Wrapf "save to event store height:%d error:%s") ;;;
          err <- eventStore_CommitTo ;;
          check err (Wrapf "eventStore.CommitTo height:%d error %s") ;;;
          err <- stateStore_CommitTo ;;
          check err (Wrapf "stateStore.CommitTo height:%d error %s") ;;;
          recoverBlocks rt n' (i + 1)
      end
  end.

(** [for i := stateHeight; i < blockHeight; i++] *)
Definition recoverStore (rt : GoRuntime) : M unit :=
  this <- getLedger ;;
  let blockHeight := GetCurrentBlockHeight this in
  let '((_, stateHeight), err) := ss_GetCurrentBlock (stateStore this) in
  check err (Wrapf "stateStore.GetCurrentBlock error %s") ;;;
  recoverBlocks rt (Z.to_nat (blockHeight - stateHeight)) stateHeight.

Definition init (rt : GoRuntime) : M unit :=
  try loadCurrentBlock (Wrapf "loadCurrentBlock error %s") ;;;
  try loadHeaderIndexList (Wrapf "loadHeaderIndexList error %s") ;;;
  try (recoverStore rt) (Wrapf "recoverStore error %s").

End Ledger.

(** ** Notions used by the statements *)

Section Notions.
Context `{SV : Services}.

Definition isU32 (x : Z) : Prop := 0 <= x <= MaxUint32.

(** The world a computation leaves, and what it returns. *)
Definition exec {A} (c : M A) (w : World) : World := fst (c w).
Definition outcome {A} (c : M A) (w : World) : Result A := snd (c w).

(** The body of [submitBlock] after the block-root check, in two halves:
    everything written to the three open batches, then the commits. *)
Definition submitBlock_save (block : Block) (result : ExecuteResult) : M unit :=
  blockStore_NewBatch ;;;
  stateStore_NewBatch ;;;
  eventStore_NewBatch ;;;
  try (saveBlockToBlockStore block) (Wrapf "save to block store height:%d error:%s") ;;;
  try (saveBlockToStateStore block result)
      (Wrapf "save to state store height:%d error:%s") ;;;
  try (saveBlockToEventStore block) (Wrapf "save to event store height:%d error:%s") ;;;
  try (saveCrossShardDataToStore block result)
      (Wrapf "save to save cross shard data height:%d error:%s").

Definition submitBlock_commit (block : Block) (result : ExecuteResult) : M unit :=
  err <- blockStore_CommitTo ;;
  check err (Wrapf "blockStore.CommitTo height:%d error %s") ;;;
  err <- eventStore_CommitTo ;;
  check err (Wrapf "eventStore.CommitTo height:%d error %s") ;;;
  err <- stateStore_CommitTo ;;
  check err (Wrapf "stateStore.CommitTo height:%d error %s") ;;;
  setCurrentBlock (Height (BlockHeader block)) (Block_Hash block) ;;;
  let '(shardSysMsg, _, _) := extractShardEvents (Notify result) in
  let sourceAndShardTxHashMap := extractSourceAndShardTxHash (Notify result) in
  if DefActorPublisher_present then
    emit (EvPublishSaveBlockComplete block shardSysMsg sourceAndShardTxHashMap)
  else ret tt.

(** [SubmitBlock] past its two height tests. *)
Definition SubmitBlock_proceed (block : Block) (result : ExecuteResult) : M unit :=
  this <- getLedger ;;
  let '(peerInfo, err) := verifyHeader this (BlockHeader block) (vbftPeerInfoblock this) in
  modifyLedger (set_vbftPeerInfoblock peerInfo) ;;;
  try (liftResult err) (Wrapf "verifyHeader error %s") ;;;
  try (submitBlock block result) (Wrapf "saveBlock error %s") ;;;
  delHeaderCache (Block_Hash block).

(** The header chain condition: the header named by [PrevBlockHash] is
    known, the height is its height plus one (in [uint32] arithmetic,
    hence in plain arithmetic whenever the previous height is a [uint32]
    and the new one is not zero), and the timestamp is later. *)
Definition chained (this : LedgerStoreImp) (header : Header) : Prop :=
  exists prevHeader,
    fst (GetHeaderByHash this (PrevBlockHash header)) = Some prevHeader /\
    Height header = u32 (Height prevHeader + 1) /\
    (isU32 (Height prevHeader) -> Height header = Height prevHeader + 1) /\
    Timestamp prevHeader < Timestamp header.

(** The in-memory current-block pointer. *)
Definition pointer (w : World) : Z * Uint256 :=
  (currBlockHeight (ledger w), currBlockHash (ledger w)).

(** Commits and updates of the current-block pointer. *)
Definition isCommitEffect (ev : Effect) : bool :=
  match ev with
  | EvCommitTo _ _ | EvSetCurrentBlock _ _ => true
  | _ => false
  end.

Definition commitLog (t : list Effect) : list Effect := List.filter isCommitEffect t.

(** The order the specification prescribes inside a block: the groups of
    inbound cross-shard transactions by ascending shard id, then the
    block's own transactions, each one after a reset of the cache. *)
Definition step (tx : Transaction) : list Effect :=
  [EvCacheReset; EvHandleTransaction tx].

Definition ascendingShardIDs (block : Block) : list N :=
  merge_sort N.le (fst <$> map_to_list (ShardTxs block)).

Definition shardSchedule (block : Block) : list Effect :=
  flat_map (fun id => flat_map (fun shardTx => step (Tx shardTx))
                               (default [] (ShardTxs block !! id)))
           (ascendingShardIDs block).

Definition schedule (block : Block) : list Effect :=
  shardSchedule block ++ flat_map step (Transactions block).

(** The four transaction types [HandleTransaction] has a case for. *)
Definition dispatched (t : TransactionType) : bool :=
  match t with
  | Deploy | MetaData | Invoke | ShardCall => true
  | OtherType _ => false
  end.

(** The notification [HandleTransaction] starts from. *)
Definition failedNotify (tx : Transaction) : TransactionNotify :=
  {| ContractEvent :=
       {| TxHash := Transaction_Hash tx; State := CONTRACT_STATE_FAIL;
          GasConsumed := 0; EvtNotify := []; SourceTxHash := [] |};
     ShardMsg := [] |}.

(** What the handler of [tx] leaves behind, before the overlay's error is
    looked at: the objects it has written to, the notification it has
    filled in, and the error it returned. *)
Definition runHandler (store : LedgerStoreImp) (gasTable : gmap string Z)
    (header : Header) (tx : Transaction) (c : ExecCtx)
  : (ExecCtx * TransactionNotify) * option error :=
  match TxType tx with
  | Deploy =>
      let '((ov, ca, ev), err) :=
        HandleDeployTransaction store gasTable tx header (overlay c) (cache c)
          (ContractEvent (failedNotify tx)) in
      ((set_overlay_cache ov ca c, {| ContractEvent := ev; ShardMsg := [] |}), err)
  | MetaData =>
      let '((ov, ca, ev), err) :=
        HandleChangeMetadataTransaction store gasTable tx header (overlay c) (cache c)
          (ContractEvent (failedNotify tx)) in
      ((set_overlay_cache ov ca c, {| ContractEvent := ev; ShardMsg := [] |}), err)
  | Invoke => HandleInvokeTransaction store gasTable tx header c (failedNotify tx)
  | ShardCall =>
      HandleShardCallTransaction store gasTable (shardCallMsgs tx) header c (failedNotify tx)
  | OtherType _ => ((c, failedNotify tx), None)
  end.

(** The full-state hash the specification describes: the hash of every
    key and value of the contract namespace, then of the storage
    namespace, in iteration order. *)
Definition fullStateHash (ov : OverlayDB) : Uint256 :=
  sha256_Sum
    (foldl (fun h kv => String.append (String.append h (fst kv)) (snd kv)) EmptyString
       (iterItems (overlay_NewIterator ov (prefix_bytes ST_CONTRACT))
        ++ iterItems (overlay_NewIterator ov (prefix_bytes ST_STORAGE)))).

(** A computation that neither commits a store nor moves the pointer:
    it leaves the pointer as it is and logs no commit. *)
Definition quiet {A} (c : M A) : Prop :=
  forall w, pointer (exec c w) = pointer w /\
            exists t, trace (exec c w) = trace w ++ t /\ commitLog t = [].

(** A computation that follows a plan: it leaves the ledger store as it
    is, appends to the log a prefix of the plan, the whole plan when it
    ends without an error, and never fails outright. *)
Definition follows {A} (c : M (A * option error)) (plan : list Effect) : Prop :=
  forall w,
    ledger (exec c w) = ledger w /\
    exists t, trace (exec c w) = trace w ++ t /\
              t `prefix_of` plan /\
              (forall a, outcome c w = Ok (a, None) -> t = plan) /\
              (forall e, outcome c w <> Fail e).

(** A step that always returns, logs nothing and leaves the ledger store
    as it is. *)
Definition silent {X} (c : M X) : Prop :=
  forall w, exists x w', c w = (w', Ok x) /\ ledger w' = ledger w /\ trace w' = trace w.

(** One round of the loop of [recoverStore] on the block it has read. *)
Definition replayBlock (rt : GoRuntime) (block : Block) : M unit :=
  eventStore_NewBatch ;;;
  stateStore_NewBatch ;;;
  r <- executeBlock rt block ;;
  let '(result, err) := r in
  check err id ;;;
  try (saveBlockToStateStore block result)
      (Wrapf "save to state store height:%d error:%s") ;;;
  try (saveBlockToEventStore block)
      (Wrapf "save to event store height:%d error:%s") ;;;
  err <- eventStore_CommitTo ;;
  check err (Wrapf "eventStore.CommitTo height:%d error %s") ;;;
  err <- stateStore_CommitTo ;;
  check err (Wrapf "stateStore.CommitTo height:%d error %s").

(** What [InitLedgerStoreWithGenesisBlock] does with the genesis block of
    a fresh ledger, and what a consensus round does with a later block. *)
Definition saveGenesis (rt : GoRuntime) (genesisBlock : Block) : M unit :=
  r <- executeBlock rt genesisBlock ;;
  let '(result, err) := r in
  check err id ;;;
  try (submitBlock genesisBlock result) (Wrapf "save genesis block error %s").

Definition genBlock (rt : GoRuntime) (block : Block) : M unit :=
  r <- ExecuteBlock rt block ;;
  let '(result, err) := r in
  check err (Wrapf "executeBlock height:%d error:%s") ;;;
  try (SubmitBlock block result) (Wrapf "submitBlock height:%d error:%s").

End Notions.

(** ** Queries and batch insertion of headers

    The remaining accessors of the ledger store, [AddHeaders], and the
    notions the statements about them use. *)

(** [sort.Slice(headers, func(i, j int) bool { return headers[i].Height <
    headers[j].Height })]: the slice ends up ordered by height; the sort
    is not stable, so the order among headers of equal height is the
    runtime's choice. *)
Record GoSort := {
  sortByHeight : list Header -> list Header;
  sortByHeight_perm : forall l, sortByHeight l ≡ₚ l;
  sortByHeight_sorted :
    forall l, StronglySorted (fun a b => Height a <= Height b) (sortByHeight l)
}.

Section Queries.
Context `{SV : Services}.

(** [GetCurrentBlock] returns the current block height and block hash. *)
Definition GetCurrentBlock (this : LedgerStoreImp) : Z * Uint256 :=
  (currBlockHeight this, currBlockHash this).

(** [GetHeaderByHeight]: for a height whose index entry is missing (or is
    the empty hash) the result is a nil header and a nil error. *)
Definition GetHeaderByHeight (this : LedgerStoreImp) (height : Z)
  : option Header * option error :=
  let blockHash := GetBlockHash this height in
  if N.eqb blockHash UINT256_EMPTY then (None, None)
  else GetHeaderByHash this blockHash.

Definition GetBlockByHash (this : LedgerStoreImp) (blockHash : Uint256)
  : option Block * option error :=
  bs_GetBlock (blockStore this) blockHash.

Definition GetBlockByHeight (this : LedgerStoreImp) (height : Z)
  : option Block * option error :=
  let blockHash := GetBlockHash this height in
  if N.eqb blockHash UINT256_EMPTY then (None, None)
  else GetBlockByHash this blockHash.

(** [for _, header := range headers { err = this.AddHeader(header); ... }] *)
Fixpoint addHeaderList (headers : list Header) : M unit :=
  match headers with
  | [] => ret tt
  | header :: rest => AddHeader header ;;; addHeaderList rest
  end.

(** [AddHeaders] sorts the batch by height and adds the headers one by
    one; it returns at the first header [AddHeader] turns down. *)
Definition AddHeaders (gs : GoSort) (headers : list Header) : M unit :=
  addHeaderList (sortByHeight gs headers).

(** *** Notions *)

(** The header index holds exactly the heights below [n]. *)
Definition denseIndex (this : LedgerStoreImp) (n : Z) : Prop :=
  dom (headerIndex this) = (list_to_set (seqZ 0 n) : gset Z).

(** A computation that leaves some part of the ledger store as it is. *)
Definition keeps {X A} (part : LedgerStoreImp -> X) (c : M A) : Prop :=
  forall w, part (ledger (exec c w)) = part (ledger w).

(** The parts of the ledger store held in memory only. *)
Definition headers (this : LedgerStoreImp) : gmap Z N * gmap N Header :=
  (headerIndex this, headerCache this).

Definition peerTables (this : LedgerStoreImp) : gmap string Z * gmap string Z :=
  (vbftPeerInfoheader this, vbftPeerInfoblock this).

(** Every event of a list of notifications, in order, and the list each
    event goes to in [extractShardEvents]. *)
Definition allEvents (notify : list ExecuteNotify) : list NotifyEventInfo :=
  flat_map EvtNotify notify.

Definition fromShardContract (n : NotifyEventInfo) : bool :=
  N.eqb (ContractAddress n) ShardMgmtContractAddress
  || N.eqb (ContractAddress n) ShardSysMsgContractAddress.

Definition asShardSysMsg (n : NotifyEventInfo) : option ShardSystemEventMsg :=
  if fromShardContract n then
    match States n with
    | StShardEvent shardEvt => Some {| FromAddress := ContractAddress n; Event := shardEvt |}
    | _ => None
    end
  else None.

Definition asMetaEvent (n : NotifyEventInfo) : option MetaDataEvent :=
  if fromShardContract n then None
  else match States n with StMetaData evt => Some evt | _ => None end.

Definition asContractEvent (n : NotifyEventInfo) : option ContractLifetimeEvent :=
  if fromShardContract n then None
  else match States n with StContractLifetime evt => Some evt | _ => None end.

(** The transactions [executeBlock] runs: the inbound shard transactions,
    group by group in ascending order of shard id, then the block's own. *)
Definition inboundShardTxs (block : Block) : list ShardTx :=
  flat_map (fun id => default [] (ShardTxs block !! id)) (ascendingShardIDs block).

Definition executedTxs (block : Block) : list Transaction :=
  (Tx <$> inboundShardTxs block) ++ Transactions block.

(** A governance event [saveCrossShardGovernanceData] passes over: one of
    another type, or one whose payload (or whose shard state) does not
    decode. *)
Definition shardStateOf (this : LedgerStoreImp) (db : MemDB) (shardID : ShardID)
  : option (ShardConfig * gmap string PeerShardStakeInfo) :=
  let key := shardStateKey shardID in
  let '(data, unknown) := GetRawStorageItemFromMemDb db ShardMgmtContractAddress key in
  if (unknown : bool) then
    match GetStorageItem this ShardMgmtContractAddress key with
    | (Some value, None) => decodeShardState value
    | _ => None
    end
  else
    match GetValueFromRawStorageItem data with
    | (value, None) => decodeShardState value
    | (_, Some _) => None
    end.

Definition passedOver (this : LedgerStoreImp) (db : MemDB) (evt : ShardSystemEventMsg)
  : bool :=
  let shardEvt := Event evt in
  if EventType shardEvt =? EVENT_SHARD_CONFIG_UPDATE then
    bool_decide (decodeConfigShardEvent (EventPayload shardEvt) = None)
  else if EventType shardEvt =? EVENT_SHARD_ACTIVATED then
    match decodeShardActiveEvent (EventPayload shardEvt) with
    | None => true
    | Some shardID =>
        match shardStateOf this db shardID with None => true | Some _ => false end
    end
  else true.

End Queries.

(** ** Opening the ledger store *)

Definition SYSTEM_VERSION : Z := 1.

(** The store methods that only [InitLedgerStoreWithGenesisBlock] uses
    (interfaces only, as for [Services]); [keypair.SortPublicKeys]. *)
Class BootServices `{PK : Packages} := {
  bs_GetVersion : BlockStore -> Z * option error;
  bs_SaveVersion : BlockStore -> Z -> BlockStore * option error;
  bs_ClearAll : BlockStore -> BlockStore * option error;
  bs_ContainBlock : BlockStore -> Uint256 -> bool * option error;
  ss_ClearAll : StateStore -> StateStore * option error;
  ss_SaveBookkeeperState :
    StateStore -> list PublicKey -> list PublicKey -> StateStore * option error;
  ss_CheckStorage : StateStore -> StateStore * option error;
  es_ClearAll : EventStore -> EventStore * option error;
  SortPublicKeys : list PublicKey -> list PublicKey
}.

Section Boot.
Context `{SV : Services} `{BT : !BootServices}.

Definition hasAlreadyInitGenesisBlock (this : LedgerStoreImp) : Result bool :=
  let '(version, err) := bs_GetVersion (blockStore this) in
  match exceptNotFound err with
  | Some e => Fail (Wrapf "GetVersion error %s" e)
  | None => Ok (version =? SYSTEM_VERSION)
  end.

Definition initGenesisBlock : M (option error) :=
  onBlockStore (fun s => bs_SaveVersion s SYSTEM_VERSION).

(** The chain configuration in force at the current block: the one its
    header carries, or else the one carried by the header of the block
    its consensus payload points back to. *)
Definition currentChainConfig : M ChainConfig :=
  this <- getLedger ;;
  match GetHeaderByHash this (currBlockHash this) with
  | (_, Some err) => fail err
  | (None, None) => abort "nil pointer dereference"
  | (Some header, None) =>
      blkInfo <- liftResult (VbftBlock header) ;;
      match NewChainConfig blkInfo with
      | Some cfg => ret cfg
      | None =>
          match GetHeaderByHeight this (LastConfigBlockNum blkInfo) with
          | (_, Some err) => fail err
          | (None, None) => abort "nil pointer dereference"
          | (Some cfgHeader, None) =>
              Info <- liftResult (VbftBlock cfgHeader) ;;
              match NewChainConfig Info with
              | None => fail (Errorf "getNewChainConfig error block num:%d")
              | Some cfg => ret cfg
              end
          end
      end
  end.

(** [InitLedgerStoreWithGenesisBlock]: the first operation after
    [NewLedgerStore].  A store without the version record is cleared and
    given the genesis block; a store with it is loaded and recovered. *)
Definition InitLedgerStoreWithGenesisBlock (rt : GoRuntime) (genesisBlock : Block)
    (defaultBookkeeper : list PublicKey) : M unit :=
  this <- getLedger ;;
  hasInit <- try (liftResult (hasAlreadyInitGenesisBlock this))
                 (Wrapf "hasAlreadyInit error %s") ;;
  (if negb hasInit then
     err <- onBlockStore bs_ClearAll ;;
     check err (Wrapf "blockStore.ClearAll error %s") ;;;
     err <- onStateStore ss_ClearAll ;;
     check err (Wrapf "stateStore.ClearAll error %s") ;;;
     err <- onEventStore es_ClearAll ;;
     check err (Wrapf "eventStore.ClearAll error %s") ;;;
     let defaultBookkeeper := SortPublicKeys defaultBookkeeper in
     err <- onStateStore (fun s =>
              ss_SaveBookkeeperState s defaultBookkeeper defaultBookkeeper) ;;
     check err (Wrapf "SaveBookkeeperState error %s") ;;;
     r <- executeBlock rt genesisBlock ;;
     let '(result, err) := r in
     check err id ;;;
     try (submitBlock genesisBlock result) (Wrapf "save genesis block error %s") ;;;
     err <- initGenesisBlock ;;
     check err (Wrapf "init error %s")
   else
     try (init rt) (Wrapf "init error %s") ;;;
     this <- getLedger ;;
     if currBlockHeight this =? 0 then
       let genesisHash := Block_Hash genesisBlock in
       let '(exist', err) := bs_ContainBlock (blockStore this) genesisHash in
       check err (Wrapf "HashBlockExist error %s") ;;;
       if negb exist' then fail (Errorf "GenesisBlock arenot init correctly, hash %s")
       else ret tt
     else ret tt) ;;;
  (let consensusType := strings_ToLower Genesis_ConsensusType in
   if String.eqb consensusType "vbft" then
     cfg <- currentChainConfig ;;
     modifyLedger (fun this =>
       set_vbftPeerInfoblock (peerInfoOf (Peers cfg) ∅)
         (set_vbftPeerInfoheader (peerInfoOf (Peers cfg) ∅) this))
   else ret tt) ;;;
  err <- onStateStore ss_CheckStorage ;;
  check err id.

(** The two branches of [InitLedgerStoreWithGenesisBlock] and its tail. *)
Definition initFresh (rt : GoRuntime) (genesisBlock : Block)
    (defaultBookkeeper : list PublicKey) : M unit :=
  err <- onBlockStore bs_ClearAll ;;
  check err (Wrapf "blockStore.ClearAll error %s") ;;;
  err <- onStateStore ss_ClearAll ;;
  check err (Wrapf "stateStore.ClearAll error %s") ;;;
  err <- onEventStore es_ClearAll ;;
  check err (Wrapf "eventStore.ClearAll error %s") ;;;
  let defaultBookkeeper := SortPublicKeys defaultBookkeeper in
  err <- onStateStore (fun s =>
           ss_SaveBookkeeperState s defaultBookkeeper defaultBookkeeper) ;;
  check err (Wrapf "SaveBookkeeperState error %s") ;;;
  r <- executeBlock rt genesisBlock ;;
  let '(result, err) := r in
  check err id ;;;
  try (submitBlock genesisBlock result) (Wrapf "save genesis block error %s") ;;;
  err <- initGenesisBlock ;;
  check err (Wrapf "init error %s").

Definition initOpened (rt : GoRuntime) (genesisBlock : Block) : M unit :=
  try (init rt) (Wrapf "init error %s") ;;;
  this <- getLedger ;;
  if currBlockHeight this =? 0 then
    let genesisHash := Block_Hash genesisBlock in
    let '(exist', err) := bs_ContainBlock (blockStore this) genesisHash in
    check err (Wrapf "HashBlockExist error %s") ;;;
    if negb exist' then fail (Errorf "GenesisBlock arenot init correctly, hash %s")
    else ret tt
  else ret tt.

Definition loadPeerInfo : M unit :=
  (let consensusType := strings_ToLower Genesis_ConsensusType in
   if String.eqb consensusType "vbft" then
     cfg <- currentChainConfig ;;
     modifyLedger (fun this =>
       set_vbftPeerInfoblock (peerInfoOf (Peers cfg) ∅)
         (set_vbftPeerInfoheader (peerInfoOf (Peers cfg) ∅) this))
   else ret tt) ;;;
  err <- onStateStore ss_CheckStorage ;;
  check err id.

End Boot.

(** ** An in-memory implementation of the other packages

    The examples and the recovery scenario at the end of the file run on
    the stores, the overlay and the small virtual machine of this
    module. *)

Module Sim.

#[export] Instance messages : Messages := {|
  CommonShardMsg := N;
  ShardEventState := Z * string;
  MetaDataEvent := N;
  ContractLifetimeEvent := N;
  ShardConfig := Z * Z;
  PeerShardStakeInfo := Z * string
|}.

(** Modelled from the spec: the block, state and event stores, which are
    not among the sources.  A store offers atomic batched writes: writes
    go to one pending batch, [CommitTo] makes the batch durable unless the
    disk is failing, and reads see what is durable. *)
Record Batched (D : Type) := {
  durable : D;
  staged : D;
  failing : bool
}.
Arguments durable {D} _.
Arguments staged {D} _.
Arguments failing {D} _.

Definition newBatch {D} (s : Batched D) : Batched D :=
  {| durable := durable s; staged := durable s; failing := failing s |}.

Definition stage {D} (f : D -> D) (s : Batched D) : Batched D :=
  {| durable := durable s; staged := f (staged s); failing := failing s |}.

Definition commitTo {D} (s : Batched D) : Batched D * option error :=
  if failing s then (s, Some (ErrExternal 5))
  else ({| durable := staged s; staged := staged s; failing := false |}, None).

Record BlockData := {
  bCurrent : N * Z;
  bHashes : gmap Z N;
  bBlocks : gmap N Block;
  bIndex : gmap Z N
}.

Record StateData := {
  sCurrent : N * Z;
  sKV : gmap string string;
  sStateRoots : gmap Z N;
  sTxRoots : list N;
  sShardEvents : gmap Z (list ShardSystemEventMsg)
}.

Record EventData := {
  eCurrent : N * Z;
  eByBlock : gmap Z (list N);
  eByTx : gmap N ExecuteNotify;
  eConfigs : list (N * Z * string);
  eHeights : gmap N (list Z);
  eContracts : list N
}.

(** Modelled from the spec: the state overlay, which is not among the
    sources.  It buffers writes over the store without touching it, reads
    its buffer first and the store on a miss, and carries an error
    flag. *)
Record Overlay := {
  ovStore : gmap string string;
  ovMem : gmap string string;
  ovErr : option error
}.

#[export] Instance packages : Packages := {|
  BlockStore := Batched BlockData;
  StateStore := Batched StateData;
  EventStore := Batched EventData;
  OverlayDB := Overlay;
  CacheDB := gmap string string;
  XShardDB := gmap string string;
  MemDB := gmap string string
|}.

Definition toyHash (s : string) : N :=
  fold_left (fun h c => ((h * 31 + N_of_ascii c) mod 1000003)%N) (list_ascii_of_string s) 7%N.

Definition encodeSet (l : list N) : string :=
  string_of_list_ascii (map ascii_of_N (elements (list_to_set l : gset N))).

Definition decodeSet (s : string) : list N :=
  map N_of_ascii (list_ascii_of_string s).

Definition joinKeys (l : list string) : string :=
  fold_right (fun k acc => String.append k (String "," acc)) EmptyString
             (elements (list_to_set l : gset string)).

Definition lockedAddressKey : string := "8".
Definition lockedKeysKey : string := "9".
Definition counterKey : string := String (byte_of ST_STORAGE) "counter".

Definition emptyBlockData : BlockData :=
  {| bCurrent := (0%N, 0); bHashes := ∅; bBlocks := ∅; bIndex := ∅ |}.
Definition emptyStateData : StateData :=
  {| sCurrent := (0%N, 0); sKV := ∅; sStateRoots := ∅; sTxRoots := [];
     sShardEvents := ∅ |}.
Definition emptyEventData : EventData :=
  {| eCurrent := (0%N, 0); eByBlock := ∅; eByTx := ∅; eConfigs := [];
     eHeights := ∅; eContracts := [] |}.

Definition fresh {D} (d : D) : Batched D :=
  {| durable := d; staged := d; failing := false |}.

Definition lookupOr {K V} `{Countable K} (m : gmap K V) (k : K) : option V * option error :=
  match m !! k with
  | Some v => (Some v, None)
  | None => (None, Some ErrNotFound)
  end.

(** The overlay reads its own write set first, then the store. *)
Definition ovGet (ov : Overlay) (k : string) : string :=
  match ovMem ov !! k with
  | Some v => v
  | None => default EmptyString (ovStore ov !! k)
  end.

Definition cacheGet (ca : gmap string string) (ov : Overlay) (k : string) : string :=
  match ca !! k with
  | Some v => v
  | None => ovGet ov k
  end.

Definition writeThrough (buf : gmap string string) (ov : Overlay) : Overlay :=
  {| ovStore := ovStore ov; ovMem := buf ∪ ovMem ov; ovErr := ovErr ov |}.

Definition succeed (ev : ExecuteNotify) : ExecuteNotify :=
  {| TxHash := TxHash ev; State := CONTRACT_STATE_SUCCESS; GasConsumed := 1;
     EvtNotify := EvtNotify ev; SourceTxHash := SourceTxHash ev |}.

Definition invoke (tx : Transaction) (c : ExecCtx) (n : TransactionNotify)
  : (ExecCtx * TransactionNotify) * option error :=
  match Payload tx with
  | InvokeCode code =>
      if String.eqb code "!" then
        ((set_overlay_cache
            {| ovStore := ovStore (overlay c); ovMem := ovMem (overlay c);
               ovErr := Some (ErrExternal 9) |} (cache c) c, n),
         Some (ErrExternal 9))
      else if String.eqb code EmptyString then ((c, n), Some (Errorf "reverted"))
      else
        let v := cacheGet (cache c) (overlay c) counterKey in
        ((set_cache (<[counterKey := String.append v code]> (cache c)) c,
          {| ContractEvent := succeed (ContractEvent n); ShardMsg := ShardMsg n |}), None)
  | _ => ((c, n), Some (Errorf "invalid transaction"))
  end.

(** Modelled from the spec: the methods of the stores, of the overlay, its
    cache and the cross-shard database, and the transaction handlers,
    none of which is among the sources.  [GetCurrentBlock] of a store
    returns what [SaveCurrentBlock] last committed to it; the locked sets
    are persisted as sets; an empty value in the write set stands for a
    deletion.  The virtual machine is a small one: an invocation appends
    its code to the value stored under one key, the code that is a single
    exclamation mark stands for a storage fault and the empty code for a
    transaction that reverts. *)
#[export] Instance services : Services := {|
  Header_Hash := fun h => (Z.to_N (Height h) * 1000 + Z.to_N (Timestamp h) + 1)%N;
  Transaction_Hash := fun tx => (Z.to_N (Nonce tx) + 500)%N;
  sha256_Sum := toyHash;
  Genesis_ConsensusType := "solo";
  CONSENSUS_TYPE_SOLO := "solo";
  Common_EnableEventLog := true;
  DefActorPublisher_present := true;
  PubkeyID := fun k => String (ascii_of_N k) EmptyString;
  VerifyMultiSignature := fun _ bks m sigs =>
    if len sigs <? m then Some (Errorf "not enough signatures") else None;
  VbftBlock := fun _ => Ok {| LastConfigBlockNum := 0; NewChainConfig := None |};
  AddressFromBookkeepers := fun bks => (fold_right N.add 0%N bks, None);
  json_Unmarshal_VbftBlockInfo := fun _ =>
    Ok {| LastConfigBlockNum := 0; NewChainConfig := None |};
  bs_NewBatch := newBatch;
  bs_CommitTo := commitTo;
  bs_SaveCurrentBlock := fun s h hash =>
    (stage (fun d => {| bCurrent := (hash, h); bHashes := bHashes d;
                        bBlocks := bBlocks d; bIndex := bIndex d |}) s, None);
  bs_SaveBlockHash := fun s h hash =>
    stage (fun d => {| bCurrent := bCurrent d; bHashes := <[h := hash]> (bHashes d);
                       bBlocks := bBlocks d; bIndex := bIndex d |}) s;
  bs_SaveBlock := fun s b =>
    (stage (fun d => {| bCurrent := bCurrent d; bHashes := bHashes d;
                        bBlocks := <[(Z.to_N (Height (BlockHeader b)) * 1000
                                      + Z.to_N (Timestamp (BlockHeader b)) + 1)%N := b]>
                                     (bBlocks d);
                        bIndex := bIndex d |}) s, None);
  bs_SaveHeaderIndexList := fun s start l => (s, None);
  bs_GetCurrentBlock := fun s => (bCurrent (durable s), None);
  bs_GetHeaderIndexList := fun s => (bIndex (durable s), None);
  bs_GetBlockHash := fun s h =>
    match bHashes (durable s) !! h with
    | Some x => (x, None)
    | None => (UINT256_EMPTY, Some ErrNotFound)
    end;
  bs_GetBlock := fun s hash => lookupOr (bBlocks (durable s)) hash;
  bs_GetHeader := fun s hash => lookupOr (BlockHeader <$> bBlocks (durable s)) hash;
  ss_NewBatch := newBatch;
  ss_CommitTo := commitTo;
  ss_NewOverlayDB := fun s =>
    {| ovStore := sKV (durable s); ovMem := ∅; ovErr := None |};
  ss_GetCurrentBlock := fun s => (sCurrent (durable s), None);
  ss_SaveCurrentBlock := fun s h hash =>
    (stage (fun d => {| sCurrent := (hash, h); sKV := sKV d;
                        sStateRoots := sStateRoots d; sTxRoots := sTxRoots d;
                        sShardEvents := sShardEvents d |}) s, None);
  ss_GetCurrentLockedAddress := fun s =>
    (decodeSet (default EmptyString (sKV (durable s) !! lockedAddressKey)), None);
  ss_GetCurrentLockedKeys := fun s => ([], None);
  ss_GetStateMerkleRoot := fun s h =>
    match sStateRoots (durable s) !! h with
    | Some x => (x, None)
    | None => (UINT256_EMPTY, Some ErrNotFound)
    end;
  ss_GetStateMerkleRootWithNewHash := fun s hash =>
    (N.of_nat (size (sStateRoots (durable s))) * 1000003 + hash)%N;
  ss_GetBlockRootWithNewTxRoots := fun s roots =>
    fold_right N.add 0%N (sTxRoots (durable s) ++ roots);
  ss_AddStateMerkleTreeRoot := fun s h hash =>
    (stage (fun d => {| sCurrent := sCurrent d; sKV := sKV d;
                        sStateRoots := <[h := hash]> (sStateRoots d);
                        sTxRoots := sTxRoots d; sShardEvents := sShardEvents d |}) s, None);
  ss_AddBlockMerkleTreeRoot := fun s root =>
    (stage (fun d => {| sCurrent := sCurrent d; sKV := sKV d;
                        sStateRoots := sStateRoots d; sTxRoots := sTxRoots d ++ [root];
                        sShardEvents := sShardEvents d |}) s, None);
  ss_AddBlockShardEvents := fun s h evts =>
    stage (fun d => {| sCurrent := sCurrent d; sKV := sKV d;
                       sStateRoots := sStateRoots d; sTxRoots := sTxRoots d;
                       sShardEvents := <[h := evts]> (sShardEvents d) |}) s;
  ss_BatchPutRawKeyVal := fun s k v =>
    stage (fun d => {| sCurrent := sCurrent d; sKV := <[k := v]> (sKV d);
                       sStateRoots := sStateRoots d; sTxRoots := sTxRoots d;
                       sShardEvents := sShardEvents d |}) s;
  ss_BatchDeleteRawKey := fun s k =>
    stage (fun d => {| sCurrent := sCurrent d; sKV := delete k (sKV d);
                       sStateRoots := sStateRoots d; sTxRoots := sTxRoots d;
                       sShardEvents := sShardEvents d |}) s;
  ss_GetStorageState := fun s addr key => lookupOr (sKV (durable s)) key;
  es_NewBatch := newBatch;
  es_CommitTo := commitTo;
  es_SaveCurrentBlock := fun s h hash =>
    (stage (fun d => {| eCurrent := (hash, h); eByBlock := eByBlock d; eByTx := eByTx d;
                        eConfigs := eConfigs d; eHeights := eHeights d;
                        eContracts := eContracts d |}) s, None);
  es_SaveEventNotifyByTx := fun s txHash notify =>
    (stage (fun d => {| eCurrent := eCurrent d; eByBlock := eByBlock d;
                        eByTx := <[txHash := notify]> (eByTx d);
                        eConfigs := eConfigs d; eHeights := eHeights d;
                        eContracts := eContracts d |}) s, None);
  es_SaveEventNotifyByBlock := fun s h txs =>
    (stage (fun d => {| eCurrent := eCurrent d; eByBlock := <[h := txs]> (eByBlock d);
                        eByTx := eByTx d; eConfigs := eConfigs d; eHeights := eHeights d;
                        eContracts := eContracts d |}) s, None);
  es_AddShardConsensusConfig := fun s shard h data =>
    (stage (fun d => {| eCurrent := eCurrent d; eByBlock := eByBlock d; eByTx := eByTx d;
                        eConfigs := eConfigs d ++ [(shard, h, data)];
                        eHeights := eHeights d; eContracts := eContracts d |}) s, None);
  es_GetShardConsensusHeight := fun s shard =>
    match eHeights (durable s) !! shard with
    | Some l => (l, None)
    | None => ([], Some ErrNotFound)
    end;
  es_AddShardConsensusHeight := fun s shard heights =>
    stage (fun d => {| eCurrent := eCurrent d; eByBlock := eByBlock d; eByTx := eByTx d;
                       eConfigs := eConfigs d; eHeights := <[shard := heights]> (eHeights d);
                       eContracts := eContracts d |}) s;
  es_SaveContractMetaDataEvent := fun s evt => (s, None);
  es_SaveContractEvent := fun s evt =>
    (stage (fun d => {| eCurrent := eCurrent d; eByBlock := eByBlock d; eByTx := eByTx d;
                        eConfigs := eConfigs d; eHeights := eHeights d;
                        eContracts := eContracts d ++ [evt] |}) s, None);
  MemDB_ForEach := fun m => map_to_list m;
  overlay_Error := ovErr;
  overlay_ChangeHash := fun ov =>
    toyHash (fold_right (fun kv acc => String.append (fst kv) (String.append (snd kv) acc))
                        EmptyString (map_to_list (ovMem ov)));
  overlay_GetWriteSet := ovMem;
  overlay_NewIterator := fun ov p =>
    {| iterItems := filter (fun kv => String.prefix p (fst kv) = true)
                           (map_to_list (ovMem ov ∪ ovStore ov));
       iterError := ovErr ov |};
  NewCacheDB := fun _ => ∅;
  cache_Reset := fun _ => ∅;
  cache_Commit := fun ca ov => (∅, writeThrough ca ov);
  NewXShardDB := fun _ => ∅;
  xshard_SetXShardMsgInBlock := fun db h msgs => db;
  xshard_SetLockedAddress := fun db addrs => <[lockedAddressKey := encodeSet addrs]> db;
  xshard_SetLockedKeys := fun db keys => <[lockedKeysKey := joinKeys keys]> db;
  xshard_Commit := fun db ov => (∅, writeThrough db ov);
  refreshGlobalParam := fun _ _ _ g => (g, None);
  HandleDeployTransaction := fun _ _ tx _ ov ca ev =>
    match Payload tx with
    | DeployCode code =>
        ((ov, <[String (byte_of ST_CONTRACT) code := code]> ca, succeed ev), None)
    | _ => ((ov, ca, ev), Some (Errorf "invalid transaction"))
    end;
  HandleChangeMetadataTransaction := fun _ _ tx _ ov ca ev => ((ov, ca, succeed ev), None);
  HandleInvokeTransaction := fun _ _ tx _ c n => invoke tx c n;
  HandleShardCallTransaction := fun _ _ msgs _ c n =>
    ((c, {| ContractEvent := succeed (ContractEvent n); ShardMsg := ShardMsg n ++ msgs |}),
     None);
  ShardMgmtContractAddress := 6%N;
  ShardSysMsgContractAddress := 8%N;
  EVENT_SHARD_CONFIG_UPDATE := 1;
  EVENT_SHARD_ACTIVATED := 2;
  EventType := fst;
  EventPayload := snd;
  decodeConfigShardEvent := fun _ => None;
  decodeShardActiveEvent := fun _ => None;
  decodeShardState := fun _ => None;
  shardStateKey := fun id => String (ascii_of_N id) EmptyString;
  GetRawStorageItemFromMemDb := fun db addr key =>
    match db !! key with
    | Some v => (v, false)
    | None => (EmptyString, true)
    end;
  GetValueFromRawStorageItem := fun data => (data, None);
  serializeConfigShardEvent := fun h cfg peers => EmptyString;
  mkVbftShardConfig := fun n c => (n, c);
  mkConsensusPeer := fun index id => (index, id)
|}.

(** The runtime that enumerates maps in their stored order, and the one
    that enumerates them backwards. *)
Program Definition forwards : GoRuntime :=
  {| rangeShardTxs := id; rangeLockedAddress := id; rangeLockedKeys := id |}.
Solve Obligations with (intros; reflexivity).

Program Definition backwards : GoRuntime :=
  {| rangeShardTxs := reverse; rangeLockedAddress := reverse; rangeLockedKeys := reverse |}.
Solve Obligations with (intros; apply reverse_Permutation).

End Sim.

(** ** A crash between two commits

    A ledger with a genesis block and two blocks, each invoking the
    contract once.  In the interrupted run the state store fails to commit
    the second block: the block store and the event store hold it, the
    state store does not.  The process then starts again on the same
    disks and runs [init]. *)

Module Scenario.
Import Sim.

Definition mkHeader (height : Z) (prev : N) (time : Z) (txRoot blockRoot : N) : Header :=
  {| Version := 0; HeaderShardID := 0%N; Height := height; ParentHeight := 0;
     PrevBlockHash := prev; TransactionsRoot := txRoot; BlockRoot := blockRoot;
     Timestamp := time; ConsensusData := 0; ConsensusPayload := EmptyString;
     NextBookkeeper := 0%N; Bookkeepers := []; SigData := [] |}.

Definition invokeTx (nonce : Z) (code : string) : Transaction :=
  {| TxShardID := 0%N; Nonce := nonce; Payload := InvokeCode code |}.

Definition genesis : Block :=
  {| BlockHeader := mkHeader 0 0%N 0 0%N 0%N; Transactions := []; ShardTxs := ∅ |}.

Definition block1 : Block :=
  {| BlockHeader := mkHeader 1 1%N 10 7%N 7%N;
     Transactions := [invokeTx 1 "a"]; ShardTxs := ∅ |}.

Definition block2 : Block :=
  {| BlockHeader := mkHeader 2 1011%N 20 9%N 16%N;
     Transactions := [invokeTx 2 "b"]; ShardTxs := ∅ |}.

Definition newLedger : LedgerStoreImp :=
  {| blockStore := fresh emptyBlockData; stateStore := fresh emptyStateData;
     eventStore := fresh emptyEventData;
     storedIndexCount := 0; currBlockHeight := 0; currBlockHash := UINT256_EMPTY;
     headerCache := ∅; headerIndex := ∅;
     vbftPeerInfoheader := ∅; vbftPeerInfoblock := ∅;
     stateHashCheckHeight := 0 |}.

Definition newWorld : World := {| ledger := newLedger; GAS_TABLE := ∅; trace := [] |}.

(** The state store's disk fails (or not) from now on. *)
Definition stateDisk (fails : bool) (w : World) : World :=
  {| ledger := set_stateStore
                 {| durable := durable (stateStore (ledger w));
                    staged := staged (stateStore (ledger w)); failing := fails |}
                 (ledger w);
     GAS_TABLE := GAS_TABLE w; trace := trace w |}.

(** A new process on the same disks: what was committed is there, batches
    and everything held in memory are gone. *)
Definition restart (w : World) : World :=
  {| ledger :=
       {| blockStore := fresh (durable (blockStore (ledger w)));
          stateStore := fresh (durable (stateStore (ledger w)));
          eventStore := fresh (durable (eventStore (ledger w)));
          storedIndexCount := 0; currBlockHeight := 0; currBlockHash := UINT256_EMPTY;
          headerCache := ∅; headerIndex := ∅;
          vbftPeerInfoheader := ∅; vbftPeerInfoblock := ∅;
          stateHashCheckHeight := stateHashCheckHeight (ledger w) |};
     GAS_TABLE := ∅; trace := [] |}.

Definition afterGenesis : World := exec (saveGenesis forwards genesis) newWorld.

Definition afterBlock1 : World := exec (genBlock forwards block1) afterGenesis.

Definition uninterrupted : World := exec (genBlock forwards block2) afterBlock1.

Definition crashed : World := exec (genBlock forwards block2) (stateDisk true afterBlock1).

Definition recovered : World := exec (init forwards) (restart crashed).

(** What a store holds durably. *)
Definition stateOnDisk (w : World) : StateData := durable (stateStore (ledger w)).
Definition eventsOnDisk (w : World) : EventData := durable (eventStore (ledger w)).
Definition blocksOnDisk (w : World) : BlockData := durable (blockStore (ledger w)).

Definition executedHeights (t : list Effect) : list Z :=
  flat_map (fun ev => match ev with EvExecuteBlock h => [h] | _ => [] end) t.

(** Further inputs for the examples: a block with two groups of inbound
    shard calls, a second block whose timestamp is not later than its
    predecessor's, a genesis block with a block root nobody computed, a
    transaction that hits a storage fault and one that reverts. *)
Definition shardCallTx (nonce : Z) (msgs : list N) : Transaction :=
  {| TxShardID := 0%N; Nonce := nonce; Payload := ShardCallPayload msgs |}.

Definition xblock : Block :=
  {| BlockHeader := mkHeader 1 1%N 10 7%N 7%N;
     Transactions := [invokeTx 1 "a"];
     ShardTxs := {[ 2%N := [{| Tx := shardCallTx 5 [1%N]; ShardTxSource := 2%N |}];
                    1%N := [{| Tx := shardCallTx 6 [2%N]; ShardTxSource := 1%N |};
                            {| Tx := shardCallTx 7 [3%N]; ShardTxSource := 1%N |}] ]} |}.

Definition staleBlock2 : Block :=
  {| BlockHeader := mkHeader 2 1011%N 5 9%N 16%N;
     Transactions := [invokeTx 2 "b"]; ShardTxs := ∅ |}.

Definition genesisOddRoot : Block :=
  {| BlockHeader := mkHeader 0 0%N 0 0%N 999%N; Transactions := []; ShardTxs := ∅ |}.

Definition faultTx : Transaction := invokeTx 3 "!".
Definition revertTx : Transaction := invokeTx 4 EmptyString.

Definition startState (w : World) : ExecState :=
  let ov := ss_NewOverlayDB (stateStore (ledger w)) in
  {| ctx := {| overlay := ov; cache := NewCacheDB ov; xshardDB := NewXShardDB ov;
               lockedAddress := ∅; lockedKeys := ∅ |};
     result := emptyResult; shardNotify := [] |}.

(** What the transactions of [block2] leave, and the result of executing
    it, on top of [block1]. *)
Definition ranBlock2 : ExecState :=
  match outcome (executeBlock_run forwards block2) afterBlock1 with
  | Ok (es, _) => es
  | _ => startState afterBlock1
  end.

Definition result2 : ExecuteResult :=
  match outcome (ExecuteBlock forwards block2) afterBlock1 with
  | Ok (r, _) => r
  | _ => emptyResult
  end.

End Scenario.

(** ** Further inputs: the vbft consensus, header batches, start-up *)

Module Vbft.
Import Sim Scenario.

(** The chain configuration a header announces: three peers, two of them
    under one identifier. *)
Definition chainConfig : ChainConfig :=
  {| cfgN := 3; cfgC := 0;
     Peers := [ {| Index := 1; ID := "A" |}; {| Index := 2; ID := "B" |};
                {| Index := 3; ID := "A" |} ] |}.

Definition decodeBlockInfo (payload : string) : Result VbftBlockInfo :=
  if String.eqb payload "cfg" then
    Ok {| LastConfigBlockNum := 0; NewChainConfig := Some chainConfig |}
  else Ok {| LastConfigBlockNum := 0; NewChainConfig := None |}.

Definition vbftBlock (header : Header) : Result VbftBlockInfo :=
  decodeBlockInfo (ConsensusPayload header).

Definition decodeConfig (payload : string)
  : option (Z * N * (Z * Z) * gmap string (Z * string)) :=
  if String.eqb payload EmptyString then None else Some (7, 3%N, (1, 1), ∅).

Definition decodeActive (payload : string) : option N :=
  if String.eqb payload EmptyString then None else Some 3%N.

Definition decodeState (value : string) : option ((Z * Z) * gmap string (Z * string)) :=
  if String.eqb value EmptyString then None else Some ((1, 1), ∅).

(** Modelled from the spec: the in-memory implementation again, configured
    for the vbft consensus.  The consensus payload of a header either
    announces [chainConfig] or nothing, and a governance payload decodes
    unless it is empty. *)
Definition services : Services := {|
  Header_Hash := @Header_Hash _ _ Sim.services;
  Transaction_Hash := @Transaction_Hash _ _ Sim.services;
  sha256_Sum := @sha256_Sum _ _ Sim.services;
  Genesis_ConsensusType := "VBFT";
  CONSENSUS_TYPE_SOLO := @CONSENSUS_TYPE_SOLO _ _ Sim.services;
  Common_EnableEventLog := @Common_EnableEventLog _ _ Sim.services;
  DefActorPublisher_present := @DefActorPublisher_present _ _ Sim.services;
  PubkeyID := @PubkeyID _ _ Sim.services;
  VerifyMultiSignature := @VerifyMultiSignature _ _ Sim.services;
  VbftBlock := vbftBlock;
  AddressFromBookkeepers := @AddressFromBookkeepers _ _ Sim.services;
  json_Unmarshal_VbftBlockInfo := decodeBlockInfo;
  bs_NewBatch := @bs_NewBatch _ _ Sim.services;
  bs_CommitTo := @bs_CommitTo _ _ Sim.services;
  bs_SaveCurrentBlock := @bs_SaveCurrentBlock _ _ Sim.services;
  bs_SaveBlockHash := @bs_SaveBlockHash _ _ Sim.services;
  bs_SaveBlock := @bs_SaveBlock _ _ Sim.services;
  bs_SaveHeaderIndexList := @bs_SaveHeaderIndexList _ _ Sim.services;
  bs_GetCurrentBlock := @bs_GetCurrentBlock _ _ Sim.services;
  bs_GetHeaderIndexList := @bs_GetHeaderIndexList _ _ Sim.services;
  bs_GetBlockHash := @bs_GetBlockHash _ _ Sim.services;
  bs_GetBlock := @bs_GetBlock _ _ Sim.services;
  bs_GetHeader := @bs_GetHeader _ _ Sim.services;
  ss_NewBatch := @ss_NewBatch _ _ Sim.services;
  ss_CommitTo := @ss_CommitTo _ _ Sim.services;
  ss_NewOverlayDB := @ss_NewOverlayDB _ _ Sim.services;
  ss_GetCurrentBlock := @ss_GetCurrentBlock _ _ Sim.services;
  ss_SaveCurrentBlock := @ss_SaveCurrentBlock _ _ Sim.services;
  ss_GetCurrentLockedAddress := @ss_GetCurrentLockedAddress _ _ Sim.services;
  ss_GetCurrentLockedKeys := @ss_GetCurrentLockedKeys _ _ Sim.services;
  ss_GetStateMerkleRoot := @ss_GetStateMerkleRoot _ _ Sim.services;
  ss_GetStateMerkleRootWithNewHash := @ss_GetStateMerkleRootWithNewHash _ _ Sim.services;
  ss_GetBlockRootWithNewTxRoots := @ss_GetBlockRootWithNewTxRoots _ _ Sim.services;
  ss_AddStateMerkleTreeRoot := @ss_AddStateMerkleTreeRoot _ _ Sim.services;
  ss_AddBlockMerkleTreeRoot := @ss_AddBlockMerkleTreeRoot _ _ Sim.services;
  ss_AddBlockShardEvents := @ss_AddBlockShardEvents _ _ Sim.services;
  ss_BatchPutRawKeyVal := @ss_BatchPutRawKeyVal _ _ Sim.services;
  ss_BatchDeleteRawKey := @ss_BatchDeleteRawKey _ _ Sim.services;
  ss_GetStorageState := @ss_GetStorageState _ _ Sim.services;
  es_NewBatch := @es_NewBatch _ _ Sim.services;
  es_CommitTo := @es_CommitTo _ _ Sim.services;
  es_SaveCurrentBlock := @es_SaveCurrentBlock _ _ Sim.services;
  es_SaveEventNotifyByTx := @es_SaveEventNotifyByTx _ _ Sim.services;
  es_SaveEventNotifyByBlock := @es_SaveEventNotifyByBlock _ _ Sim.services;
  es_AddShardConsensusConfig := @es_AddShardConsensusConfig _ _ Sim.services;
  es_GetShardConsensusHeight := @es_GetShardConsensusHeight _ _ Sim.services;
  es_AddShardConsensusHeight := @es_AddShardConsensusHeight _ _ Sim.services;
  es_SaveContractMetaDataEvent := @es_SaveContractMetaDataEvent _ _ Sim.services;
  es_SaveContractEvent := @es_SaveContractEvent _ _ Sim.services;
  MemDB_ForEach := @MemDB_ForEach _ _ Sim.services;
  overlay_Error := @overlay_Error _ _ Sim.services;
  overlay_ChangeHash := @overlay_ChangeHash _ _ Sim.services;
  overlay_GetWriteSet := @overlay_GetWriteSet _ _ Sim.services;
  overlay_NewIterator := @overlay_NewIterator _ _ Sim.services;
  NewCacheDB := @NewCacheDB _ _ Sim.services;
  cache_Reset := @cache_Reset _ _ Sim.services;
  cache_Commit := @cache_Commit _ _ Sim.services;
  NewXShardDB := @NewXShardDB _ _ Sim.services;
  xshard_SetXShardMsgInBlock := @xshard_SetXShardMsgInBlock _ _ Sim.services;
  xshard_SetLockedAddress := @xshard_SetLockedAddress _ _ Sim.services;
  xshard_SetLockedKeys := @xshard_SetLockedKeys _ _ Sim.services;
  xshard_Commit := @xshard_Commit _ _ Sim.services;
  refreshGlobalParam := @refreshGlobalParam _ _ Sim.services;
  HandleDeployTransaction := @HandleDeployTransaction _ _ Sim.services;
  HandleChangeMetadataTransaction := @HandleChangeMetadataTransaction _ _ Sim.services;
  HandleInvokeTransaction := @HandleInvokeTransaction _ _ Sim.services;
  HandleShardCallTransaction := @HandleShardCallTransaction _ _ Sim.services;
  ShardMgmtContractAddress := @ShardMgmtContractAddress _ _ Sim.services;
  ShardSysMsgContractAddress := @ShardSysMsgContractAddress _ _ Sim.services;
  EVENT_SHARD_CONFIG_UPDATE := @EVENT_SHARD_CONFIG_UPDATE _ _ Sim.services;
  EVENT_SHARD_ACTIVATED := @EVENT_SHARD_ACTIVATED _ _ Sim.services;
  EventType := @EventType _ _ Sim.services;
  EventPayload := @EventPayload _ _ Sim.services;
  decodeConfigShardEvent := decodeConfig;
  decodeShardActiveEvent := decodeActive;
  decodeShardState := decodeState;
  shardStateKey := @shardStateKey _ _ Sim.services;
  GetRawStorageItemFromMemDb := @GetRawStorageItemFromMemDb _ _ Sim.services;
  GetValueFromRawStorageItem := @GetValueFromRawStorageItem _ _ Sim.services;
  serializeConfigShardEvent := @serializeConfigShardEvent _ _ Sim.services;
  mkVbftShardConfig := @mkVbftShardConfig _ _ Sim.services;
  mkConsensusPeer := @mkConsensusPeer _ _ Sim.services|}.

(** Governance events: of an unknown type, a configuration update that
    does not decode, a shard activation, configuration updates that
    decode. *)
Definition govEvent (type : Z) (payload : string) : ShardSystemEventMsg :=
  {| FromAddress := 8%N; Event := (type, payload) |}.

Definition otherEvent : ShardSystemEventMsg := govEvent 3 "y".
Definition brokenUpdate : ShardSystemEventMsg := govEvent 1 EmptyString.
Definition activation : ShardSystemEventMsg := govEvent 2 "go".
Definition update1 : ShardSystemEventMsg := govEvent 1 "x".
Definition update2 : ShardSystemEventMsg := govEvent 1 "z".

(** A header of height 1 on top of [genesis], signed by the peer "A",
    that announces [chainConfig]. *)
Definition configHeader : Header :=
  {| Version := 0; HeaderShardID := 0%N; Height := 1; ParentHeight := 0;
     PrevBlockHash := 1%N; TransactionsRoot := 7%N; BlockRoot := 7%N;
     Timestamp := 10; ConsensusData := 0; ConsensusPayload := "cfg";
     NextBookkeeper := 0%N; Bookkeepers := [65%N]; SigData := ["s"] |}.

Definition onePeer : gmap string Z := {[ "A" := 0 ]}.

End Vbft.

Module Inputs.
Import Sim Scenario.

(** [sort.Slice] as a merge sort on the heights. *)
Definition notAbove (a b : Header) : Prop := Height a <= Height b.

#[local] Instance notAbove_dec (a b : Header) : Decision (notAbove a b) :=
  Z.le_dec (Height a) (Height b).

Program Definition byHeight : GoSort := {| sortByHeight := merge_sort notAbove |}.
Solve Obligations with
  (intros l; first
     [ apply merge_sort_Permutation
     | apply (@StronglySorted_merge_sort _ notAbove _
                ltac:(intros a b c; unfold notAbove; lia)
                ltac:(intros a b; unfold notAbove; lia)) ]).

(** The header of [block2] with four bookkeepers and three signatures. *)
Definition signedHeader2 : Header :=
  {| Version := 0; HeaderShardID := 0%N; Height := 2; ParentHeight := 0;
     PrevBlockHash := 1011%N; TransactionsRoot := 9%N; BlockRoot := 16%N;
     Timestamp := 20; ConsensusData := 0; ConsensusPayload := EmptyString;
     NextBookkeeper := 0%N; Bookkeepers := [0%N; 0%N; 0%N; 0%N];
     SigData := ["s"; "s"; "s"] |}.

Definition header2 : Header := BlockHeader block2.
Definition header3 : Header := mkHeader 3 2021%N 30 0%N 0%N.
Definition header5 : Header := mkHeader 5 2021%N 30 0%N 0%N.

(** [block2] with a block root the ledger does not compute. *)
Definition block2OddRoot : Block :=
  {| BlockHeader := mkHeader 2 1011%N 20 9%N 999%N;
     Transactions := [invokeTx 2 "b"]; ShardTxs := ∅ |}.

(** A ledger store whose current block is 2000 heights ahead of the
    stored header index. *)
Definition farAhead : World :=
  {| ledger := set_currBlock 2000 5%N newLedger; GAS_TABLE := ∅; trace := [] |}.

(** A new process on the disks of the uninterrupted run, before and after
    it has loaded the current block. *)
Definition reopened : World := restart uninterrupted.
Definition reopenedAt2 : World := exec loadCurrentBlock reopened.

(** Modelled from the spec: the start-up methods of the stores, which are
    not among the sources.  The version record is not part of the block
    data here: the block store reports the version it is constructed
    with.  [ClearAll] empties a store, [ContainBlock] looks the hash up
    among the blocks saved, and [CheckStorage] finds nothing to fix. *)
Definition boot (version : Z * option error) : BootServices := {|
  bs_GetVersion := fun _ => version;
  bs_SaveVersion := fun s _ => (s, None);
  bs_ClearAll := fun _ => (fresh emptyBlockData, None);
  bs_ContainBlock := fun s blockHash =>
    (bool_decide (is_Some (bBlocks (durable s) !! blockHash)), None);
  ss_ClearAll := fun _ => (fresh emptyStateData, None);
  ss_SaveBookkeeperState := fun s _ _ => (s, None);
  ss_CheckStorage := fun s => (s, None);
  es_ClearAll := fun _ => (fresh emptyEventData, None);
  SortPublicKeys := merge_sort N.le
|}.

(** A store that has no version record yet, and one that has it. *)
Definition unversioned : BootServices := boot (0, Some ErrNotFound).
Definition versioned : BootServices := boot (SYSTEM_VERSION, None).

(** A genesis block other than [genesis], and one whose header announces
    [Vbft.chainConfig]. *)
Definition otherGenesis : Block :=
  {| BlockHeader := mkHeader 0 0%N 5 0%N 0%N; Transactions := []; ShardTxs := ∅ |}.

Definition vbftGenesis : Block :=
  {| BlockHeader :=
       {| Version := 0; HeaderShardID := 0%N; Height := 0; ParentHeight := 0;
          PrevBlockHash := 0%N; TransactionsRoot := 0%N; BlockRoot := 0%N;
          Timestamp := 0; ConsensusData := 0; ConsensusPayload := "cfg";
          NextBookkeeper := 0%N; Bookkeepers := []; SigData := [] |};
     Transactions := []; ShardTxs := ∅ |}.

End Inputs.

(** * Properties *)

Section Properties.
Context `{SV : Services}.

(** ** Arithmetic and record facts *)

Lemma u32_id (x : Z) : isU32 x -> u32 x = x.
Proof.
  unfold isU32, MaxUint32, u32. intros Hx.
  apply Z.mod_small. lia.
Qed.

Lemma u32_succ_above (H h : Z) : isU32 H -> isU32 h -> H < h -> u32 (H + 1) = H + 1.
Proof.
  unfold isU32, MaxUint32. intros HH Hh Hlt.
  apply u32_id. unfold isU32, MaxUint32. lia.
Qed.

Lemma world_eta (w : World) :
  {| ledger := ledger w; GAS_TABLE := GAS_TABLE w; trace := trace w |} = w.
Proof. destruct w; reflexivity. Qed.

Lemma set_vbftPeerInfoblock_same (l : LedgerStoreImp) :
  set_vbftPeerInfoblock (vbftPeerInfoblock l) l = l.
Proof. destruct l; reflexivity. Qed.

Lemma set_vbftPeerInfoheader_same (l : LedgerStoreImp) :
  set_vbftPeerInfoheader (vbftPeerInfoheader l) l = l.
Proof. destruct l; reflexivity. Qed.

Lemma modifyLedger_same (f : LedgerStoreImp -> LedgerStoreImp) (w : World) :
  f (ledger w) = ledger w -> modifyLedger f w = (w, Ok tt).
Proof.
  intros Hf. unfold modifyLedger. rewrite Hf, world_eta. reflexivity.
Qed.

(** ** The monad *)

Lemma bind_assoc {A B C} (c : M A) (f : A -> M B) (g : B -> M C) (w : World) :
  bind (bind c f) g w = bind c (fun a => bind (f a) g) w.
Proof.
  unfold bind. destruct (c w) as [w1 [a | e | s]]; reflexivity.
Qed.

Lemma bind_ext {A B} (c : M A) (f g : A -> M B) (w : World) :
  (forall a w1, f a w1 = g a w1) -> bind c f w = bind c g w.
Proof.
  intros Hfg. unfold bind. destruct (c w) as [w1 [a | e | s]]; auto.
Qed.

(** ** The height gate of [SubmitBlock] *)

Lemma SubmitBlock_replay (block : Block) (result : ExecuteResult) (w : World) :
  Height (BlockHeader block) <= currBlockHeight (ledger w) ->
  SubmitBlock block result w = (w, Ok tt).
Proof.
  intros Hle. unfold SubmitBlock, bind, getLedger, GetCurrentBlockHeight, ret.
  destruct (Z.leb_spec (Height (BlockHeader block)) (currBlockHeight (ledger w)));
    [reflexivity | lia].
Qed.

Lemma SubmitBlock_gap (block : Block) (result : ExecuteResult) (w : World) :
  currBlockHeight (ledger w) < Height (BlockHeader block) ->
  Height (BlockHeader block) <> u32 (currBlockHeight (ledger w) + 1) ->
  SubmitBlock block result w =
  (w, Fail (Errorf "block height %d not equal next block height %d")).
Proof.
  intros Hlt Hne. unfold SubmitBlock, bind, getLedger, GetCurrentBlockHeight, fail.
  destruct (Z.leb_spec (Height (BlockHeader block)) (currBlockHeight (ledger w)));
    [lia |].
  destruct (Z.eqb_spec (Height (BlockHeader block)) (u32 (currBlockHeight (ledger w) + 1)));
    [contradiction | reflexivity].
Qed.

Lemma SubmitBlock_next (block : Block) (result : ExecuteResult) (w : World) :
  currBlockHeight (ledger w) < Height (BlockHeader block) ->
  Height (BlockHeader block) = u32 (currBlockHeight (ledger w) + 1) ->
  SubmitBlock block result w = SubmitBlock_proceed block result w.
Proof.
  intros Hlt Heq. unfold SubmitBlock, SubmitBlock_proceed, bind, getLedger,
    GetCurrentBlockHeight.
  destruct (Z.leb_spec (Height (BlockHeader block)) (currBlockHeight (ledger w)));
    [lia |].
  destruct (Z.eqb_spec (Height (BlockHeader block)) (u32 (currBlockHeight (ledger w) + 1)));
    [reflexivity | contradiction].
Qed.

(** C2.  [SubmitBlock] orders blocks strictly by height.  With [H] the
    current height and [h] the height of the submitted block: when
    [h <= H] the call returns nil and changes nothing; when [h] is neither
    [<= H] nor [H + 1] it returns an error and changes nothing; any call
    that changes anything has [h = H + 1], and such a call goes on to
    header verification and the commit. *)
Theorem C2_SubmitBlock_height_order (block : Block) (result : ExecuteResult) (w : World) :
  isU32 (currBlockHeight (ledger w)) ->
  isU32 (Height (BlockHeader block)) ->
  (Height (BlockHeader block) <= currBlockHeight (ledger w) ->
     SubmitBlock block result w = (w, Ok tt)) /\
  (currBlockHeight (ledger w) < Height (BlockHeader block) ->
   Height (BlockHeader block) <> currBlockHeight (ledger w) + 1 ->
     exists e, SubmitBlock block result w = (w, Fail e)) /\
  (exec (SubmitBlock block result) w <> w ->
     Height (BlockHeader block) = currBlockHeight (ledger w) + 1) /\
  (Height (BlockHeader block) = currBlockHeight (ledger w) + 1 ->
     SubmitBlock block result w = SubmitBlock_proceed block result w).
Proof.
  intros HH Hh. repeat split.
  - apply SubmitBlock_replay.
  - intros Hlt Hne. eexists. apply SubmitBlock_gap; [exact Hlt |].
    rewrite (u32_succ_above _ _ HH Hh Hlt). exact Hne.
  - intros Hchg.
    destruct (Z.le_gt_cases (Height (BlockHeader block)) (currBlockHeight (ledger w)))
      as [Hle | Hlt].
    + exfalso. apply Hchg. unfold exec. rewrite SubmitBlock_replay by exact Hle.
      reflexivity.
    + destruct (Z.eq_dec (Height (BlockHeader block)) (currBlockHeight (ledger w) + 1))
        as [Heq | Hne]; [exact Heq |].
      exfalso. apply Hchg. unfold exec. rewrite SubmitBlock_gap; [reflexivity | lia |].
      rewrite (u32_succ_above _ _ HH Hh); lia.
  - intros Heq. apply SubmitBlock_next; [lia |].
    rewrite (u32_succ_above _ _ HH Hh); lia.
Qed.

(** ** The height gate of [ExecuteBlock] *)

(** C5.  [ExecuteBlock] on a height at or below the current one returns
    the root the state store has recorded for that height (with whatever
    error the lookup gives), an empty notification list and no write set,
    and leaves the world as it was: nothing is executed, logged or
    written.  On a height that is neither at or below the current one nor
    the next one it returns an error, again without any effect. *)
Theorem C5_ExecuteBlock_idempotent (rt : GoRuntime) (block : Block) (w : World) :
  isU32 (currBlockHeight (ledger w)) ->
  isU32 (Height (BlockHeader block)) ->
  (Height (BlockHeader block) <= currBlockHeight (ledger w) ->
     ExecuteBlock rt block w =
     (w, Ok ({| WriteSet := None; Hash := UINT256_EMPTY;
                MerkleRoot := fst (ss_GetStateMerkleRoot (stateStore (ledger w))
                                     (Height (BlockHeader block)));
                Notify := []; ShardNotify := [] |},
             snd (ss_GetStateMerkleRoot (stateStore (ledger w))
                    (Height (BlockHeader block)))))) /\
  (currBlockHeight (ledger w) < Height (BlockHeader block) ->
   Height (BlockHeader block) <> currBlockHeight (ledger w) + 1 ->
     exists e, ExecuteBlock rt block w = (w, Ok (emptyResult, Some e))).
Proof.
  intros HH Hh. split.
  - intros Hle. unfold ExecuteBlock, bind, getLedger, GetCurrentBlockHeight,
      GetStateMerkleRoot, ret.
    destruct (Z.leb_spec (Height (BlockHeader block)) (currBlockHeight (ledger w)));
      [| lia].
    destruct (ss_GetStateMerkleRoot _ _) as [root err]. reflexivity.
  - intros Hlt Hne. eexists.
    unfold ExecuteBlock, bind, getLedger, GetCurrentBlockHeight, ret.
    destruct (Z.leb_spec (Height (BlockHeader block)) (currBlockHeight (ledger w)));
      [lia |].
    rewrite (u32_succ_above _ _ HH Hh Hlt).
    destruct (Z.eqb_spec (Height (BlockHeader block)) (currBlockHeight (ledger w) + 1));
      [contradiction | reflexivity].
Qed.
(** ** Header verification *)

Lemma u32_succ_nonzero (x h : Z) : isU32 x -> h <> 0 -> h = u32 (x + 1) -> h = x + 1.
Proof.
  unfold isU32, MaxUint32, u32. intros Hx Hh Heq.
  destruct (Z.eq_dec x (2 ^ 32 - 1)) as [-> | Hne].
  - exfalso. apply Hh. rewrite Heq. reflexivity.
  - rewrite Heq. apply Z.mod_small. lia.
Qed.

Lemma verifyHeader_genesis (this : LedgerStoreImp) (header : Header)
    (info : gmap string Z) :
  Height header = 0 -> verifyHeader this header info = (info, Ok tt).
Proof. intros Hh. unfold verifyHeader. rewrite Hh. reflexivity. Qed.

Lemma verifyHeader_keeps_peers (this : LedgerStoreImp) (header : Header)
    (info info' : gmap string Z) (r : Result unit) :
  verifyHeader this header info = (info', r) -> r <> Ok tt -> info' = info.
Proof.
  unfold verifyHeader. intros Hv Hr.
  repeat case_match; simplify_eq; try reflexivity; contradiction.
Qed.

Lemma verifyHeader_ok_chained (this : LedgerStoreImp) (header : Header)
    (info info' : gmap string Z) :
  Height header <> 0 ->
  verifyHeader this header info = (info', Ok tt) -> chained this header.
Proof.
  intros Hh. unfold verifyHeader.
  destruct (Z.eqb_spec (Height header) 0) as [| _]; [contradiction |].
  destruct (GetHeaderByHash this (PrevBlockHash header)) as [[prev |] err] eqn:Hprev.
  - intros Hv.
    assert (Hgo : (u32 (Height prev + 1) =? Height header) = true /\
                  (Timestamp header <=? Timestamp prev) = false).
    { destruct (u32 (Height prev + 1) =? Height header);
        destruct (Timestamp header <=? Timestamp prev);
        destruct err as [[] |]; simpl in Hv; try discriminate; auto. }
    destruct Hgo as [Hheight Htime].
    apply Z.eqb_eq in Hheight. apply Z.leb_gt in Htime.
    exists prev. rewrite Hprev. simpl.
    split; [reflexivity | split; [auto | split; [| exact Htime]]].
    intros Hu. apply u32_succ_nonzero; auto.
  - intros Hv. destruct err as [[] |]; discriminate.
Qed.

Lemma verifyHeader_unchained (this : LedgerStoreImp) (header : Header)
    (info : gmap string Z) :
  Height header <> 0 -> ~ chained this header ->
  exists e, verifyHeader this header info = (info, Fail e).
Proof.
  intros Hh Hnot. unfold verifyHeader.
  destruct (Z.eqb_spec (Height header) 0) as [| _]; [contradiction |].
  destruct (GetHeaderByHash this (PrevBlockHash header)) as [[prev |] err] eqn:Hprev.
  - destruct (Z.eqb_spec (u32 (Height prev + 1)) (Height header)) as [Hheight | Hheight];
      [destruct (Z.leb_spec (Timestamp header) (Timestamp prev)) as [Htime | Htime] |].
    + destruct err as [[] |]; simpl; eauto.
    + exfalso. apply Hnot. exists prev. rewrite Hprev. simpl.
      split; [reflexivity | split; [auto | split; [| exact Htime]]].
      intros Hu. apply u32_succ_nonzero; auto.
    + destruct err as [[] |]; simpl; eauto.
  - destruct err as [[] |]; eauto.
Qed.

(** ** [AddHeader] and [SubmitBlock] on headers *)

Lemma AddHeader_ok_chained (header : Header) (w w' : World) :
  Height header <> 0 ->
  AddHeader header w = (w', Ok tt) -> chained (ledger w) header.
Proof.
  intros Hh. unfold AddHeader, bind, getLedger, fail.
  destruct (negb _); [discriminate |].
  destruct (verifyHeader (ledger w) header (vbftPeerInfoheader (ledger w)))
    as [info [[] | e | s]] eqn:Hv.
  - intros _. eapply verifyHeader_ok_chained; eauto.
  - simpl. discriminate.
  - simpl. discriminate.
Qed.

Lemma AddHeader_rejects (header : Header) (w : World) :
  Height header <> 0 -> ~ chained (ledger w) header ->
  exists e, AddHeader header w = (w, Fail e).
Proof.
  intros Hh Hnot. unfold AddHeader, bind, getLedger, fail.
  destruct (negb _); [eauto |].
  destruct (verifyHeader_unchained (ledger w) header (vbftPeerInfoheader (ledger w)) Hh Hnot)
    as [e He].
  rewrite He. rewrite modifyLedger_same by apply set_vbftPeerInfoheader_same.
  simpl. eauto.
Qed.

Lemma SubmitBlock_proceed_ok_verified (block : Block) (result : ExecuteResult)
    (w w' : World) :
  SubmitBlock_proceed block result w = (w', Ok tt) ->
  exists info,
    verifyHeader (ledger w) (BlockHeader block) (vbftPeerInfoblock (ledger w)) = (info, Ok tt).
Proof.
  unfold SubmitBlock_proceed, bind, getLedger.
  destruct (verifyHeader (ledger w) (BlockHeader block) (vbftPeerInfoblock (ledger w)))
    as [info [[] | e | s]] eqn:Hv.
  - eauto.
  - simpl. discriminate.
  - simpl. discriminate.
Qed.

Lemma SubmitBlock_proceed_rejects (block : Block) (result : ExecuteResult) (w : World) :
  Height (BlockHeader block) <> 0 -> ~ chained (ledger w) (BlockHeader block) ->
  exists e, SubmitBlock_proceed block result w = (w, Fail e).
Proof.
  intros Hh Hnot. unfold SubmitBlock_proceed, bind, getLedger.
  destruct (verifyHeader_unchained (ledger w) (BlockHeader block)
              (vbftPeerInfoblock (ledger w)) Hh Hnot) as [e He].
  rewrite He. rewrite modifyLedger_same by apply set_vbftPeerInfoblock_same.
  simpl. eauto.
Qed.

Lemma SubmitBlock_cases (block : Block) (result : ExecuteResult) (w : World) :
  (Height (BlockHeader block) <= currBlockHeight (ledger w) /\
   SubmitBlock block result w = (w, Ok tt)) \/
  (currBlockHeight (ledger w) < Height (BlockHeader block) /\
   exists e, SubmitBlock block result w = (w, Fail e)) \/
  (currBlockHeight (ledger w) < Height (BlockHeader block) /\
   SubmitBlock block result w = SubmitBlock_proceed block result w).
Proof.
  destruct (Z.le_gt_cases (Height (BlockHeader block)) (currBlockHeight (ledger w)))
    as [Hle | Hlt].
  - left. split; [exact Hle | apply SubmitBlock_replay, Hle].
  - destruct (Z.eq_dec (Height (BlockHeader block)) (u32 (currBlockHeight (ledger w) + 1)))
      as [Heq | Hne].
    + right. right. split; [exact Hlt | apply SubmitBlock_next; assumption].
    + right. left. split; [exact Hlt |]. eexists. apply SubmitBlock_gap; assumption.
Qed.

(** C9 (as amended).  Header chain.  A non-genesis header that [AddHeader]
    accepts, or that [SubmitBlock] accepts for a block above the current
    height, names a known previous header, has that header's height plus
    one, and a strictly later timestamp.  A header for which this fails is
    turned down with an error by [AddHeader], and by [SubmitBlock] for a
    block above the current height, before anything is changed.  For a
    block at or below the current height [SubmitBlock] does not look at
    the header: whatever the header, the call changes nothing (and
    returns nil, by C2). *)
Theorem C9_header_chain (header : Header) (block : Block) (result : ExecuteResult)
    (w : World) :
  Height header <> 0 ->
  Height (BlockHeader block) <> 0 ->
  (forall w', AddHeader header w = (w', Ok tt) -> chained (ledger w) header) /\
  (forall w', currBlockHeight (ledger w) < Height (BlockHeader block) ->
     SubmitBlock block result w = (w', Ok tt) -> chained (ledger w) (BlockHeader block)) /\
  (~ chained (ledger w) header -> exists e, AddHeader header w = (w, Fail e)) /\
  (~ chained (ledger w) (BlockHeader block) ->
     currBlockHeight (ledger w) < Height (BlockHeader block) ->
     exists e, SubmitBlock block result w = (w, Fail e)) /\
  (~ chained (ledger w) (BlockHeader block) -> exec (SubmitBlock block result) w = w).
Proof.
  intros Hh Hb. repeat split.
  - intros w'. apply AddHeader_ok_chained, Hh.
  - intros w' Hlt Hok.
    destruct (SubmitBlock_cases block result w) as [[Hle _] | [[_ [e He]] | [_ Hnext]]].
    + lia.
    + rewrite He in Hok. discriminate.
    + rewrite Hnext in Hok.
      destruct (SubmitBlock_proceed_ok_verified _ _ _ _ Hok) as [info Hv].
      eapply verifyHeader_ok_chained; eauto.
  - intros Hnot. apply AddHeader_rejects; assumption.
  - intros Hnot Hlt.
    destruct (SubmitBlock_cases block result w) as [[Hle _] | [[_ He] | [_ Hnext]]].
    + lia.
    + exact He.
    + rewrite Hnext. apply SubmitBlock_proceed_rejects; assumption.
  - intros Hnot. unfold exec.
    destruct (SubmitBlock_cases block result w) as [[_ Hre] | [[_ [e He]] | [_ Hnext]]].
    + rewrite Hre. reflexivity.
    + rewrite He. reflexivity.
    + rewrite Hnext.
      destruct (SubmitBlock_proceed_rejects block result w Hb Hnot) as [e He].
      rewrite He. reflexivity.
Qed.
(** ** Computations that neither commit nor move the pointer *)

Lemma commitLog_app (t1 t2 : list Effect) :
  commitLog (t1 ++ t2) = commitLog t1 ++ commitLog t2.
Proof. unfold commitLog. apply List.filter_app. Qed.

Lemma quiet_ret {A} (a : A) : quiet (ret a).
Proof. intros w. split; [reflexivity |]. exists []. rewrite app_nil_r. auto. Qed.

Lemma quiet_fail {A} (e : error) : quiet (fail e : M A).
Proof. intros w. split; [reflexivity |]. exists []. rewrite app_nil_r. auto. Qed.

Lemma quiet_abort {A} (s : string) : quiet (abort s : M A).
Proof. intros w. split; [reflexivity |]. exists []. rewrite app_nil_r. auto. Qed.

Lemma quiet_liftResult {A} (r : Result A) : quiet (liftResult r).
Proof. intros w. split; [reflexivity |]. exists []. rewrite app_nil_r. auto. Qed.

Lemma quiet_getLedger : quiet getLedger.
Proof. intros w. split; [reflexivity |]. exists []. rewrite app_nil_r. auto. Qed.

Lemma quiet_check (err : option error) (wrap : error -> error) : quiet (check err wrap).
Proof. destruct err; [apply quiet_fail | apply quiet_ret]. Qed.

Lemma quiet_emit (ev : Effect) : isCommitEffect ev = false -> quiet (emit ev).
Proof.
  intros Hev w. split; [reflexivity |]. exists [ev]. split; [reflexivity |].
  unfold commitLog. simpl. rewrite Hev. reflexivity.
Qed.

Lemma quiet_modifyLedger (f : LedgerStoreImp -> LedgerStoreImp) :
  (forall l, currBlockHeight (f l) = currBlockHeight l /\
             currBlockHash (f l) = currBlockHash l) ->
  quiet (modifyLedger f).
Proof.
  intros Hf w. unfold exec, pointer, modifyLedger. simpl.
  destruct (Hf (ledger w)) as [-> ->]. split; [reflexivity |].
  exists []. rewrite app_nil_r. auto.
Qed.

Lemma quiet_bind {A B} (c : M A) (k : A -> M B) :
  quiet c -> (forall a, quiet (k a)) -> quiet (bind c k).
Proof.
  intros Hc Hk w. unfold exec, bind.
  destruct (Hc w) as [Hp [t [Ht Hl]]]. unfold exec in Hp, Ht.
  destruct (c w) as [w1 [a | e | s]]; simpl in *.
  - destruct (Hk a w1) as [Hp' [t' [Ht' Hl']]]. unfold exec in Hp', Ht'.
    split; [congruence |].
    exists (t ++ t'). rewrite Ht', Ht, app_assoc, commitLog_app, Hl, Hl'. auto.
  - split; [assumption |]. exists t. auto.
  - split; [assumption |]. exists t. auto.
Qed.

Lemma quiet_try {A} (c : M A) (wrap : error -> error) : quiet c -> quiet (try c wrap).
Proof.
  intros Hc w. unfold exec, try.
  destruct (Hc w) as [Hp Ht]. unfold exec in Hp, Ht.
  destruct (c w) as [w1 [a | e | s]]; simpl in *; auto.
Qed.

Lemma quiet_onBlockStore {A} (op : BlockStore -> BlockStore * A) : quiet (onBlockStore op).
Proof.
  unfold onBlockStore. apply quiet_bind; [apply quiet_getLedger |]. intros l.
  destruct (op (blockStore l)) as [s a].
  apply quiet_bind; [| intros; apply quiet_ret].
  apply quiet_modifyLedger. intros; split; reflexivity.
Qed.

Lemma quiet_onStateStore {A} (op : StateStore -> StateStore * A) : quiet (onStateStore op).
Proof.
  unfold onStateStore. apply quiet_bind; [apply quiet_getLedger |]. intros l.
  destruct (op (stateStore l)) as [s a].
  apply quiet_bind; [| intros; apply quiet_ret].
  apply quiet_modifyLedger. intros; split; reflexivity.
Qed.

Lemma quiet_onEventStore {A} (op : EventStore -> EventStore * A) : quiet (onEventStore op).
Proof.
  unfold onEventStore. apply quiet_bind; [apply quiet_getLedger |]. intros l.
  destruct (op (eventStore l)) as [s a].
  apply quiet_bind; [| intros; apply quiet_ret].
  apply quiet_modifyLedger. intros; split; reflexivity.
Qed.

Lemma quiet_setHeaderIndex (height : Z) (blockHash : Uint256) :
  quiet (setHeaderIndex height blockHash).
Proof. apply quiet_modifyLedger. intros; split; reflexivity. Qed.

Create HintDb quiet.
#[local] Hint Resolve quiet_ret quiet_fail quiet_abort quiet_liftResult quiet_getLedger
  quiet_check quiet_onBlockStore quiet_onStateStore quiet_onEventStore
  quiet_setHeaderIndex quiet_try : quiet.

(** One step through a computation built from the pieces above. *)
Ltac quiet_step :=
  match goal with
  | |- quiet (bind _ _) => apply quiet_bind; [| intros]
  | |- quiet (try _ _) => apply quiet_try
  | |- quiet (emit _) => apply quiet_emit; reflexivity
  | |- quiet (modifyLedger _) => apply quiet_modifyLedger; intros; split; reflexivity
  | |- quiet (match ?x with _ => _ end) => destruct x
  | |- quiet _ => solve [auto with quiet]
  end.

Ltac quiet_auto := repeat quiet_step.

Lemma quiet_saveHeaderIndexList : quiet saveHeaderIndexList.
Proof. unfold saveHeaderIndexList. quiet_auto. Qed.

Lemma quiet_saveBlockToBlockStore (block : Block) : quiet (saveBlockToBlockStore block).
Proof.
  unfold saveBlockToBlockStore. pose proof quiet_saveHeaderIndexList. quiet_auto.
Qed.

Lemma quiet_saveEventNotifies (notifies : list ExecuteNotify) :
  quiet (saveEventNotifies notifies).
Proof. induction notifies as [| n rest IH]; simpl; quiet_auto. Qed.

Lemma quiet_saveShardState (block : Block) (result : ExecuteResult) :
  quiet (saveShardState block result).
Proof. unfold saveShardState. quiet_auto. Qed.

Lemma quiet_saveBlockToStateStore (block : Block) (result : ExecuteResult) :
  quiet (saveBlockToStateStore block result).
Proof.
  unfold saveBlockToStateStore.
  pose proof (quiet_saveShardState block result).
  pose proof (quiet_saveEventNotifies (Notify result)).
  quiet_auto.
Qed.

Lemma quiet_saveBlockToEventStore (block : Block) : quiet (saveBlockToEventStore block).
Proof. unfold saveBlockToEventStore. quiet_auto. Qed.

Lemma quiet_addShardEventConfig (height : Z) (shardID : ShardID) (cfg : ShardConfig)
    (peers : gmap string PeerShardStakeInfo) :
  quiet (addShardEventConfig height shardID cfg peers).
Proof. unfold addShardEventConfig. quiet_auto. Qed.

Lemma quiet_saveCrossShardGovernanceData (shardEvts : list ShardSystemEventMsg)
    (overlayDB : option MemDB) :
  quiet (saveCrossShardGovernanceData shardEvts overlayDB).
Proof.
  induction shardEvts as [| evt rest IH]; simpl; [apply quiet_ret |].
  pose proof quiet_addShardEventConfig.
  quiet_auto.
Qed.

Lemma quiet_saveParentShardConfig (block : Block) : quiet (saveParentShardConfig block).
Proof.
  unfold saveParentShardConfig. pose proof quiet_addShardEventConfig. quiet_auto.
Qed.

Lemma quiet_saveContractMetaData (metaEvents : list MetaDataEvent) :
  quiet (saveContractMetaData metaEvents).
Proof. induction metaEvents as [| e rest IH]; simpl; quiet_auto. Qed.

Lemma quiet_saveCrossShardDeployContractEventData
    (contractEvents : list ContractLifetimeEvent) :
  quiet (saveCrossShardDeployContractEventData contractEvents).
Proof. induction contractEvents as [| e rest IH]; simpl; quiet_auto. Qed.

Lemma quiet_saveCrossShardDataToStore (block : Block) (result : ExecuteResult) :
  quiet (saveCrossShardDataToStore block result).
Proof.
  unfold saveCrossShardDataToStore.
  pose proof quiet_saveCrossShardGovernanceData.
  pose proof quiet_saveParentShardConfig.
  pose proof quiet_saveContractMetaData.
  pose proof quiet_saveCrossShardDeployContractEventData.
  quiet_auto.
Qed.

Lemma quiet_submitBlock_save (block : Block) (result : ExecuteResult) :
  quiet (submitBlock_save block result).
Proof.
  unfold submitBlock_save, blockStore_NewBatch, stateStore_NewBatch, eventStore_NewBatch.
  pose proof quiet_saveBlockToBlockStore.
  pose proof quiet_saveBlockToStateStore.
  pose proof quiet_saveBlockToEventStore.
  pose proof quiet_saveCrossShardDataToStore.
  quiet_auto.
Qed.
(** ** The phases of [submitBlock] *)

Lemma submitBlock_phases (block : Block) (result : ExecuteResult) (w : World) :
  submitBlock block result w =
  (blockRoot <- liftResult (GetBlockRootWithNewTxRoots (ledger w)
                              (Height (BlockHeader block))
                              [TransactionsRoot (BlockHeader block)]) ;;
   if negb (Height (BlockHeader block) =? 0)
      && negb (N.eqb blockRoot (BlockRoot (BlockHeader block)))
   then fail (Errorf "wrong block root at height:%d, expected:%s, got:%s")
   else submitBlock_save block result ;;; submitBlock_commit block result) w.
Proof.
  unfold submitBlock. cbv zeta. unfold bind at 1, getLedger at 1.
  apply bind_ext. intros blockRoot w1.
  destruct (negb (Height (BlockHeader block) =? 0)
            && negb (N.eqb blockRoot (BlockRoot (BlockHeader block)))); [reflexivity |].
  unfold submitBlock_save.
  repeat (rewrite bind_assoc; apply bind_ext; intros).
  reflexivity.
Qed.

Lemma GetBlockRootWithNewTxRoots_genesis (this : LedgerStoreImp) (root : Uint256) :
  isU32 (currBlockHeight this) ->
  exists r, GetBlockRootWithNewTxRoots this 0 [root] = Ok r.
Proof.
  unfold isU32, MaxUint32. intros Hu. unfold GetBlockRootWithNewTxRoots.
  change (u32 (u32 (0 + u32 (len [root])) - 1)) with 0.
  destruct (Z.ltb_spec 0 (currBlockHeight this)); [eauto |].
  assert (currBlockHeight this = 0) as -> by lia.
  change (len [root] <? u32 (u32 (0 + 1) - 0)) with false. cbv iota. eauto.
Qed.

Lemma submitBlock_wrong_root (block : Block) (result : ExecuteResult) (w : World)
    (blockRoot : Uint256) :
  Height (BlockHeader block) <> 0 ->
  GetBlockRootWithNewTxRoots (ledger w) (Height (BlockHeader block))
    [TransactionsRoot (BlockHeader block)] = Ok blockRoot ->
  blockRoot <> BlockRoot (BlockHeader block) ->
  submitBlock block result w =
  (w, Fail (Errorf "wrong block root at height:%d, expected:%s, got:%s")).
Proof.
  intros Hh Hroot Hne. rewrite submitBlock_phases. unfold bind, liftResult.
  rewrite Hroot.
  destruct (Z.eqb_spec (Height (BlockHeader block)) 0); [contradiction |].
  destruct (N.eqb_spec blockRoot (BlockRoot (BlockHeader block))); [contradiction |].
  reflexivity.
Qed.

(** C10.  Genesis exception.  For a block whose header has height 0,
    [verifyHeader] returns at once with the peer table it was given and no
    error, whatever the signature, bookkeeper and timestamp checks of the
    other packages would say; and [submitBlock] goes straight from the
    computation of the block root to saving and committing the block,
    whatever block root the header carries. *)
Theorem C10_genesis_unchecked (this : LedgerStoreImp) (info : gmap string Z)
    (block : Block) (result : ExecuteResult) (w : World) :
  Height (BlockHeader block) = 0 ->
  isU32 (currBlockHeight (ledger w)) ->
  verifyHeader this (BlockHeader block) info = (info, Ok tt) /\
  submitBlock block result w =
  (submitBlock_save block result ;;; submitBlock_commit block result) w.
Proof.
  intros Hh Hu. split; [apply verifyHeader_genesis, Hh |].
  rewrite submitBlock_phases. unfold bind at 1, liftResult.
  rewrite Hh.
  destruct (GetBlockRootWithNewTxRoots_genesis (ledger w)
              (TransactionsRoot (BlockHeader block)) Hu) as [r ->].
  reflexivity.
Qed.

(** ** The commit phase *)

Lemma submitBlock_commit_cases (block : Block) (result : ExecuteResult) (w : World) :
  exists t,
    trace (exec (submitBlock_commit block result) w) = trace w ++ t /\
    ((commitLog t = [EvCommitTo BlockDB false] /\
      (exists e, outcome (submitBlock_commit block result) w = Fail e) /\
      pointer (exec (submitBlock_commit block result) w) = pointer w) \/
     (commitLog t = [EvCommitTo BlockDB true; EvCommitTo EventDB false] /\
      (exists e, outcome (submitBlock_commit block result) w = Fail e) /\
      pointer (exec (submitBlock_commit block result) w) = pointer w) \/
     (commitLog t = [EvCommitTo BlockDB true; EvCommitTo EventDB true;
                     EvCommitTo StateDB false] /\
      (exists e, outcome (submitBlock_commit block result) w = Fail e) /\
      pointer (exec (submitBlock_commit block result) w) = pointer w) \/
     (commitLog t = [EvCommitTo BlockDB true; EvCommitTo EventDB true;
                     EvCommitTo StateDB true;
                     EvSetCurrentBlock (Height (BlockHeader block)) (Block_Hash block)] /\
      outcome (submitBlock_commit block result) w = Ok tt /\
      pointer (exec (submitBlock_commit block result) w) =
      (Height (BlockHeader block), Block_Hash block))).
Proof.
  unfold submitBlock_commit, exec, outcome, pointer.
  unfold blockStore_CommitTo, eventStore_CommitTo, stateStore_CommitTo, setCurrentBlock,
    onBlockStore, onStateStore, onEventStore, bind, getLedger, modifyLedger, emit, ret,
    check, fail.
  simpl.
  destruct (bs_CommitTo (blockStore (ledger w))) as [bs [e1 |]]; simpl.
  { exists [EvCommitTo BlockDB false]. split; [reflexivity |]. left. eauto. }
  destruct (es_CommitTo (eventStore (ledger w))) as [es [e2 |]]; simpl.
  { exists [EvCommitTo BlockDB true; EvCommitTo EventDB false].
    rewrite <- app_assoc. split; [reflexivity |]. right; left. eauto. }
  destruct (ss_CommitTo (stateStore (ledger w))) as [ss [e3 |]]; simpl.
  { exists [EvCommitTo BlockDB true; EvCommitTo EventDB true; EvCommitTo StateDB false].
    rewrite <- !app_assoc. split; [reflexivity |]. right; right; left. eauto. }
  destruct (extractShardEvents (Notify result)) as [[shardSysMsg ?] ?].
  destruct DefActorPublisher_present; simpl.
  - eexists. rewrite <- !app_assoc. simpl. split; [reflexivity |].
    right; right; right. auto.
  - eexists. rewrite <- !app_assoc. simpl. split; [reflexivity |].
    right; right; right. auto.
Qed.

(** C4.  Durable commit order.  The commits and pointer updates a run of
    [submitBlock] performs are, in order: nothing (the run ended before
    the commit phase); or the block store's commit, failed; or that commit
    followed by the event store's, failed; or both followed by the state
    store's, failed; or the three commits, all successful, followed by the
    update of the current-block pointer.  The event store is thus
    committed before the state store, the pointer moves only after the
    state store's commit has succeeded, and in every run that ends with an
    error the pointer is what it was. *)
Theorem C4_commit_order (block : Block) (result : ExecuteResult) (w : World) :
  exists t,
    trace (exec (submitBlock block result) w) = trace w ++ t /\
    ((commitLog t = [] /\
      outcome (submitBlock block result) w <> Ok tt /\
      pointer (exec (submitBlock block result) w) = pointer w) \/
     (commitLog t = [EvCommitTo BlockDB false] /\
      (exists e, outcome (submitBlock block result) w = Fail e) /\
      pointer (exec (submitBlock block result) w) = pointer w) \/
     (commitLog t = [EvCommitTo BlockDB true; EvCommitTo EventDB false] /\
      (exists e, outcome (submitBlock block result) w = Fail e) /\
      pointer (exec (submitBlock block result) w) = pointer w) \/
     (commitLog t = [EvCommitTo BlockDB true; EvCommitTo EventDB true;
                     EvCommitTo StateDB false] /\
      (exists e, outcome (submitBlock block result) w = Fail e) /\
      pointer (exec (submitBlock block result) w) = pointer w) \/
     (commitLog t = [EvCommitTo BlockDB true; EvCommitTo EventDB true;
                     EvCommitTo StateDB true;
                     EvSetCurrentBlock (Height (BlockHeader block)) (Block_Hash block)] /\
      outcome (submitBlock block result) w = Ok tt /\
      pointer (exec (submitBlock block result) w) =
      (Height (BlockHeader block), Block_Hash block))).
Proof.
  unfold exec, outcome. rewrite submitBlock_phases.
  unfold bind, liftResult, fail.
  destruct (GetBlockRootWithNewTxRoots (ledger w) (Height (BlockHeader block))
              [TransactionsRoot (BlockHeader block)]) as [blockRoot | e | s].
  2:{ exists []. rewrite app_nil_r. split; [reflexivity |]. left. done. }
  2:{ exists []. rewrite app_nil_r. split; [reflexivity |]. left. done. }
  destruct (negb (Height (BlockHeader block) =? 0)
            && negb (N.eqb blockRoot (BlockRoot (BlockHeader block)))).
  { exists []. rewrite app_nil_r. split; [reflexivity |]. left. done. }
  destruct (quiet_submitBlock_save block result w) as [Hp [t1 [Ht1 Hl1]]].
  unfold exec in Hp, Ht1.
  destruct (submitBlock_save block result w) as [w1 [[] | e | s]]; simpl in Hp, Ht1.
  2:{ exists t1. split; [assumption |]. left. done. }
  2:{ exists t1. split; [assumption |]. left. done. }
  destruct (submitBlock_commit_cases block result w1) as [t2 [Ht2 Hcases]].
  unfold exec, outcome in Ht2, Hcases.
  exists (t1 ++ t2). rewrite Ht2, Ht1, app_assoc, commitLog_app, Hl1. simpl.
  split; [reflexivity |]. rewrite <- Hp. right. exact Hcases.
Qed.
(** ** [HandleTransaction] *)

(** [HandleTransaction] in terms of what the handler leaves behind. *)
Lemma HandleTransaction_runHandler (store : LedgerStoreImp) (gasTable : gmap string Z)
    (header : Header) (tx : Transaction) (c : ExecCtx) :
  dispatched (TxType tx) = true ->
  HandleTransaction store gasTable header tx c =
  let c1 := fst (fst (runHandler store gasTable header tx c)) in
  let notify := snd (fst (runHandler store gasTable header tx c)) in
  match overlay_Error (overlay c1) with
  | Some oerr =>
      (c1, Fail (Wrapf
                   match TxType tx with
                   | MetaData => "HandleChangeMetadataTransaction tx %s error %s"
                   | Invoke => "HandleInvokeTransaction tx %s error %s"
                   | _ => "HandleDeployTransaction tx %s error %s"
                   end oerr))
  | None =>
      (match TxType tx with MetaData => c1 | _ => commitCache c1 end, Ok notify)
  end.
Proof.
  unfold HandleTransaction, runHandler, failedNotify.
  destruct (TxType tx); simpl; try discriminate; intros _.
  - destruct (HandleDeployTransaction _ _ _ _ _ _ _) as [[[ov ca] ev] err]. reflexivity.
  - destruct (HandleChangeMetadataTransaction _ _ _ _ _ _ _) as [[[ov ca] ev] err].
    reflexivity.
  - destruct (HandleInvokeTransaction _ _ _ _ _ _) as [[c1 n] err]. reflexivity.
  - destruct (HandleShardCallTransaction _ _ _ _ _ _) as [[c1 n] err]. reflexivity.
Qed.

Lemma HandleTransaction_other (store : LedgerStoreImp) (gasTable : gmap string Z)
    (header : Header) (tx : Transaction) (c : ExecCtx) :
  dispatched (TxType tx) = false ->
  HandleTransaction store gasTable header tx c = (c, Ok (failedNotify tx)) /\
  runHandler store gasTable header tx c = ((c, failedNotify tx), None).
Proof.
  unfold HandleTransaction, runHandler, failedNotify.
  destruct (TxType tx); simpl; try discriminate; auto.
Qed.

Lemma executeOne_ok (store : LedgerStoreImp) (gasTable : gmap string Z) (header : Header)
    (wantShardCall : bool) (tx : Transaction) (es : ExecState) (w : World)
    (c1 : ExecCtx) (notify : TransactionNotify) :
  Bool.eqb (isShardCall (TxType tx)) wantShardCall = true ->
  HandleTransaction store gasTable header tx (ctx (resetCache es)) = (c1, Ok notify) ->
  executeOne store gasTable header wantShardCall tx es w =
  ({| ledger := ledger w; GAS_TABLE := GAS_TABLE w; trace := trace w ++ step tx |},
   Ok (recordNotify c1 notify (resetCache es), None)).
Proof.
  intros Hty Hht. unfold executeOne, bind, emit, ret.
  cbv beta iota zeta. rewrite Hty, Hht. cbv beta iota zeta delta [negb].
  cbn [ledger GAS_TABLE trace]. unfold step. rewrite <- app_assoc. reflexivity.
Qed.

(** C7.  Error scoping.  For a transaction of one of the four types
    [HandleTransaction] has a handler for (or any transaction, when the
    overlay's error flag is clear on entry), [HandleTransaction] returns
    an error exactly when the overlay's error flag is set once the handler
    has run.  When it is not set, [HandleTransaction] returns the
    notification the handler has filled in, whether or not the handler
    itself returned an error, and the loop of [executeBlock] records that
    notification and goes on without an error.  The notification handed to
    the handler starts in the failed state. *)
Theorem C7_error_scoping (store : LedgerStoreImp) (gasTable : gmap string Z)
    (header : Header) (tx : Transaction) (c : ExecCtx) :
  let handled := runHandler store gasTable header tx c in
  let flag := overlay_Error (overlay (fst (fst handled))) in
  dispatched (TxType tx) = true \/ overlay_Error (overlay c) = None ->
  ((exists e, snd (HandleTransaction store gasTable header tx c) = Fail e) <->
   flag <> None) /\
  (flag = None ->
   snd (HandleTransaction store gasTable header tx c) = Ok (snd (fst handled))) /\
  (flag = None ->
   forall (wantShardCall : bool) (es : ExecState) (w : World),
     ctx (resetCache es) = c ->
     Bool.eqb (isShardCall (TxType tx)) wantShardCall = true ->
     exists es',
       outcome (executeOne store gasTable header wantShardCall tx es) w = Ok (es', None) /\
       Notify (result es') = Notify (result es) ++ [ContractEvent (snd (fst handled))]) /\
  State (ContractEvent (failedNotify tx)) = CONTRACT_STATE_FAIL.
Proof.
  intros handled flag Hin.
  assert (Hspec :
    (flag = None /\
     snd (HandleTransaction store gasTable header tx c) = Ok (snd (fst handled))) \/
    (flag <> None /\
     exists e, snd (HandleTransaction store gasTable header tx c) = Fail e)).
  { subst flag handled.
    destruct (dispatched (TxType tx)) eqn:Hd.
    - rewrite (HandleTransaction_runHandler _ _ _ _ _ Hd). cbv zeta.
      destruct (overlay_Error
                  (overlay (fst (fst (runHandler store gasTable header tx c)))))
        as [oerr |]; simpl.
      + right. split; [discriminate | eauto].
      + left. auto.
    - destruct Hin as [Hin | Hin]; [discriminate |].
      destruct (HandleTransaction_other store gasTable header tx c Hd) as [-> ->].
      simpl. left. auto. }
  repeat split.
  - intros [e He]. destruct Hspec as [[_ Hok] | [Hflag _]]; [congruence | exact Hflag].
  - intros Hflag. destruct Hspec as [[Hnone _] | [_ Hfail]];
      [contradiction | exact Hfail].
  - intros Hflag. destruct Hspec as [[_ Hok] | [Hset _]]; [exact Hok | contradiction].
  - intros Hflag wantShardCall es w Hc Hty.
    destruct Hspec as [[_ Hok] | [Hset _]]; [| contradiction].
    destruct (HandleTransaction store gasTable header tx c) as [c1 r] eqn:Hht.
    simpl in Hok. subst r c.
    unfold outcome. rewrite (executeOne_ok _ _ _ _ _ _ _ _ _ Hty Hht).
    eexists. split; reflexivity.
Qed.

(** ** The state root *)

Lemma calculateTotalStateHash_ok (ov : OverlayDB) :
  iterError (overlay_NewIterator ov (prefix_bytes ST_CONTRACT)) = None ->
  iterError (overlay_NewIterator ov (prefix_bytes ST_STORAGE)) = None ->
  calculateTotalStateHash ov = (fullStateHash ov, None).
Proof.
  intros H1 H2. unfold calculateTotalStateHash, accumulateHash, fullStateHash.
  rewrite H1, H2, foldl_app. reflexivity.
Qed.

Lemma calculateTotalStateHash_error (ov : OverlayDB) :
  iterError (overlay_NewIterator ov (prefix_bytes ST_CONTRACT)) <> None \/
  iterError (overlay_NewIterator ov (prefix_bytes ST_STORAGE)) <> None ->
  exists e, calculateTotalStateHash ov = (UINT256_EMPTY, Some e).
Proof.
  unfold calculateTotalStateHash, accumulateHash.
  destruct (iterError (overlay_NewIterator ov (prefix_bytes ST_CONTRACT))) as [e1 |];
    [eauto |].
  destruct (iterError (overlay_NewIterator ov (prefix_bytes ST_STORAGE))) as [e2 |];
    [eauto |].
  intros [H | H]; contradiction.
Qed.
(** ** Sorting the shard ids *)

Lemma sorted_ids_unique (l l' : list N) :
  l' ≡ₚ l -> Sorted N.le l' -> l' = sortShardIDs l.
Proof.
  intros Hperm Hsorted. unfold sortShardIDs.
  apply (Sorted_unique N.le); [exact Hsorted | apply Sorted_merge_sort; apply _ |].
  rewrite merge_sort_Permutation. exact Hperm.
Qed.

Lemma sortShardIDs_range (rt : GoRuntime) (l : list N) :
  sortShardIDs (rangeShardTxs rt l) = merge_sort N.le l.
Proof.
  symmetry. apply sorted_ids_unique.
  - rewrite merge_sort_Permutation. symmetry. apply rangeShardTxs_perm.
  - apply Sorted_merge_sort; apply _.
Qed.



(** ** The log of a block execution *)

Lemma follows_done {A} (a : A) : follows (ret (a, None)) [].
Proof.
  intros w. split; [reflexivity |]. exists []. rewrite app_nil_r.
  repeat split; [reflexivity | discriminate].
Qed.

Lemma follows_chain {A} (c : M (A * option error)) (k : A -> M (A * option error))
    (p1 p2 : list Effect) :
  follows c p1 -> (forall a, follows (k a) p2) ->
  follows (r <- c ;;
           match r with
           | (a, Some e) => ret (a, Some e)
           | (a, None) => k a
           end) (p1 ++ p2).
Proof.
  intros Hc Hk w. unfold exec, outcome, bind.
  destruct (Hc w) as [Hl [t [Ht [Hpre [Hfull Hnofail]]]]].
  unfold exec, outcome in Hl, Ht, Hfull, Hnofail.
  destruct (c w) as [w1 [[a [e |]] | e | s]]; simpl in *.
  - split; [assumption |]. exists t.
    repeat split; [assumption | apply prefix_app_r, Hpre | discriminate | discriminate].
  - destruct (Hk a w1) as [Hl' [t' [Ht' [Hpre' [Hfull' Hnofail']]]]].
    unfold exec, outcome in Hl', Ht', Hfull', Hnofail'.
    split; [congruence |]. exists (t ++ t').
    rewrite (Hfull a eq_refl) in *.
    repeat split.
    + rewrite Ht', Ht, app_assoc. reflexivity.
    + apply prefix_app, Hpre'.
    + intros a' Ha'. rewrite (Hfull' a' Ha'). reflexivity.
    + exact Hnofail'.
  - exfalso. exact (Hnofail e eq_refl).
  - split; [assumption |]. exists t.
    repeat split; [assumption | apply prefix_app_r, Hpre | discriminate | discriminate].
Qed.

Lemma follows_executeOne (store : LedgerStoreImp) (gasTable : gmap string Z)
    (header : Header) (wantShardCall : bool) (tx : Transaction) (es : ExecState) :
  follows (executeOne store gasTable header wantShardCall tx es) (step tx).
Proof.
  intros w. unfold exec, outcome, executeOne, bind, emit, ret, abort.
  cbv beta iota zeta.
  destruct (negb (Bool.eqb (isShardCall (TxType tx)) wantShardCall)).
  - cbn [fst snd ledger trace]. split; [reflexivity |]. exists [EvCacheReset].
    repeat split; [by exists [EvHandleTransaction tx] | discriminate | discriminate].
  - cbv beta iota.
    destruct (HandleTransaction store gasTable header tx (ctx (resetCache es)))
      as [c1 [notify | e | s]]; cbn [fst snd ledger trace GAS_TABLE];
      (split; [reflexivity |]); exists (step tx); unfold step;
      rewrite <- app_assoc; repeat split; try reflexivity; discriminate.
Qed.

Lemma follows_executeShardTxs (store : LedgerStoreImp) (gasTable : gmap string Z)
    (header : Header) (shardTxs : list ShardTx) (es : ExecState) :
  follows (executeShardTxs store gasTable header shardTxs es)
          (flat_map (fun shardTx => step (Tx shardTx)) shardTxs).
Proof.
  revert es. induction shardTxs as [| shardTx rest IH]; intros es.
  - apply follows_done.
  - cbn [executeShardTxs flat_map].
    apply (follows_chain _ (fun es => executeShardTxs store gasTable header rest es));
      [apply follows_executeOne | exact IH].
Qed.

Lemma follows_executeTransactions (store : LedgerStoreImp) (gasTable : gmap string Z)
    (header : Header) (txs : list Transaction) (es : ExecState) :
  follows (executeTransactions store gasTable header txs es) (flat_map step txs).
Proof.
  revert es. induction txs as [| tx rest IH]; intros es.
  - apply follows_done.
  - cbn [executeTransactions flat_map].
    apply (follows_chain _ (fun es => executeTransactions store gasTable header rest es));
      [apply follows_executeOne | exact IH].
Qed.

Lemma follows_executeShardGroups (store : LedgerStoreImp) (gasTable : gmap string Z)
    (block : Block) (ids : list N) (es : ExecState) :
  follows (executeShardGroups store gasTable block ids es)
          (flat_map (fun id => flat_map (fun shardTx => step (Tx shardTx))
                                        (default [] (ShardTxs block !! id))) ids).
Proof.
  revert es. induction ids as [| id rest IH]; intros es.
  - apply follows_done.
  - cbn [executeShardGroups flat_map].
    apply (follows_chain _ (fun es => executeShardGroups store gasTable block rest es));
      [apply follows_executeShardTxs | exact IH].
Qed.
Lemma silent_ret {X} (x : X) : silent (ret x).
Proof. intros w. exists x, w. auto. Qed.

Lemma silent_getLedger : silent getLedger.
Proof. intros w. exists (ledger w), w. auto. Qed.

Lemma silent_getGasTable : silent getGasTable.
Proof. intros w. exists (GAS_TABLE w), w. auto. Qed.

Lemma silent_setGasTable (g : gmap string Z) : silent (setGasTable g).
Proof. intros w. eexists _, _. split; [reflexivity |]. auto. Qed.

Lemma silent_bind {X Y} (c : M X) (k : X -> M Y) :
  silent c -> (forall x, silent (k x)) -> silent (bind c k).
Proof.
  intros Hc Hk w. destruct (Hc w) as [x [w1 [Hcw [Hl Ht]]]].
  destruct (Hk x w1) as [y [w2 [Hkw [Hl' Ht']]]].
  exists y, w2. unfold bind. rewrite Hcw, Hkw. split; [reflexivity |].
  split; congruence.
Qed.

Lemma follows_after_silent {X A} (c : M X) (k : X -> M (A * option error))
    (plan : list Effect) :
  silent c -> (forall x, follows (k x) plan) -> follows (bind c k) plan.
Proof.
  intros Hc Hk w. destruct (Hc w) as [x [w1 [Hcw [Hl Ht]]]].
  unfold exec, outcome, bind. rewrite Hcw.
  destruct (Hk x w1) as [Hl' Hrest]. unfold exec, outcome in Hl', Hrest.
  rewrite <- Hl, <- Ht. split; assumption.
Qed.

Lemma log_after_emit {A} (ev : Effect) (c : M (A * option error))
    (plan : list Effect) (w : World) :
  follows c plan ->
  ledger (exec (emit ev ;;; c) w) = ledger w /\
  exists t, trace (exec (emit ev ;;; c) w) = trace w ++ ev :: t /\
            t `prefix_of` plan /\
            (forall a, outcome (emit ev ;;; c) w = Ok (a, None) -> t = plan) /\
            (forall e, outcome (emit ev ;;; c) w <> Fail e).
Proof.
  intros Hc. unfold exec, outcome, bind, emit.
  destruct (Hc {| ledger := ledger w; GAS_TABLE := GAS_TABLE w;
                  trace := trace w ++ [ev] |})
    as [Hl [t [Ht [Hpre [Hfull Hnofail]]]]].
  unfold exec, outcome in Hl, Ht, Hfull, Hnofail. cbn [ledger trace] in Hl, Ht.
  split; [exact Hl |]. exists t.
  repeat split; try assumption.
  rewrite Ht, <- app_assoc. reflexivity.
Qed.

Lemma follows_stopped {A} (a : A) (e : error) (plan : list Effect) :
  follows (ret (a, Some e)) plan.
Proof.
  intros w. split; [reflexivity |]. exists []. rewrite app_nil_r.
  repeat split; [apply prefix_nil | discriminate | discriminate].
Qed.

Lemma executeBlock_run_body (rt : GoRuntime) (block : Block) :
  exists body,
    executeBlock_run rt block =
    (emit (EvExecuteBlock (Height (BlockHeader block))) ;;; body) /\
    follows body (schedule block).
Proof.
  unfold executeBlock_run. eexists. split; [reflexivity |].
  apply follows_after_silent; [apply silent_getLedger |]. intros this.
  cbv zeta.
  apply follows_after_silent.
  { destruct (negb (Height (BlockHeader block) =? 0)); [| apply silent_ret].
    apply silent_bind; [apply silent_getGasTable |]. intros g.
    destruct (refreshGlobalParam _ _ _ _) as [g' err].
    apply silent_bind; [apply silent_setGasTable | intros; apply silent_ret]. }
  intros [e |]; [apply follows_stopped |].
  apply follows_after_silent; [apply silent_getGasTable |]. intros gasTable.
  destruct (ss_GetCurrentLockedAddress (stateStore this)) as [addrList [e |]];
    [apply follows_stopped |].
  destruct (ss_GetCurrentLockedKeys (stateStore this)) as [keyList [e |]];
    [apply follows_stopped |].
  rewrite sortShardIDs_range. fold (ascendingShardIDs block).
  unfold schedule, shardSchedule.
  apply (follows_chain _
           (fun es => executeTransactions this gasTable (BlockHeader block)
                        (Transactions block) es)).
  - apply follows_executeShardGroups.
  - intros es. apply follows_executeTransactions.
Qed.

Lemma executeBlock_run_log (rt : GoRuntime) (block : Block) (w : World) :
  ledger (exec (executeBlock_run rt block) w) = ledger w /\
  exists t, trace (exec (executeBlock_run rt block) w) =
            trace w ++ EvExecuteBlock (Height (BlockHeader block)) :: t /\
            t `prefix_of` schedule block /\
            (forall a, outcome (executeBlock_run rt block) w = Ok (a, None) ->
                       t = schedule block) /\
            (forall e, outcome (executeBlock_run rt block) w <> Fail e).
Proof.
  destruct (executeBlock_run_body rt block) as [body [-> Hbody]].
  apply log_after_emit, Hbody.
Qed.

Lemma executeBlock_after_run (rt : GoRuntime) (block : Block) (w : World) :
  executeBlock rt block w =
  match executeBlock_run rt block w with
  | (w1, Ok (es, Some e)) => (w1, Ok (result es, Some e))
  | (w1, Ok (es, None)) => (w1, Ok (executeBlock_seal rt (ledger w1) block es))
  | (w1, Fail e) => (w1, Fail e)
  | (w1, Abort s) => (w1, Abort s)
  end.
Proof.
  unfold executeBlock, bind.
  destruct (executeBlock_run rt block w) as [w1 [[es [e |]] | e | s]]; reflexivity.
Qed.

(** C8.  Three-phase state root.  When the transactions of a block have
    run without an error, [executeBlock] returns the write set of the
    overlay as the persist step leaves it and: below the threshold height,
    the empty root, with the overlay's change hash as [Hash]; at the
    threshold height, the hash of all keys and values of the contract
    namespace and then of the storage namespace of the overlay, as both
    [MerkleRoot] and [Hash] (an error of either iterator is returned
    instead); above the threshold, the root the state store derives from
    its previous root and the overlay's change hash, with no iteration
    over the state. *)
Theorem C8_three_phase_root (rt : GoRuntime) (block : Block) (w : World) (es : ExecState) :
  outcome (executeBlock_run rt block) w = Ok (es, None) ->
  let this := ledger w in
  let ov := snd (executeBlock_persist rt block es) in
  let h := Height (BlockHeader block) in
  let threshold := stateHashCheckHeight this in
  exists res err,
    executeBlock rt block w = (exec (executeBlock_run rt block) w, Ok (res, err)) /\
    WriteSet res = Some (overlay_GetWriteSet ov) /\
    (h < threshold ->
       err = None /\ MerkleRoot res = UINT256_EMPTY /\ Hash res = overlay_ChangeHash ov) /\
    (h = threshold ->
       (iterError (overlay_NewIterator ov (prefix_bytes ST_CONTRACT)) = None ->
        iterError (overlay_NewIterator ov (prefix_bytes ST_STORAGE)) = None ->
        err = None /\ MerkleRoot res = fullStateHash ov /\ Hash res = fullStateHash ov) /\
       (iterError (overlay_NewIterator ov (prefix_bytes ST_CONTRACT)) <> None \/
        iterError (overlay_NewIterator ov (prefix_bytes ST_STORAGE)) <> None ->
        err <> None)) /\
    (threshold < h ->
       err = None /\
       MerkleRoot res =
         ss_GetStateMerkleRootWithNewHash (stateStore this) (overlay_ChangeHash ov) /\
       Hash res = overlay_ChangeHash ov).
Proof.
  intros Hrun this ov h threshold.
  pose proof (executeBlock_run_log rt block w) as [Hledger _].
  unfold exec, outcome in *. rewrite executeBlock_after_run.
  destruct (executeBlock_run rt block w) as [w1 r]. cbn [fst snd] in *. subst r.
  rewrite Hledger. fold this.
  unfold executeBlock_seal. fold ov. fold h. fold threshold. cbv zeta.
  destruct (Z.ltb_spec h threshold) as [Hlt | Hge].
  { eexists _, _. split; [reflexivity |]. cbn [WriteSet MerkleRoot Hash].
    repeat split; try reflexivity; intros; lia. }
  destruct (Z.eqb_spec h threshold) as [Heq | Hne].
  { destruct (calculateTotalStateHash ov) as [res0 err0] eqn:Hcalc.
    destruct err0 as [e0 |].
    - eexists _, _. split; [reflexivity |]. cbn [WriteSet MerkleRoot Hash].
      split; [reflexivity |]. split; [intros; lia |]. split; [| intros; lia].
      intros _. split; [| discriminate].
      intros H1 H2. rewrite (calculateTotalStateHash_ok ov H1 H2) in Hcalc.
      discriminate.
    - eexists _, _. split; [reflexivity |]. cbn [WriteSet MerkleRoot Hash].
      split; [reflexivity |]. split; [intros; lia |]. split; [| intros; lia].
      intros _. split.
      + intros H1 H2. rewrite (calculateTotalStateHash_ok ov H1 H2) in Hcalc.
        inversion Hcalc. auto.
      + intros Herr. destruct (calculateTotalStateHash_error ov Herr) as [e He].
        rewrite He in Hcalc. discriminate. }
  eexists _, _. split; [reflexivity |]. cbn [WriteSet MerkleRoot Hash].
  repeat split; try reflexivity; intros; lia.
Qed.

(** ** Independence of the runtime's map order *)




(** ** Failed verification and the recovery loop *)

(** Whatever makes [verifyHeader] turn a header down, [AddHeader] returns
    the error with the world as it was. *)
Lemma AddHeader_error_unchanged (header : Header) (w w' : World) (e : error) :
  AddHeader header w = (w', Fail e) -> w' = w.
Proof.
  unfold AddHeader, bind, getLedger, fail.
  destruct (negb _); [intros H; inversion H; reflexivity |].
  destruct (verifyHeader (ledger w) header (vbftPeerInfoheader (ledger w)))
    as [info r] eqn:Hv.
  destruct r as [[] | e' | s].
  - simpl. discriminate.
  - rewrite (verifyHeader_keeps_peers _ _ _ _ _ Hv) by discriminate.
    rewrite modifyLedger_same by apply set_vbftPeerInfoheader_same.
    simpl. intros H; inversion H; reflexivity.
  - rewrite (verifyHeader_keeps_peers _ _ _ _ _ Hv) by discriminate.
    rewrite modifyLedger_same by apply set_vbftPeerInfoheader_same.
    simpl. discriminate.
Qed.

(** The heights [recoverStore] goes through: as many as the block store is
    ahead of the state store, starting at the state store's own height. *)
Lemma recoverStore_range (rt : GoRuntime) (w : World) (stateHash : Uint256)
    (stateHeight : Z) :
  ss_GetCurrentBlock (stateStore (ledger w)) = ((stateHash, stateHeight), None) ->
  recoverStore rt w =
  recoverBlocks rt (Z.to_nat (currBlockHeight (ledger w) - stateHeight)) stateHeight w.
Proof.
  intros Hcur. unfold recoverStore, bind, getLedger, GetCurrentBlockHeight.
  rewrite Hcur. reflexivity.
Qed.

Lemma bind_ret_tt (c : M unit) (w : World) : (c ;;; ret tt) w = c w.
Proof.
  unfold bind, ret. destruct (c w) as [w1 [[] | e | s]]; reflexivity.
Qed.

(** When the block store is one block ahead of the state store, which is
    the state a crash between the two commits leaves, [recoverStore]
    replays the block stored at the state store's own height and nothing
    else. *)
Lemma recoverStore_one_behind (rt : GoRuntime) (w : World) (stateHash blockHash : Uint256)
    (stateHeight : Z) (block : Block) :
  ss_GetCurrentBlock (stateStore (ledger w)) = ((stateHash, stateHeight), None) ->
  currBlockHeight (ledger w) = stateHeight + 1 ->
  bs_GetBlockHash (blockStore (ledger w)) stateHeight = (blockHash, None) ->
  bs_GetBlock (blockStore (ledger w)) blockHash = (Some block, None) ->
  recoverStore rt w = replayBlock rt block w.
Proof.
  intros Hcur Hahead Hhash Hblock.
  rewrite (recoverStore_range rt w stateHash stateHeight Hcur), Hahead.
  replace (Z.to_nat (stateHeight + 1 - stateHeight)) with 1%nat by lia.
  cbn [recoverBlocks]. unfold bind at 1, getLedger at 1.
  rewrite Hhash. unfold check at 1, bind at 1, ret at 1.
  rewrite Hblock. unfold check at 1, bind at 1, ret at 1.
  unfold replayBlock.
  apply bind_ext; intros _ w1. apply bind_ext; intros _ w2.
  apply bind_ext; intros [result err] w3.
  apply bind_ext; intros _ w4. apply bind_ext; intros _ w5.
  apply bind_ext; intros _ w6. apply bind_ext; intros err1 w7.
  apply bind_ext; intros _ w8. apply bind_ext; intros err2 w9.
  apply bind_ret_tt.
Qed.

End Properties.

(** * Further properties of the ledger store *)

Section FurtherProperties.
Context `{SV : Services}.

(** ** Arithmetic on [uint32] *)

Lemma u32_small (x : Z) : 0 <= x < 2 ^ 32 -> u32 x = x.
Proof. intros Hx. unfold u32. apply Z.mod_small. exact Hx. Qed.

Lemma u32_below (x : Z) : - 2 ^ 32 <= x < 0 -> u32 x = x + 2 ^ 32.
Proof.
  intros Hx. unfold u32. symmetry.
  apply (Z.mod_unique x (2 ^ 32) (-1) (x + 2 ^ 32)); lia.
Qed.

Lemma u32_above (x : Z) : 2 ^ 32 <= x < 2 * 2 ^ 32 -> u32 x = x - 2 ^ 32.
Proof.
  intros Hx. unfold u32. symmetry.
  apply (Z.mod_unique x (2 ^ 32) 1 (x - 2 ^ 32)); lia.
Qed.

Lemma len_nonneg {A} (l : list A) : 0 <= len l.
Proof. unfold len. lia. Qed.

(** ** The block root for a range of heights *)

(** X1.  [GetBlockRootWithNewTxRoots] is asked for the block root after
    the transaction roots of the heights [startHeight, startHeight+1, ...].
    When the ledger is already past the last of these heights it returns
    the empty hash; when the range reaches the current height and starts no
    later than the next height, it hands the state store exactly the roots
    of the heights above the current one; when the range starts beyond the
    next height, the slice expression is out of range and the call panics.
    Asking from height 0 for no roots at all panics as well. *)
Theorem GetBlockRootWithNewTxRoots_bounds (this : LedgerStoreImp) (startHeight : Z)
    (txRoots : list Uint256) :
  isU32 (currBlockHeight this) -> currBlockHeight this < MaxUint32 ->
  isU32 startHeight ->
  1 <= startHeight + len txRoots <= MaxUint32 + 1 ->
  let curr := currBlockHeight this in
  let last := startHeight + len txRoots - 1 in
  (last < curr ->
     GetBlockRootWithNewTxRoots this startHeight txRoots = Ok UINT256_EMPTY) /\
  (curr <= last -> startHeight <= curr + 1 ->
     GetBlockRootWithNewTxRoots this startHeight txRoots =
     Ok (ss_GetBlockRootWithNewTxRoots (stateStore this)
           (drop (Z.to_nat (curr + 1 - startHeight)) txRoots))) /\
  (curr + 1 < startHeight ->
     GetBlockRootWithNewTxRoots this startHeight txRoots =
     Abort "slice bounds out of range") /\
  GetBlockRootWithNewTxRoots this 0 [] = Abort "slice bounds out of range".
Proof.
  intros Hc Hc' Hs Hr curr last. unfold isU32, MaxUint32 in *.
  pose proof (len_nonneg txRoots) as Hn.
  assert (Hsum : u32 (u32 (startHeight + u32 (len txRoots)) - 1) = last).
  { subst last.
    destruct (Z.eq_dec (len txRoots) (2 ^ 32)) as [Hfull | Hpart].
    - assert (startHeight = 0) by lia. subst startHeight.
      rewrite Hfull. replace (u32 (2 ^ 32)) with 0 by reflexivity.
      replace (u32 (0 + 0)) with 0 by reflexivity.
      rewrite u32_below by lia. lia.
    - rewrite (u32_small (len txRoots)) by lia.
      destruct (Z.eq_dec (startHeight + len txRoots) (2 ^ 32)) as [Hwrap | Hno].
      + rewrite Hwrap. replace (u32 (2 ^ 32)) with 0 by reflexivity.
        rewrite u32_below by lia. lia.
      + rewrite (u32_small (startHeight + len txRoots)) by lia.
        rewrite u32_small by lia. reflexivity. }
  assert (Hnext : u32 (currBlockHeight this + 1) = curr + 1).
  { subst curr. apply u32_small. lia. }
  unfold GetBlockRootWithNewTxRoots. rewrite Hsum, Hnext. fold curr.
  repeat split.
  - intros Hpast. destruct (Z.ltb_spec last curr); [reflexivity | lia].
  - intros Hreach Hstart. destruct (Z.ltb_spec last curr); [lia |].
    rewrite (u32_small (curr + 1 - startHeight)) by (subst curr; lia).
    destruct (Z.ltb_spec (len txRoots) (curr + 1 - startHeight));
      [subst last; lia | reflexivity].
  - intros Hbeyond. destruct (Z.ltb_spec last curr); [subst last; lia |].
    rewrite (u32_below (curr + 1 - startHeight)) by (subst curr; lia).
    destruct (Z.ltb_spec (len txRoots) (curr + 1 - startHeight + 2 ^ 32));
      [reflexivity | subst last; lia].
  - replace (u32 (len (@nil Uint256))) with 0 by reflexivity.
    replace (u32 (0 + 0)) with 0 by reflexivity.
    rewrite (u32_below (0 - 1)) by lia.
    destruct (Z.ltb_spec (0 - 1 + 2 ^ 32) curr); [subst curr; lia |].
    rewrite Z.sub_0_r, (u32_small (curr + 1)) by (subst curr; lia).
    destruct (Z.ltb_spec (len (@nil Uint256)) (curr + 1));
      [reflexivity | unfold len in *; simpl in *; subst curr; lia].
Qed.

(** ** The header index and the header cache *)

(** X2.  [setHeaderIndex] followed by [GetBlockHash]: the height just set
    gives the hash stored, every other height gives what it gave before,
    and a height the index has no entry for gives the empty hash.  The
    current block is not touched. *)
Theorem headerIndex_round_trip (height h : Z) (blockHash : Uint256) (w : World) :
  let w' := exec (setHeaderIndex height blockHash) w in
  outcome (setHeaderIndex height blockHash) w = Ok tt /\
  GetBlockHash (ledger w') height = blockHash /\
  (h <> height -> GetBlockHash (ledger w') h = GetBlockHash (ledger w) h) /\
  (headerIndex (ledger w) !! h = None -> GetBlockHash (ledger w) h = UINT256_EMPTY) /\
  GetCurrentBlock (ledger w') = GetCurrentBlock (ledger w).
Proof.
  unfold exec, outcome, setHeaderIndex, modifyLedger, GetBlockHash, getHeaderIndex,
    GetCurrentBlock.
  cbn [fst snd ledger headerIndex set_headerIndex currBlockHeight currBlockHash].
  split; [reflexivity |]. split; [| split; [| split; [| reflexivity]]].
  - rewrite lookup_insert_eq. reflexivity.
  - intros Hne. rewrite lookup_insert_ne by congruence. reflexivity.
  - intros Hnone. unfold Uint256 in *. rewrite Hnone. reflexivity.
Qed.

(** X3.  A header added to the cache is what [GetHeaderByHash] returns for
    its hash, with a nil error and whatever the block store holds; other
    hashes are answered as before.  Once the entry is deleted the answer
    for that hash is the block store's. *)
Theorem headerCache_round_trip (header : Header) (blockHash : Uint256) (w : World) :
  let added := ledger (exec (addHeaderCache header) w) in
  let deleted := ledger (exec (delHeaderCache blockHash) w) in
  GetHeaderByHash added (Header_Hash header) = (Some header, None) /\
  (blockHash <> Header_Hash header ->
     GetHeaderByHash added blockHash = GetHeaderByHash (ledger w) blockHash) /\
  GetHeaderByHash deleted blockHash = bs_GetHeader (blockStore (ledger w)) blockHash /\
  (forall other, other <> blockHash ->
     GetHeaderByHash deleted other = GetHeaderByHash (ledger w) other).
Proof.
  unfold exec, addHeaderCache, delHeaderCache, modifyLedger, GetHeaderByHash,
    getHeaderCache.
  cbn [fst snd ledger headerCache set_headerCache blockStore].
  split; [| split; [| split]].
  - rewrite lookup_insert_eq. reflexivity.
  - intros Hne. rewrite lookup_insert_ne by congruence. reflexivity.
  - rewrite lookup_delete_eq. reflexivity.
  - intros other Hne. rewrite lookup_delete_ne by congruence. reflexivity.
Qed.

(** *** A dense index *)

Lemma denseIndex_size (this : LedgerStoreImp) (n : Z) :
  0 <= n -> denseIndex this n -> Z.of_nat (size (headerIndex this)) = n.
Proof.
  unfold denseIndex. intros Hn Hdense.
  rewrite <- (size_dom (D := gset Z)), Hdense.
  rewrite size_list_to_set by apply NoDup_seqZ.
  rewrite length_seqZ. lia.
Qed.

Lemma denseIndex_lookup (this : LedgerStoreImp) (n h : Z) :
  denseIndex this n -> (is_Some (headerIndex this !! h) <-> 0 <= h < n).
Proof.
  unfold denseIndex. intros Hdense.
  rewrite <- elem_of_dom, Hdense, elem_of_list_to_set, elem_of_seqZ. lia.
Qed.

Lemma denseIndex_insert (this : LedgerStoreImp) (n : Z) (blockHash : Uint256) :
  0 <= n -> denseIndex this n ->
  dom (<[n := blockHash]> (headerIndex this)) = (list_to_set (seqZ 0 (n + 1)) : gset Z).
Proof.
  unfold denseIndex. intros Hn Hdense.
  rewrite dom_insert_L, Hdense. apply set_eq. intros k.
  rewrite elem_of_union, elem_of_singleton, !elem_of_list_to_set, !elem_of_seqZ. lia.
Qed.

Lemma GetCurrentHeaderHeight_dense (this : LedgerStoreImp) (n : Z) :
  1 <= n <= MaxUint32 + 1 -> denseIndex this n ->
  GetCurrentHeaderHeight this = n - 1 /\
  GetCurrentHeaderHash this = getHeaderIndex this (n - 1).
Proof.
  unfold MaxUint32. intros Hn Hdense.
  unfold GetCurrentHeaderHeight, GetCurrentHeaderHash.
  rewrite (denseIndex_size this n) by (lia || assumption).
  destruct (Z.eqb_spec n 0); [lia |].
  assert (Hw : u32 (u32 n - 1) = n - 1).
  { destruct (Z.eq_dec n (2 ^ 32)) as [-> | Hne]; [reflexivity |].
    rewrite (u32_small n) by lia. apply u32_small. lia. }
  rewrite Hw. split; reflexivity.
Qed.

(** What a successful [AddHeader] has done. *)
Lemma AddHeader_ok_inv (header : Header) (w w' : World) :
  AddHeader header w = (w', Ok tt) ->
  Height header = u32 (GetCurrentHeaderHeight (ledger w) + 1) /\
  exists info,
    verifyHeader (ledger w) header (vbftPeerInfoheader (ledger w)) = (info, Ok tt) /\
    w' = {| ledger :=
              set_headerIndex
                (<[Height header := Header_Hash header]> (headerIndex (ledger w)))
                (set_headerCache
                   (<[Header_Hash header := header]> (headerCache (ledger w)))
                   (set_vbftPeerInfoheader info (ledger w)));
            GAS_TABLE := GAS_TABLE w; trace := trace w |}.
Proof.
  unfold AddHeader, bind, getLedger, fail.
  destruct (Z.eqb_spec (Height header) (u32 (GetCurrentHeaderHeight (ledger w) + 1)))
    as [Hh | Hh]; cbn [negb]; [| discriminate].
  destruct (verifyHeader (ledger w) header (vbftPeerInfoheader (ledger w)))
    as [info r] eqn:Hv.
  destruct r as [[] | e | s]; cbn; [| discriminate | discriminate].
  intros H. inversion H. split; [exact Hh |]. exists info. split; reflexivity.
Qed.

(** On a dense index a successful [AddHeader] extends the index by the
    height of the header. *)
Lemma AddHeader_ok_dense (header : Header) (w w' : World) (n : Z) :
  1 <= n <= MaxUint32 ->
  denseIndex (ledger w) n ->
  AddHeader header w = (w', Ok tt) ->
  Height header = n /\
  denseIndex (ledger w') (n + 1) /\
  trace w' = trace w /\
  GetCurrentBlock (ledger w') = GetCurrentBlock (ledger w).
Proof.
  intros Hn Hdense Hadd.
  destruct (AddHeader_ok_inv header w w' Hadd) as [Hh [info [Hv ->]]].
  destruct (GetCurrentHeaderHeight_dense (ledger w) n) as [Htip _];
    [unfold MaxUint32 in *; lia | exact Hdense |].
  rewrite Htip in Hh.
  replace (n - 1 + 1) with n in Hh by lia.
  rewrite u32_small in Hh by (unfold MaxUint32 in *; lia).
  split; [exact Hh |]. split; [| split; reflexivity].
  unfold denseIndex. cbn. rewrite Hh. apply denseIndex_insert; [lia | exact Hdense].
Qed.

(** X4.  With an index that holds the heights [0 .. n-1] (at least the
    genesis height), a header [AddHeader] accepts has height [n]; after
    the call the index holds the heights [0 .. n], the current header
    height is [n], the current header hash is the hash of the header, the
    header is found under its hash and (unless that hash is the empty
    hash) under its height, and the entries of all other heights are as
    before.  Nothing is logged and the current block does not move. *)
Theorem AddHeader_advances_tip (header : Header) (w w' : World) (n : Z) :
  1 <= n <= MaxUint32 ->
  denseIndex (ledger w) n ->
  AddHeader header w = (w', Ok tt) ->
  Height header = n /\
  denseIndex (ledger w') (n + 1) /\
  GetCurrentHeaderHeight (ledger w') = n /\
  GetCurrentHeaderHash (ledger w') = Header_Hash header /\
  GetHeaderByHash (ledger w') (Header_Hash header) = (Some header, None) /\
  (Header_Hash header <> UINT256_EMPTY ->
     GetHeaderByHeight (ledger w') n = (Some header, None)) /\
  (forall h, h <> n -> GetBlockHash (ledger w') h = GetBlockHash (ledger w) h) /\
  trace w' = trace w /\
  GetCurrentBlock (ledger w') = GetCurrentBlock (ledger w).
Proof.
  intros Hn Hdense Hadd.
  destruct (AddHeader_ok_inv header w w' Hadd) as [Hh [info [Hv ->]]].
  destruct (GetCurrentHeaderHeight_dense (ledger w) n) as [Htip _];
    [unfold MaxUint32 in *; lia | exact Hdense |].
  rewrite Htip in Hh.
  replace (n - 1 + 1) with n in Hh by lia.
  rewrite u32_small in Hh by (unfold MaxUint32 in *; lia).
  assert (Hdense' : denseIndex
            (set_headerIndex
               (<[Height header := Header_Hash header]> (headerIndex (ledger w)))
               (set_headerCache
                  (<[Header_Hash header := header]> (headerCache (ledger w)))
                  (set_vbftPeerInfoheader info (ledger w)))) (n + 1)).
  { unfold denseIndex. cbn. rewrite Hh. apply denseIndex_insert; [lia | exact Hdense]. }
  destruct (GetCurrentHeaderHeight_dense _ (n + 1) ltac:(lia) Hdense') as [Htip' Hhash'].
  cbn [ledger trace].
  split; [exact Hh |]. split; [exact Hdense' |].
  split; [rewrite Htip'; lia |].
  assert (Hget : getHeaderIndex
            (set_headerIndex
               (<[Height header := Header_Hash header]> (headerIndex (ledger w)))
               (set_headerCache
                  (<[Header_Hash header := header]> (headerCache (ledger w)))
                  (set_vbftPeerInfoheader info (ledger w)))) n = Header_Hash header).
  { unfold getHeaderIndex. cbn. rewrite Hh, lookup_insert_eq. reflexivity. }
  split; [rewrite Hhash'; replace (n + 1 - 1) with n by lia; exact Hget |].
  assert (Hcache : GetHeaderByHash
            (set_headerIndex
               (<[Height header := Header_Hash header]> (headerIndex (ledger w)))
               (set_headerCache
                  (<[Header_Hash header := header]> (headerCache (ledger w)))
                  (set_vbftPeerInfoheader info (ledger w)))) (Header_Hash header)
            = (Some header, None)).
  { unfold GetHeaderByHash, getHeaderCache. cbn. rewrite lookup_insert_eq. reflexivity. }
  split; [exact Hcache |].
  split.
  { intros Hnonempty. unfold GetHeaderByHeight, GetBlockHash. rewrite Hget.
    destruct (N.eqb_spec (Header_Hash header) UINT256_EMPTY); [contradiction |].
    exact Hcache. }
  split; [| split; reflexivity].
  intros h Hne. unfold GetBlockHash, getHeaderIndex. cbn.
  rewrite lookup_insert_ne by congruence. reflexivity.
Qed.

(** X5.  A header that [AddHeader] has just accepted is turned down when
    it is added again: its height is no longer the next one, and the
    second call changes nothing. *)
Theorem AddHeader_twice (header : Header) (w w' : World) (n : Z) :
  1 <= n <= MaxUint32 ->
  denseIndex (ledger w) n ->
  AddHeader header w = (w', Ok tt) ->
  AddHeader header w' =
  (w', Fail (Errorf "header height %d not equal next header height %d")).
Proof.
  intros Hn Hdense Hadd.
  destruct (AddHeader_ok_inv header w w' Hadd) as [Hh [info [Hv Hw']]].
  destruct (GetCurrentHeaderHeight_dense (ledger w) n) as [Htip _];
    [unfold MaxUint32 in *; lia | exact Hdense |].
  rewrite Htip in Hh. replace (n - 1 + 1) with n in Hh by lia.
  rewrite u32_small in Hh by (unfold MaxUint32 in *; lia).
  assert (Hdense' : denseIndex (ledger w') (n + 1)).
  { subst w'. unfold denseIndex. cbn. rewrite Hh.
    apply denseIndex_insert; [lia | exact Hdense]. }
  destruct (GetCurrentHeaderHeight_dense (ledger w') (n + 1) ltac:(lia) Hdense')
    as [Htip' _].
  unfold AddHeader, bind, getLedger, fail. rewrite Htip'.
  replace (n + 1 - 1 + 1) with (n + 1) by lia.
  destruct (Z.eqb_spec (Height header) (u32 (n + 1))) as [Heq | Hne]; [| reflexivity].
  exfalso. unfold MaxUint32 in *.
  destruct (Z.eq_dec n (2 ^ 32 - 1)) as [Hmax | Hlt].
  - rewrite Hmax in Heq. replace (u32 (2 ^ 32 - 1 + 1)) with 0 in Heq by reflexivity. lia.
  - rewrite u32_small in Heq by lia. lia.
Qed.

(** ** Batches of headers *)

Lemma addHeaderList_app (pre rest : list Header) (w : World) :
  addHeaderList (pre ++ rest) w =
  match addHeaderList pre w with
  | (w1, Ok _) => addHeaderList rest w1
  | (w1, Fail e) => (w1, Fail e)
  | (w1, Abort s) => (w1, Abort s)
  end.
Proof.
  revert w. induction pre as [| h pre IH]; intros w; [reflexivity |].
  cbn [app addHeaderList]. unfold bind.
  destruct (AddHeader h w) as [w1 [[] | e | s]]; [apply IH | reflexivity | reflexivity].
Qed.

Lemma addHeaderList_ok (hs : list Header) (w w' : World) (n : Z) :
  1 <= n -> n + len hs <= MaxUint32 + 1 ->
  denseIndex (ledger w) n ->
  addHeaderList hs w = (w', Ok tt) ->
  Height <$> hs = seqZ n (len hs) /\
  denseIndex (ledger w') (n + len hs) /\
  trace w' = trace w /\
  GetCurrentBlock (ledger w') = GetCurrentBlock (ledger w).
Proof.
  revert w n. induction hs as [| h hs IH]; intros w n Hn Hfit Hdense Hrun.
  - cbn in Hrun. inversion Hrun; subst w'. unfold len. cbn.
    rewrite Z.add_0_r. repeat split. exact Hdense.
  - cbn [addHeaderList] in Hrun. unfold bind in Hrun.
    destruct (AddHeader h w) as [w1 r] eqn:Hadd.
    destruct r as [[] | e | s]; [| discriminate | discriminate].
    assert (Hlen : len (h :: hs) = 1 + len hs) by (unfold len; cbn [length]; lia).
    pose proof (len_nonneg hs) as Hpos.
    rewrite Hlen in *.
    destruct (AddHeader_ok_dense h w w1 n ltac:(lia) Hdense Hadd)
      as (Hh & Hdense1 & Htrace1 & Hcur1).
    destruct (IH w1 (n + 1) ltac:(lia) ltac:(lia) Hdense1 Hrun)
      as (Hheights & Hdense' & Htrace & Hcur).
    split.
    { rewrite seqZ_cons by lia. cbn [fmap list_fmap]. rewrite Hh. f_equal.
      replace (Z.succ n) with (n + 1) by lia.
      replace (Z.pred (1 + len hs)) with (len hs) by lia. exact Hheights. }
    split; [replace (n + (1 + len hs)) with (n + 1 + len hs) by lia; exact Hdense' |].
    split; [congruence | congruence].
Qed.

(** X6.  With an index that holds the heights [0 .. n-1], a batch that
    [AddHeaders] accepts consists of exactly one header for each of the
    next heights [n, n+1, ...]: sorted, its heights are that sequence, so
    a batch with a gap, with two headers of one height or with a height
    the index already has is not accepted.  Afterwards the index holds
    all heights up to the last of the batch, which is the current header
    height; nothing is logged and the current block does not move. *)
Theorem AddHeaders_consecutive (gs : GoSort) (hs : list Header) (w w' : World) (n : Z) :
  1 <= n -> n + len hs <= MaxUint32 + 1 ->
  denseIndex (ledger w) n ->
  AddHeaders gs hs w = (w', Ok tt) ->
  Height <$> sortByHeight gs hs = seqZ n (len hs) /\
  Height <$> hs ≡ₚ seqZ n (len hs) /\
  denseIndex (ledger w') (n + len hs) /\
  GetCurrentHeaderHeight (ledger w') = n + len hs - 1 /\
  trace w' = trace w /\
  GetCurrentBlock (ledger w') = GetCurrentBlock (ledger w).
Proof.
  intros Hn Hfit Hdense Hrun. unfold AddHeaders in Hrun.
  assert (Hlen : len (sortByHeight gs hs) = len hs).
  { unfold len. rewrite (Permutation_length (sortByHeight_perm gs hs)). reflexivity. }
  destruct (addHeaderList_ok (sortByHeight gs hs) w w' n Hn ltac:(lia) Hdense Hrun)
    as (Hheights & Hdense' & Htrace & Hcur).
  rewrite Hlen in *.
  pose proof (len_nonneg hs) as Hpos.
  split; [exact Hheights |].
  split; [rewrite <- Hheights; apply fmap_Permutation; symmetry;
          apply sortByHeight_perm |].
  split; [exact Hdense' |].
  split; [| split; assumption].
  apply (GetCurrentHeaderHeight_dense (ledger w') (n + len hs)); [lia | exact Hdense'].
Qed.

(** X7.  [AddHeaders] is not all-or-nothing.  It adds the headers in
    sorted order and returns the error of the first one [AddHeader] turns
    down, as it is; the headers sorted before that one stay in the index
    and the cache.  An empty batch is accepted and changes nothing. *)
Theorem AddHeaders_stops_at_first_error (gs : GoSort) (hs pre post : list Header)
    (h : Header) (w w1 w2 : World) (e : error) :
  sortByHeight gs hs = pre ++ h :: post ->
  addHeaderList pre w = (w1, Ok tt) ->
  AddHeader h w1 = (w2, Fail e) ->
  AddHeaders gs hs w = (w1, Fail e) /\
  AddHeaders gs [] w = (w, Ok tt).
Proof.
  intros Hsorted Hpre Hfail. split.
  - unfold AddHeaders. rewrite Hsorted, addHeaderList_app, Hpre.
    cbn [addHeaderList]. unfold bind. rewrite Hfail.
    rewrite (AddHeader_error_unchanged h w1 w2 e Hfail). reflexivity.
  - unfold AddHeaders.
    rewrite (proj1 (Permutation_nil_r _) (sortByHeight_perm gs [])). reflexivity.
Qed.

(** ** What [verifyHeader] has checked of an accepted header *)

Lemma findUnknownBookkeeper_None (info : gmap string Z) (bks : list PublicKey) :
  findUnknownBookkeeper info bks = None ->
  forall bookkeeper, bookkeeper ∈ bks -> is_Some (info !! PubkeyID bookkeeper).
Proof.
  induction bks as [| bk bks IH]; intros Hfind bookkeeper Hin.
  - inversion Hin.
  - cbn [findUnknownBookkeeper] in Hfind.
    destruct (info !! PubkeyID bk) as [idx |] eqn:Hbk; [| discriminate].
    apply elem_of_cons in Hin as [-> | Hin]; [rewrite Hbk; eauto | auto].
Qed.

(** An accepted non-genesis header has passed the checks of the
    consensus in force. *)
Lemma verifyHeader_ok_inv (this : LedgerStoreImp) (header : Header)
    (info info' : gmap string Z) :
  Height header <> 0 ->
  verifyHeader this header info = (info', Ok tt) ->
  exists prevHeader,
    fst (GetHeaderByHash this (PrevBlockHash header)) = Some prevHeader /\
    if String.eqb (strings_ToLower Genesis_ConsensusType) "vbft" then
      let m := Z.of_nat (size info) - Z.quot (Z.of_nat (size info) * 6) 7 in
      (len (Bookkeepers header) <? m) = false /\
      findUnknownBookkeeper info (Bookkeepers header) = None /\
      VerifyMultiSignature (Header_Hash header) (Bookkeepers header) m (SigData header)
        = None /\
      exists blkInfo,
        VbftBlock header = Ok blkInfo /\
        info' = match NewChainConfig blkInfo with
                | Some cfg => peerInfoOf (Peers cfg) ∅
                | None => info
                end
    else
      let m := len (Bookkeepers header) - Z.quot (len (Bookkeepers header) - 1) 3 in
      AddressFromBookkeepers (Bookkeepers header) = (NextBookkeeper prevHeader, None) /\
      VerifyMultiSignature (Header_Hash header) (Bookkeepers header) m (SigData header)
        = None /\
      info' = info.
Proof.
  intros Hh Hv. unfold verifyHeader in Hv.
  destruct (Z.eqb_spec (Height header) 0) as [| _]; [contradiction |].
  destruct (GetHeaderByHash this (PrevBlockHash header)) as [[prev |] err] eqn:Hprev;
    [| destruct err as [[] |]; discriminate].
  exists prev. split; [reflexivity |].
  assert (Hgo : (u32 (Height prev + 1) =? Height header) = true /\
                (Timestamp header <=? Timestamp prev) = false).
  { destruct (u32 (Height prev + 1) =? Height header);
      destruct (Timestamp header <=? Timestamp prev);
      destruct err as [[] |]; simpl in Hv; try discriminate; auto. }
  destruct Hgo as [Hheight Htime].
  rewrite Hheight, Htime in Hv. cbn [negb] in Hv.
  assert (Hbody :
    (if String.eqb (strings_ToLower Genesis_ConsensusType) "vbft" then
       let m := Z.of_nat (size info) - Z.quot (Z.of_nat (size info) * 6) 7 in
       if len (Bookkeepers header) <? m then
         (info, Fail (Errorf "header Bookkeepers %d more than 6/7 len vbftPeerInfo%d"))
       else
       match findUnknownBookkeeper info (Bookkeepers header) with
       | Some _ => (info, Fail (Errorf "invalid pubkey :%v"))
       | None =>
       match VerifyMultiSignature (Header_Hash header) (Bookkeepers header) m
               (SigData header) with
       | Some err => (info, Fail err)
       | None =>
       match VbftBlock header with
       | Fail err => (info, Fail err)
       | Abort why => (info, Abort why)
       | Ok blkInfo =>
           match NewChainConfig blkInfo with
           | Some cfg => (peerInfoOf (Peers cfg) ∅, Ok tt)
           | None => (info, Ok tt)
           end
       end end end
     else
       match AddressFromBookkeepers (Bookkeepers header) with
       | (_, Some err) => (info, Fail err)
       | (address, None) =>
       if negb (N.eqb (NextBookkeeper prev) address) then
         (info, Fail (Errorf "bookkeeper address error"))
       else
       let m := len (Bookkeepers header) - Z.quot (len (Bookkeepers header) - 1) 3 in
       match VerifyMultiSignature (Header_Hash header) (Bookkeepers header) m
               (SigData header) with
       | Some err => (info, Fail err)
       | None => (info, Ok tt)
       end end) = (info', Ok tt)).
  { destruct err as [[] |]; try discriminate; exact Hv. }
  clear Hv.
  destruct (String.eqb (strings_ToLower Genesis_ConsensusType) "vbft").
  - cbv zeta in Hbody |- *.
    destruct (len (Bookkeepers header) <? _); [discriminate |].
    destruct (findUnknownBookkeeper info (Bookkeepers header)); [discriminate |].
    destruct (VerifyMultiSignature _ _ _ _); [discriminate |].
    destruct (VbftBlock header) as [blkInfo | |]; [| discriminate | discriminate].
    repeat split. exists blkInfo. split; [reflexivity |].
    destruct (NewChainConfig blkInfo); inversion Hbody; reflexivity.
  - cbv zeta in Hbody |- *.
    destruct (AddressFromBookkeepers (Bookkeepers header)) as [address [err' |]];
      [discriminate |].
    destruct (N.eqb_spec (NextBookkeeper prev) address) as [Haddr | Haddr];
      cbn [negb] in Hbody; [| discriminate].
    destruct (VerifyMultiSignature _ _ _ _); [discriminate |].
    inversion Hbody. subst. repeat split.
Qed.

(** X8.  Under the vbft consensus, a non-genesis header [verifyHeader]
    accepts against a table of [n] peers carries at least [m] bookkeepers,
    where [m = n - 6n/7] is a seventh of [n] rounded up (so at least one
    as soon as there is a peer); every bookkeeper is a peer of the table;
    and the multi-signature of the header hash has been verified for the
    threshold [m].  The table returned is the one built from the chain
    configuration of the header when it carries one, and the table given
    otherwise. *)
Theorem verifyHeader_vbft_quorum (this : LedgerStoreImp) (header : Header)
    (info info' : gmap string Z) :
  Height header <> 0 ->
  strings_ToLower Genesis_ConsensusType = "vbft" ->
  verifyHeader this header info = (info', Ok tt) ->
  let n := Z.of_nat (size info) in
  let m := n - Z.quot (n * 6) 7 in
  m <= len (Bookkeepers header) /\
  7 * (m - 1) < n <= 7 * m /\
  (forall bookkeeper, bookkeeper ∈ Bookkeepers header ->
     is_Some (info !! PubkeyID bookkeeper)) /\
  VerifyMultiSignature (Header_Hash header) (Bookkeepers header) m (SigData header) = None /\
  exists blkInfo,
    VbftBlock header = Ok blkInfo /\
    info' = match NewChainConfig blkInfo with
            | Some cfg => peerInfoOf (Peers cfg) ∅
            | None => info
            end.
Proof.
  intros Hh Hvbft Hv n m.
  destruct (verifyHeader_ok_inv this header info info' Hh Hv) as [prev [_ Hchecks]].
  rewrite Hvbft in Hchecks. cbn [String.eqb Ascii.eqb Bool.eqb] in Hchecks.
  cbv zeta in Hchecks. destruct Hchecks as (Hcount & Hknown & Hsig & Hinfo).
  fold n in Hcount, Hsig. fold m in Hcount, Hsig.
  split; [apply Z.ltb_ge; exact Hcount |].
  split.
  { subst m. rewrite Z.quot_div_nonneg by lia.
    pose proof (Z.div_mod (n * 6) 7 ltac:(lia)) as Hdiv.
    pose proof (Z.mod_pos_bound (n * 6) 7 ltac:(lia)) as Hmod. lia. }
  split; [apply findUnknownBookkeeper_None; exact Hknown |].
  split; [exact Hsig | exact Hinfo].
Qed.

(** X9.  Under any other consensus, a non-genesis header [verifyHeader]
    accepts has bookkeepers whose address is the [NextBookkeeper] of the
    header it follows, and the multi-signature of its hash has been
    verified for the threshold [m = k - (k-1)/3] of its [k] bookkeepers,
    more than two thirds of them; the peer table is returned as given. *)
Theorem verifyHeader_bookkeeper_check (this : LedgerStoreImp) (header : Header)
    (info info' : gmap string Z) :
  Height header <> 0 ->
  strings_ToLower Genesis_ConsensusType <> "vbft" ->
  verifyHeader this header info = (info', Ok tt) ->
  let k := len (Bookkeepers header) in
  let m := k - Z.quot (k - 1) 3 in
  info' = info /\
  (1 <= k -> 2 * k < 3 * m /\ m <= k) /\
  VerifyMultiSignature (Header_Hash header) (Bookkeepers header) m (SigData header) = None /\
  exists prevHeader,
    fst (GetHeaderByHash this (PrevBlockHash header)) = Some prevHeader /\
    AddressFromBookkeepers (Bookkeepers header) = (NextBookkeeper prevHeader, None).
Proof.
  intros Hh Hother Hv k m.
  destruct (verifyHeader_ok_inv this header info info' Hh Hv) as [prev [Hprev Hchecks]].
  destruct (String.eqb_spec (strings_ToLower Genesis_ConsensusType) "vbft") as [Heq | _];
    [contradiction |].
  cbv zeta in Hchecks. destruct Hchecks as (Haddr & Hsig & Hinfo).
  split; [exact Hinfo |].
  split.
  { intros Hk. subst m. rewrite Z.quot_div_nonneg by lia.
    pose proof (Z.div_mod (k - 1) 3 ltac:(lia)) as Hdiv.
    pose proof (Z.mod_pos_bound (k - 1) 3 ltac:(lia)) as Hmod. lia. }
  split; [exact Hsig |].
  exists prev. split; [exact Hprev | exact Haddr].
Qed.

(** *** The peer table of a chain configuration *)

Lemma peerInfoOf_lookup (peers : list PeerConfig) (acc : gmap string Z) (id : string) :
  peerInfoOf peers acc !! id =
  match last (filter (fun p => ID p = id) peers) with
  | Some p => Some (Index p)
  | None => acc !! id
  end.
Proof.
  revert acc. induction peers as [| p peers IH]; intros acc; [reflexivity |].
  cbn [peerInfoOf]. rewrite IH.
  destruct (decide (ID p = id)) as [Hid | Hid].
  - rewrite filter_cons_True by exact Hid.
    destruct (filter (fun p0 => ID p0 = id) peers) as [| q qs].
    + cbn. rewrite <- Hid, lookup_insert_eq. reflexivity.
    + change (last (p :: q :: qs)) with (last (q :: qs)).
      destruct (last (q :: qs)) eqn:Hlast; [reflexivity |].
      apply last_None in Hlast. discriminate.
  - rewrite filter_cons_False by exact Hid.
    destruct (last (filter (fun p0 => ID p0 = id) peers)); [reflexivity |].
    rewrite lookup_insert_ne by exact Hid. reflexivity.
Qed.

(** X10.  When an accepted header brings a new chain configuration, the
    peer table [verifyHeader] returns is built from that configuration
    alone: it has an entry for an identifier exactly when the
    configuration lists a peer with it, whatever the table held before,
    and the entry is the index of the last such peer in the list. *)
Theorem verifyHeader_new_config (this : LedgerStoreImp) (header : Header)
    (info info' : gmap string Z) (blkInfo : VbftBlockInfo) (cfg : ChainConfig) :
  Height header <> 0 ->
  strings_ToLower Genesis_ConsensusType = "vbft" ->
  verifyHeader this header info = (info', Ok tt) ->
  VbftBlock header = Ok blkInfo ->
  NewChainConfig blkInfo = Some cfg ->
  (forall id, is_Some (info' !! id) <-> exists p, p ∈ Peers cfg /\ ID p = id) /\
  (forall pre p post,
     Peers cfg = pre ++ p :: post -> Forall (fun q => ID q <> ID p) post ->
     info' !! ID p = Some (Index p)).
Proof.
  intros Hh Hvbft Hv Hblk Hcfg.
  destruct (verifyHeader_ok_inv this header info info' Hh Hv) as [prev [_ Hchecks]].
  rewrite Hvbft in Hchecks. cbn [String.eqb Ascii.eqb Bool.eqb] in Hchecks.
  cbv zeta in Hchecks. destruct Hchecks as (_ & _ & _ & blkInfo' & Hblk' & Hinfo).
  rewrite Hblk in Hblk'. inversion Hblk'; subst blkInfo'.
  rewrite Hcfg in Hinfo. subst info'. split.
  - intros id. rewrite peerInfoOf_lookup.
    destruct (last (filter (fun p => ID p = id) (Peers cfg))) as [p |] eqn:Hlast.
    + split; [intros _ | eauto].
      apply last_Some_elem_of in Hlast. apply list_elem_of_filter in Hlast.
      exists p. tauto.
    + rewrite lookup_empty. split; [intros [x Hx]; discriminate |].
      intros [p [Hin Hid]]. apply last_None in Hlast.
      assert (Hp : p ∈ filter (fun p0 => ID p0 = id) (Peers cfg))
        by (apply list_elem_of_filter; auto).
      rewrite Hlast in Hp. inversion Hp.
  - intros pre p post Hsplit Hpost. rewrite peerInfoOf_lookup, Hsplit.
    rewrite filter_app, filter_cons_True by reflexivity.
    assert (Hnone : filter (fun q => ID q = ID p) post = []).
    { clear Hsplit. induction Hpost as [| q post Hq _ IH]; [reflexivity |].
      rewrite filter_cons_False by exact Hq. exact IH. }
    rewrite Hnone, last_snoc. reflexivity.
Qed.

(** ** What the commit leaves in memory *)

Lemma bind_ok_inv {A B} (c : M A) (k : A -> M B) (w w' : World) (b : B) :
  bind c k w = (w', Ok b) -> exists a w1, c w = (w1, Ok a) /\ k a w1 = (w', Ok b).
Proof.
  unfold bind. destruct (c w) as [w1 [a | e | s]]; [eauto | discriminate | discriminate].
Qed.

Lemma try_ok_inv {A} (c : M A) (wrap : error -> error) (w w' : World) (a : A) :
  try c wrap w = (w', Ok a) -> c w = (w', Ok a).
Proof.
  unfold try. destruct (c w) as [w1 [a1 | e | s]]; [auto | discriminate | auto].
Qed.

Lemma exec_try {A} (c : M A) (wrap : error -> error) (w : World) :
  exec (try c wrap) w = exec c w.
Proof. unfold exec, try. destruct (c w) as [w1 [a1 | e | s]]; reflexivity. Qed.

Lemma exec_bind_ok {A B} (c : M A) (k : A -> M B) (w w1 : World) (a : A) :
  c w = (w1, Ok a) -> exec (bind c k) w = exec (k a) w1.
Proof. intros Hc. unfold exec, bind. rewrite Hc. reflexivity. Qed.

Create HintDb keeps.

Section Frame.
Variable X : Type.
Variable part : LedgerStoreImp -> X.
Hypothesis part_blockStore : forall s l, part (set_blockStore s l) = part l.
Hypothesis part_stateStore : forall s l, part (set_stateStore s l) = part l.
Hypothesis part_eventStore : forall s l, part (set_eventStore s l) = part l.
Hypothesis part_storedIndexCount : forall v l, part (set_storedIndexCount v l) = part l.
Hypothesis part_currBlock : forall h x l, part (set_currBlock h x l) = part l.

Lemma keeps_ret {A} (a : A) : keeps part (ret a).
Proof. intros w. reflexivity. Qed.

Lemma keeps_fail {A} (e : error) : keeps part (fail e : M A).
Proof. intros w. reflexivity. Qed.

Lemma keeps_abort {A} (s : string) : keeps part (abort s : M A).
Proof. intros w. reflexivity. Qed.

Lemma keeps_liftResult {A} (r : Result A) : keeps part (liftResult r).
Proof. intros w. reflexivity. Qed.

Lemma keeps_getLedger : keeps part getLedger.
Proof. intros w. reflexivity. Qed.

Lemma keeps_check (err : option error) (wrap : error -> error) :
  keeps part (check err wrap).
Proof. intros w. destruct err; reflexivity. Qed.

Lemma keeps_emit (ev : Effect) : keeps part (emit ev).
Proof. intros w. reflexivity. Qed.

Lemma keeps_modifyLedger (f : LedgerStoreImp -> LedgerStoreImp) :
  (forall l, part (f l) = part l) -> keeps part (modifyLedger f).
Proof. intros Hf w. unfold exec, modifyLedger. cbn. apply Hf. Qed.

Lemma keeps_bind {A B} (c : M A) (k : A -> M B) :
  keeps part c -> (forall a, keeps part (k a)) -> keeps part (bind c k).
Proof.
  intros Hc Hk w. specialize (Hc w). unfold exec, bind in *.
  destruct (c w) as [w1 [a | e | s]]; cbn in *; [| exact Hc | exact Hc].
  specialize (Hk a w1). unfold exec in Hk. rewrite Hk. exact Hc.
Qed.

Lemma keeps_try {A} (c : M A) (wrap : error -> error) :
  keeps part c -> keeps part (try c wrap).
Proof. intros Hc w. rewrite exec_try. apply Hc. Qed.

Lemma keeps_onBlockStore {A} (op : BlockStore -> BlockStore * A) :
  keeps part (onBlockStore op).
Proof.
  intros w. unfold exec, onBlockStore, bind, getLedger, modifyLedger, ret.
  destruct (op (blockStore (ledger w))) as [s a]. cbn. apply part_blockStore.
Qed.

Lemma keeps_onStateStore {A} (op : StateStore -> StateStore * A) :
  keeps part (onStateStore op).
Proof.
  intros w. unfold exec, onStateStore, bind, getLedger, modifyLedger, ret.
  destruct (op (stateStore (ledger w))) as [s a]. cbn. apply part_stateStore.
Qed.

Lemma keeps_onEventStore {A} (op : EventStore -> EventStore * A) :
  keeps part (onEventStore op).
Proof.
  intros w. unfold exec, onEventStore, bind, getLedger, modifyLedger, ret.
  destruct (op (eventStore (ledger w))) as [s a]. cbn. apply part_eventStore.
Qed.

(** What follows a step that leaves the part alone leaves it as that
    step's successor does. *)
Lemma keeps_after {A B} (c : M A) (k : A -> M B) (w : World) :
  (forall a, keeps part (k a)) ->
  part (ledger (exec (bind c k) w)) = part (ledger (exec c w)).
Proof.
  intros Hk. unfold exec, bind.
  destruct (c w) as [w1 [a | e | s]]; cbn; [| reflexivity | reflexivity].
  apply (Hk a w1).
Qed.

#[local] Hint Resolve keeps_ret keeps_fail keeps_abort keeps_liftResult keeps_getLedger
  keeps_check keeps_emit keeps_onBlockStore keeps_onStateStore keeps_onEventStore : keeps.

Ltac keeps_step :=
  match goal with
  | |- keeps _ (bind _ _) => apply keeps_bind; [| intros]
  | |- keeps _ (try _ _) => apply keeps_try
  | |- keeps _ (modifyLedger _) =>
      apply keeps_modifyLedger; intros;
      first [apply part_storedIndexCount | apply part_currBlock]
  | |- keeps _ (match ?x with _ => _ end) => destruct x
  | |- keeps _ _ => solve [auto with keeps]
  end.

Ltac keeps_auto := repeat keeps_step.

Lemma keeps_NewBatch :
  keeps part blockStore_NewBatch /\ keeps part stateStore_NewBatch /\
  keeps part eventStore_NewBatch.
Proof.
  unfold blockStore_NewBatch, stateStore_NewBatch, eventStore_NewBatch.
  repeat split; keeps_auto.
Qed.

Lemma keeps_CommitTo :
  keeps part blockStore_CommitTo /\ keeps part stateStore_CommitTo /\
  keeps part eventStore_CommitTo.
Proof.
  unfold blockStore_CommitTo, stateStore_CommitTo, eventStore_CommitTo.
  repeat split; keeps_auto.
Qed.

Lemma keeps_setCurrentBlock (height : Z) (blockHash : Uint256) :
  keeps part (setCurrentBlock height blockHash).
Proof. unfold setCurrentBlock. keeps_auto. Qed.

Lemma keeps_saveHeaderIndexList : keeps part saveHeaderIndexList.
Proof. unfold saveHeaderIndexList. keeps_auto. Qed.

Lemma keeps_saveEventNotifies (notifies : list ExecuteNotify) :
  keeps part (saveEventNotifies notifies).
Proof. induction notifies; cbn [saveEventNotifies]; keeps_auto. Qed.

Lemma keeps_saveShardState (block : Block) (result : ExecuteResult) :
  keeps part (saveShardState block result).
Proof. unfold saveShardState. keeps_auto. Qed.

#[local] Hint Resolve keeps_setCurrentBlock keeps_saveHeaderIndexList
  keeps_saveEventNotifies keeps_saveShardState : keeps.

Lemma keeps_saveBlockToStateStore (block : Block) (result : ExecuteResult) :
  keeps part (saveBlockToStateStore block result).
Proof. unfold saveBlockToStateStore. keeps_auto. Qed.

Lemma keeps_saveBlockToEventStore (block : Block) :
  keeps part (saveBlockToEventStore block).
Proof. unfold saveBlockToEventStore. keeps_auto. Qed.

Lemma keeps_addShardEventConfig (height : Z) (shardID : ShardID) (cfg : ShardConfig)
    (peers : gmap string PeerShardStakeInfo) :
  keeps part (addShardEventConfig height shardID cfg peers).
Proof. unfold addShardEventConfig. keeps_auto. Qed.

#[local] Hint Resolve keeps_saveBlockToStateStore keeps_saveBlockToEventStore
  keeps_addShardEventConfig : keeps.

Lemma keeps_saveCrossShardGovernanceData (shardEvts : list ShardSystemEventMsg)
    (overlayDB : option MemDB) :
  keeps part (saveCrossShardGovernanceData shardEvts overlayDB).
Proof.
  induction shardEvts as [| evt rest IH]; cbn [saveCrossShardGovernanceData];
    keeps_auto.
Qed.

Lemma keeps_saveParentShardConfig (block : Block) : keeps part (saveParentShardConfig block).
Proof. unfold saveParentShardConfig. keeps_auto. Qed.

Lemma keeps_saveContractMetaData (metaEvents : list MetaDataEvent) :
  keeps part (saveContractMetaData metaEvents).
Proof. induction metaEvents; cbn [saveContractMetaData]; keeps_auto. Qed.

Lemma keeps_saveCrossShardDeployContractEventData
    (contractEvents : list ContractLifetimeEvent) :
  keeps part (saveCrossShardDeployContractEventData contractEvents).
Proof.
  induction contractEvents; cbn [saveCrossShardDeployContractEventData]; keeps_auto.
Qed.

#[local] Hint Resolve keeps_saveCrossShardGovernanceData keeps_saveParentShardConfig
  keeps_saveContractMetaData keeps_saveCrossShardDeployContractEventData : keeps.

Lemma keeps_saveCrossShardDataToStore (block : Block) (result : ExecuteResult) :
  keeps part (saveCrossShardDataToStore block result).
Proof. unfold saveCrossShardDataToStore. keeps_auto. Qed.

Lemma keeps_submitBlock_commit (block : Block) (result : ExecuteResult) :
  keeps part (submitBlock_commit block result).
Proof.
  destruct keeps_CommitTo as (Hb & Hs & He).
  unfold submitBlock_commit. keeps_auto.
Qed.

(** [saveBlockToBlockStore] sets the index entry of the block first; all
    it does afterwards leaves the part alone. *)
Lemma part_saveBlockToBlockStore (block : Block) (w : World) :
  part (ledger (exec (saveBlockToBlockStore block) w)) =
  part (ledger (exec (setHeaderIndex (Height (BlockHeader block)) (Block_Hash block)) w)).
Proof.
  unfold saveBlockToBlockStore. apply keeps_after. intros _. keeps_auto.
Qed.

(** The three batches are opened, the block store part is written, and the
    rest of the saving leaves the part alone. *)
Lemma part_submitBlock_save (block : Block) (result : ExecuteResult) (w : World) :
  exists w3,
    part (ledger w3) = part (ledger w) /\
    part (ledger (exec (submitBlock_save block result) w)) =
    part (ledger (exec (setHeaderIndex (Height (BlockHeader block)) (Block_Hash block))
                   w3)) /\
    headerIndex (ledger w3) = headerIndex (ledger w).
Proof.
  destruct keeps_NewBatch as (Hb & Hs & He).
  set (w1 := exec blockStore_NewBatch w).
  set (w2 := exec stateStore_NewBatch w1).
  set (w3 := exec eventStore_NewBatch w2).
  assert (H1 : blockStore_NewBatch w = (w1, Ok tt)).
  { subst w1. unfold exec, blockStore_NewBatch, onBlockStore, bind, getLedger,
      modifyLedger, ret, emit. reflexivity. }
  assert (H2 : stateStore_NewBatch w1 = (w2, Ok tt)).
  { subst w2. unfold exec, stateStore_NewBatch, onStateStore, bind, getLedger,
      modifyLedger, ret, emit. reflexivity. }
  assert (H3 : eventStore_NewBatch w2 = (w3, Ok tt)).
  { subst w3. unfold exec, eventStore_NewBatch, onEventStore, bind, getLedger,
      modifyLedger, ret, emit. reflexivity. }
  exists w3. split; [| split].
  - subst w3 w2 w1. rewrite He, Hs, Hb. reflexivity.
  - unfold submitBlock_save.
    rewrite (exec_bind_ok _ _ w w1 tt H1), (exec_bind_ok _ _ w1 w2 tt H2),
      (exec_bind_ok _ _ w2 w3 tt H3).
    rewrite keeps_after by (intros; keeps_auto;
      auto using keeps_saveCrossShardDataToStore).
    rewrite exec_try. apply part_saveBlockToBlockStore.
  - subst w3 w2 w1.
    unfold exec, eventStore_NewBatch, stateStore_NewBatch, blockStore_NewBatch,
      onEventStore, onStateStore, onBlockStore, bind, getLedger, modifyLedger, ret, emit.
    reflexivity.
Qed.

End Frame.

(** The header index after the saving half of [submitBlock], however it
    ends, and the parts the whole of it leaves alone. *)
Lemma submitBlock_body_memory (block : Block) (result : ExecuteResult) (w : World) :
  let w' := exec (submitBlock_save block result ;;; submitBlock_commit block result) w in
  headerIndex (ledger w') =
    <[Height (BlockHeader block) := Block_Hash block]> (headerIndex (ledger w)) /\
  headerCache (ledger w') = headerCache (ledger w) /\
  peerTables (ledger w') = peerTables (ledger w).
Proof.
  cbv zeta. split; [| split].
  - rewrite (keeps_after _ headerIndex) by
      (intros; apply keeps_submitBlock_commit; reflexivity).
    destruct (part_submitBlock_save _ headerIndex ltac:(reflexivity) ltac:(reflexivity)
                ltac:(reflexivity) ltac:(reflexivity) block result w)
      as (w3 & _ & Hsave & Hidx).
    rewrite Hsave, <- Hidx. reflexivity.
  - rewrite (keeps_after _ headerCache) by
      (intros; apply keeps_submitBlock_commit; reflexivity).
    destruct (part_submitBlock_save _ headerCache ltac:(reflexivity) ltac:(reflexivity)
                ltac:(reflexivity) ltac:(reflexivity) block result w)
      as (w3 & Hsame & Hsave & _).
    rewrite Hsave, <- Hsame. reflexivity.
  - rewrite (keeps_after _ peerTables) by
      (intros; apply keeps_submitBlock_commit; reflexivity).
    destruct (part_submitBlock_save _ peerTables ltac:(reflexivity) ltac:(reflexivity)
                ltac:(reflexivity) ltac:(reflexivity) block result w)
      as (w3 & Hsame & Hsave & _).
    rewrite Hsave, <- Hsame. reflexivity.
Qed.

Lemma submitBlock_past_root (block : Block) (result : ExecuteResult) (w : World)
    (blockRoot : Uint256) :
  GetBlockRootWithNewTxRoots (ledger w) (Height (BlockHeader block))
    [TransactionsRoot (BlockHeader block)] = Ok blockRoot ->
  Height (BlockHeader block) = 0 \/ blockRoot = BlockRoot (BlockHeader block) ->
  submitBlock block result w =
  (submitBlock_save block result ;;; submitBlock_commit block result) w.
Proof.
  intros Hroot Hpass. rewrite submitBlock_phases, Hroot.
  unfold bind at 1, liftResult at 1.
  destruct Hpass as [Hgenesis | Hsame].
  - rewrite Hgenesis. reflexivity.
  - rewrite Hsame, N.eqb_refl, andb_false_r. reflexivity.
Qed.

Lemma submitBlock_pointer_on_error (block : Block) (result : ExecuteResult) (w : World) :
  outcome (submitBlock_save block result ;;; submitBlock_commit block result) w <> Ok tt ->
  pointer (exec (submitBlock_save block result ;;; submitBlock_commit block result) w)
  = pointer w.
Proof.
  intros Hfail. unfold exec, outcome, bind in *.
  pose proof (quiet_submitBlock_save block result w) as [Hsave _]. unfold exec in Hsave.
  destruct (submitBlock_save block result w) as [w1 [[] | e | s]]; cbn in *;
    [| exact Hsave | exact Hsave].
  destruct (submitBlock_commit_cases block result w1)
    as [t [_ [(_ & _ & Hp) | [(_ & _ & Hp) | [(_ & _ & Hp) | (_ & Hok & _)]]]]];
    unfold exec, outcome in *; try congruence.
Qed.

(** X11.  Once [submitBlock] is past the block-root check, the header
    index maps the block's height to the block's hash when the call
    returns, whether it returns nil or an error: the entry is written
    before anything is saved and is not taken back when saving or
    committing fails.  The header cache and the two peer tables are left
    as they were, and on an error so is the current block. *)
Theorem submitBlock_index_entry_stays (block : Block) (result : ExecuteResult) (w : World)
    (blockRoot : Uint256) :
  GetBlockRootWithNewTxRoots (ledger w) (Height (BlockHeader block))
    [TransactionsRoot (BlockHeader block)] = Ok blockRoot ->
  Height (BlockHeader block) = 0 \/ blockRoot = BlockRoot (BlockHeader block) ->
  let w' := exec (submitBlock block result) w in
  GetBlockHash (ledger w') (Height (BlockHeader block)) = Block_Hash block /\
  (forall h, h <> Height (BlockHeader block) ->
     GetBlockHash (ledger w') h = GetBlockHash (ledger w) h) /\
  headerCache (ledger w') = headerCache (ledger w) /\
  peerTables (ledger w') = peerTables (ledger w) /\
  (outcome (submitBlock block result) w <> Ok tt ->
   GetCurrentBlock (ledger w') = GetCurrentBlock (ledger w)).
Proof.
  intros Hroot Hpass w'.
  assert (Hbody : submitBlock block result w =
                  (submitBlock_save block result ;;; submitBlock_commit block result) w)
    by (eapply submitBlock_past_root; eauto).
  destruct (submitBlock_body_memory block result w) as (Hidx & Hcache & Htables).
  subst w'. unfold exec, outcome in *. rewrite Hbody.
  unfold GetBlockHash, getHeaderIndex. rewrite Hidx.
  split; [rewrite lookup_insert_eq; reflexivity |].
  split; [intros h Hne; rewrite lookup_insert_ne by congruence; reflexivity |].
  split; [exact Hcache |]. split; [exact Htables |].
  intros Hfail.
  exact (submitBlock_pointer_on_error block result w Hfail).
Qed.

(** What a successful [SubmitBlock] of a block above the current height
    has gone through. *)
Lemma SubmitBlock_ok_inv (block : Block) (result : ExecuteResult) (w w' : World) :
  currBlockHeight (ledger w) < Height (BlockHeader block) ->
  SubmitBlock block result w = (w', Ok tt) ->
  Height (BlockHeader block) = u32 (currBlockHeight (ledger w) + 1) /\
  exists info w1 w2,
    verifyHeader (ledger w) (BlockHeader block) (vbftPeerInfoblock (ledger w))
      = (info, Ok tt) /\
    w1 = {| ledger := set_vbftPeerInfoblock info (ledger w);
            GAS_TABLE := GAS_TABLE w; trace := trace w |} /\
    submitBlock block result w1 = (w2, Ok tt) /\
    w' = exec (delHeaderCache (Block_Hash block)) w2.
Proof.
  intros Habove. unfold SubmitBlock, bind at 1, getLedger at 1, GetCurrentBlockHeight.
  destruct (Z.leb_spec (Height (BlockHeader block)) (currBlockHeight (ledger w)));
    [lia |].
  destruct (Z.eqb_spec (Height (BlockHeader block)) (u32 (currBlockHeight (ledger w) + 1)))
    as [Hnext | Hgap]; cbn [negb]; [| discriminate].
  destruct (verifyHeader (ledger w) (BlockHeader block) (vbftPeerInfoblock (ledger w)))
    as [info r] eqn:Hv.
  intros Hrun. split; [exact Hnext |].
  apply bind_ok_inv in Hrun as ([] & w1 & Hw1 & Hrun).
  unfold modifyLedger in Hw1. injection Hw1 as Hw1.
  apply bind_ok_inv in Hrun as ([] & w1' & Hlift & Hrun).
  apply try_ok_inv in Hlift. unfold liftResult in Hlift.
  injection Hlift as Hsame Hr. subst w1' r.
  apply bind_ok_inv in Hrun as ([] & w2 & Hsubmit & Hdel).
  apply try_ok_inv in Hsubmit.
  exists info, w1, w2.
  split; [reflexivity |]. split; [symmetry; exact Hw1 |]. split; [exact Hsubmit |].
  unfold exec. rewrite Hdel. reflexivity.
Qed.

Lemma submitBlock_ok_body (block : Block) (result : ExecuteResult) (w w' : World) :
  submitBlock block result w = (w', Ok tt) ->
  (submitBlock_save block result ;;; submitBlock_commit block result) w = (w', Ok tt).
Proof.
  rewrite submitBlock_phases. intros Hrun.
  apply bind_ok_inv in Hrun as (blockRoot & w1 & Hroot & Hrun).
  unfold liftResult in Hroot. inversion Hroot; subst w1.
  destruct (negb (Height (BlockHeader block) =? 0)
            && negb (N.eqb blockRoot (BlockRoot (BlockHeader block))));
    [discriminate | exact Hrun].
Qed.

Lemma submitBlock_ok_pointer (block : Block) (result : ExecuteResult) (w w' : World) :
  (submitBlock_save block result ;;; submitBlock_commit block result) w = (w', Ok tt) ->
  pointer w' = (Height (BlockHeader block), Block_Hash block).
Proof.
  intros Hrun. apply bind_ok_inv in Hrun as ([] & w1 & _ & Hcommit).
  destruct (submitBlock_commit_cases block result w1)
    as [t [_ [(_ & [e He] & _) | [(_ & [e He] & _) | [(_ & [e He] & _) | (_ & _ & Hp)]]]]];
    unfold exec, outcome in *; rewrite Hcommit in *; cbn in *;
    [discriminate | discriminate | discriminate | exact Hp].
Qed.

(** X12.  A successful [SubmitBlock] of a block above the current height
    [H] leaves the ledger store exactly one block further: the block has
    height [H + 1], the current block is that height with the block's
    hash, the header index maps the height to the hash and is unchanged
    elsewhere, the block's entry is gone from the header cache (other
    entries stay), the block peer table is the one [verifyHeader]
    returned, and the header peer table is untouched. *)
Theorem SubmitBlock_success (block : Block) (result : ExecuteResult) (w w' : World) :
  isU32 (currBlockHeight (ledger w)) ->
  currBlockHeight (ledger w) < Height (BlockHeader block) ->
  SubmitBlock block result w = (w', Ok tt) ->
  Height (BlockHeader block) = currBlockHeight (ledger w) + 1 /\
  GetCurrentBlock (ledger w') = (currBlockHeight (ledger w) + 1, Block_Hash block) /\
  GetBlockHash (ledger w') (Height (BlockHeader block)) = Block_Hash block /\
  (forall h, h <> Height (BlockHeader block) ->
     GetBlockHash (ledger w') h = GetBlockHash (ledger w) h) /\
  headerCache (ledger w') = delete (Block_Hash block) (headerCache (ledger w)) /\
  verifyHeader (ledger w) (BlockHeader block) (vbftPeerInfoblock (ledger w))
    = (vbftPeerInfoblock (ledger w'), Ok tt) /\
  vbftPeerInfoheader (ledger w') = vbftPeerInfoheader (ledger w).
Proof.
  intros Hcur Habove Hrun.
  destruct (SubmitBlock_ok_inv block result w w' Habove Hrun)
    as (Hnext & info & w1 & w2 & Hv & Hw1 & Hsubmit & Hw').
  assert (Hheight : Height (BlockHeader block) = currBlockHeight (ledger w) + 1).
  { unfold isU32, MaxUint32 in Hcur.
    destruct (Z.eq_dec (currBlockHeight (ledger w)) (2 ^ 32 - 1)) as [Hmax | Hlt].
    - rewrite Hmax in Hnext. replace (u32 (2 ^ 32 - 1 + 1)) with 0 in Hnext by reflexivity.
      lia.
    - rewrite u32_small in Hnext by lia. exact Hnext. }
  apply submitBlock_ok_body in Hsubmit.
  pose proof (submitBlock_ok_pointer block result w1 w2 Hsubmit) as Hpointer.
  destruct (submitBlock_body_memory block result w1) as (Hidx & Hcache & Htables).
  unfold exec in Hidx, Hcache, Htables. rewrite Hsubmit in Hidx, Hcache, Htables.
  cbn [fst] in Hidx, Hcache, Htables.
  unfold pointer in Hpointer. inversion Hpointer as [[Hph Phh]].
  assert (Hl1 : ledger w1 = set_vbftPeerInfoblock info (ledger w))
    by (rewrite Hw1; reflexivity).
  rewrite Hl1 in Hidx, Hcache, Htables.
  unfold peerTables in Htables. cbn in Hidx, Hcache, Htables.
  inversion Htables as [[Hheader Hblock]].
  subst w'. unfold exec, delHeaderCache, modifyLedger, GetCurrentBlock, GetBlockHash,
    getHeaderIndex. cbn.
  rewrite Hph, Phh, Hidx, Hcache, Hheader, Hblock.
  split; [exact Hheight |].
  split; [rewrite Hheight; reflexivity |].
  split; [rewrite lookup_insert_eq; reflexivity |].
  split; [intros h Hne; rewrite lookup_insert_ne by congruence; reflexivity |].
  split; [reflexivity |]. split; [exact Hv | reflexivity].
Qed.

(** X13.  Submitting again a block that has just been committed is a
    no-op: the second call returns nil and changes nothing, whatever
    execution result it is given. *)
Theorem SubmitBlock_again (block : Block) (result result' : ExecuteResult)
    (w w' : World) :
  isU32 (currBlockHeight (ledger w)) ->
  currBlockHeight (ledger w) < Height (BlockHeader block) ->
  SubmitBlock block result w = (w', Ok tt) ->
  SubmitBlock block result' w' = (w', Ok tt).
Proof.
  intros Hcur Habove Hrun.
  destruct (SubmitBlock_ok_inv block result w w' Habove Hrun)
    as (_ & info & w1 & w2 & _ & _ & Hsubmit & Hw').
  apply submitBlock_ok_body in Hsubmit.
  pose proof (submitBlock_ok_pointer block result w1 w2 Hsubmit) as Hpointer.
  apply SubmitBlock_replay. subst w'.
  unfold pointer in Hpointer. injection Hpointer as Hheight _.
  unfold exec, delHeaderCache, modifyLedger. cbn. lia.
Qed.

(** X14.  A block at the next height whose header is accepted but whose
    [BlockRoot] is not the root the ledger computes is turned down by
    [SubmitBlock] with the wrong-block-root error before any batch is
    opened; the one thing the call has changed by then is the block peer
    table, which already is the table [verifyHeader] returned. *)
Theorem SubmitBlock_wrong_block_root (block : Block) (result : ExecuteResult) (w : World)
    (info : gmap string Z) (blockRoot : Uint256) :
  0 <= currBlockHeight (ledger w) < Height (BlockHeader block) ->
  Height (BlockHeader block) = u32 (currBlockHeight (ledger w) + 1) ->
  verifyHeader (ledger w) (BlockHeader block) (vbftPeerInfoblock (ledger w))
    = (info, Ok tt) ->
  GetBlockRootWithNewTxRoots (ledger w) (Height (BlockHeader block))
    [TransactionsRoot (BlockHeader block)] = Ok blockRoot ->
  blockRoot <> BlockRoot (BlockHeader block) ->
  SubmitBlock block result w =
  ({| ledger := set_vbftPeerInfoblock info (ledger w);
      GAS_TABLE := GAS_TABLE w; trace := trace w |},
   Fail (Wrapf "saveBlock error %s"
           (Errorf "wrong block root at height:%d, expected:%s, got:%s"))).
Proof.
  intros Habove Hnext Hv Hroot Hwrong.
  rewrite SubmitBlock_next by (lia || exact Hnext).
  unfold SubmitBlock_proceed, bind at 1, getLedger at 1. rewrite Hv.
  unfold bind at 1, modifyLedger at 1.
  unfold bind at 1, try at 1, liftResult at 1.
  unfold bind at 1, try at 1.
  rewrite (submitBlock_wrong_root block result _ blockRoot);
    [reflexivity | lia | exact Hroot | exact Hwrong].
Qed.

(** ** Saving and loading the header index *)

Lemma saveHeaderIndexList_run (w : World) :
  0 <= storedIndexCount (ledger w) ->
  storedIndexCount (ledger w) <= currBlockHeight (ledger w) <= MaxUint32 ->
  saveHeaderIndexList w =
  if currBlockHeight (ledger w) - storedIndexCount (ledger w) <? HEADER_INDEX_BATCH_SIZE
  then (w, Ok tt)
  else
    let batch := GetBlockHash (ledger w)
                   <$> seqZ (storedIndexCount (ledger w)) HEADER_INDEX_BATCH_SIZE in
    let saved := bs_SaveHeaderIndexList (blockStore (ledger w))
                   (storedIndexCount (ledger w)) batch in
    match snd saved with
    | None =>
        ({| ledger := set_storedIndexCount
                        (storedIndexCount (ledger w) + HEADER_INDEX_BATCH_SIZE)
                        (set_blockStore (fst saved) (ledger w));
            GAS_TABLE := GAS_TABLE w; trace := trace w |}, Ok tt)
    | Some err =>
        ({| ledger := set_blockStore (fst saved) (ledger w);
            GAS_TABLE := GAS_TABLE w; trace := trace w |},
         Fail (Wrapf "SaveHeaderIndexList start %d error %s" err))
    end.
Proof.
  intros Hstored Hcurr. unfold MaxUint32, HEADER_INDEX_BATCH_SIZE in *.
  unfold saveHeaderIndexList, bind at 1, getLedger at 1.
  rewrite u32_small by lia. unfold HEADER_INDEX_BATCH_SIZE.
  destruct (Z.ltb_spec (currBlockHeight (ledger w) - storedIndexCount (ledger w)) 2000)
    as [Hfew | Hmany]; [reflexivity |].
  assert (Hbatch :
    map (fun i : nat => getHeaderIndex (ledger w)
                          (u32 (storedIndexCount (ledger w) + Z.of_nat i)))
        (seq 0 (Z.to_nat 2000))
    = GetBlockHash (ledger w) <$> seqZ (storedIndexCount (ledger w)) 2000).
  { unfold seqZ. rewrite <- list_fmap_compose. apply map_ext_in.
    intros i Hi. apply in_seq in Hi. cbn [compose]. unfold GetBlockHash.
    rewrite u32_small by lia. f_equal. lia. }
  rewrite Hbatch. cbv zeta.
  unfold onBlockStore, bind, getLedger, modifyLedger, ret, check, fail.
  destruct (bs_SaveHeaderIndexList _ _ _) as [s [err |]]; cbn; [reflexivity |].
  rewrite u32_small by lia. reflexivity.
Qed.

(** X15.  [saveHeaderIndexList] keeps the number of stored index entries
    at or below the current block height.  With fewer than 2000 heights
    not yet stored it does nothing.  Otherwise it hands the block store
    the index entries of the next 2000 heights, in order (the empty hash
    where the index has no entry); when the store accepts them the count
    grows by exactly 2000, and when it does not the count stays and the
    store's error is returned wrapped.  The header index, the header
    cache, the current block and the log are never touched. *)
Theorem saveHeaderIndexList_batch (w : World) :
  0 <= storedIndexCount (ledger w) ->
  storedIndexCount (ledger w) <= currBlockHeight (ledger w) <= MaxUint32 ->
  let stored := storedIndexCount (ledger w) in
  let curr := currBlockHeight (ledger w) in
  let w' := exec saveHeaderIndexList w in
  (curr - stored < HEADER_INDEX_BATCH_SIZE -> saveHeaderIndexList w = (w, Ok tt)) /\
  (HEADER_INDEX_BATCH_SIZE <= curr - stored ->
     let batch := GetBlockHash (ledger w) <$> seqZ stored HEADER_INDEX_BATCH_SIZE in
     blockStore (ledger w') = fst (bs_SaveHeaderIndexList (blockStore (ledger w)) stored batch) /\
     match snd (bs_SaveHeaderIndexList (blockStore (ledger w)) stored batch) with
     | None =>
         outcome saveHeaderIndexList w = Ok tt /\
         storedIndexCount (ledger w') = stored + HEADER_INDEX_BATCH_SIZE
     | Some err =>
         outcome saveHeaderIndexList w =
           Fail (Wrapf "SaveHeaderIndexList start %d error %s" err) /\
         storedIndexCount (ledger w') = stored
     end) /\
  storedIndexCount (ledger w') <= currBlockHeight (ledger w') /\
  headers (ledger w') = headers (ledger w) /\
  GetCurrentBlock (ledger w') = GetCurrentBlock (ledger w) /\
  trace w' = trace w.
Proof.
  intros Hstored Hcurr stored curr w'. subst stored curr w'.
  unfold exec, outcome. rewrite saveHeaderIndexList_run by assumption.
  unfold MaxUint32, HEADER_INDEX_BATCH_SIZE in *.
  destruct (Z.ltb_spec (currBlockHeight (ledger w) - storedIndexCount (ledger w)) 2000)
    as [Hfew | Hmany].
  - cbn. repeat split; try lia.
  - cbv zeta.
    destruct (bs_SaveHeaderIndexList _ _ _) as [s [err |]]; cbn;
      repeat split; try lia.
Qed.

(** The loop of [loadHeaderIndexList]: [n] rounds from height [i]. *)
Lemma loadBlockHashes_ok (n : nat) (i : Z) (w w' : World) :
  0 <= i -> i + Z.of_nat n <= 2 ^ 32 ->
  loadBlockHashes n i w = (w', Ok tt) ->
  (forall h, i <= h < i + Z.of_nat n ->
     exists blockHash,
       bs_GetBlockHash (blockStore (ledger w)) h = (blockHash, None) /\
       blockHash <> UINT256_EMPTY /\
       headerIndex (ledger w') !! h = Some blockHash) /\
  (forall h, ~ (i <= h < i + Z.of_nat n) ->
     headerIndex (ledger w') !! h = headerIndex (ledger w) !! h) /\
  w' = {| ledger := set_headerIndex (headerIndex (ledger w')) (ledger w);
          GAS_TABLE := GAS_TABLE w; trace := trace w |}.
Proof.
  revert i w. induction n as [| n IH]; intros i w Hi Hfit Hrun.
  - cbn in Hrun. injection Hrun as <-.
    split; [intros h Hh; lia |]. split; [reflexivity |].
    destruct w as [l g t]. destruct l. reflexivity.
  - cbn [loadBlockHashes] in Hrun. unfold bind at 1, getLedger at 1 in Hrun.
    destruct (bs_GetBlockHash (blockStore (ledger w)) i) as [blockHash err] eqn:Hread.
    destruct err as [e |]; [discriminate |].
    unfold bind at 1, check at 1, ret at 1 in Hrun.
    destruct (N.eqb_spec blockHash UINT256_EMPTY) as [Hempty | Hfull]; [discriminate |].
    unfold bind at 1, setHeaderIndex at 1, modifyLedger at 1 in Hrun.
    set (w1 := {| ledger := set_headerIndex (<[i := blockHash]> (headerIndex (ledger w)))
                              (ledger w);
                  GAS_TABLE := GAS_TABLE w; trace := trace w |}) in Hrun.
    destruct n as [| n'].
    + cbn in Hrun. injection Hrun as <-. subst w1. cbn.
      split; [| split; [| reflexivity]].
      * intros h Hh. assert (h = i) by lia. subst h.
        exists blockHash. rewrite lookup_insert_eq. auto.
      * intros h Hh. rewrite lookup_insert_ne by lia. reflexivity.
    + rewrite (u32_small (i + 1)) in Hrun by lia.
      destruct (IH (i + 1) w1 ltac:(lia) ltac:(lia) Hrun) as (Hloaded & Hrest & Hshape).
      split; [| split].
      * intros h Hh. destruct (Z.eq_dec h i) as [-> | Hne].
        -- exists blockHash. split; [exact Hread |]. split; [exact Hfull |].
           rewrite Hrest by lia. subst w1. cbn. apply lookup_insert_eq.
        -- apply Hloaded. lia.
      * intros h Hh. rewrite Hrest by lia. subst w1. cbn.
        apply lookup_insert_ne. lia.
      * rewrite Hshape at 1. subst w1. reflexivity.
Qed.

(** X16.  After a successful [loadHeaderIndexList] the stored-entry count
    is the number of index entries the block store holds, every height
    from that count up to the current block height is mapped to the hash
    the block store has for it, none of which is the empty hash, and all
    other heights are as in the stored index.  Nothing else of the ledger
    store is touched and nothing is logged. *)
Theorem loadHeaderIndexList_loads (w w' : World) :
  isU32 (currBlockHeight (ledger w)) ->
  loadHeaderIndexList w = (w', Ok tt) ->
  exists stored,
    bs_GetHeaderIndexList (blockStore (ledger w)) = (stored, None) /\
    let count := u32 (Z.of_nat (size stored)) in
    storedIndexCount (ledger w') = count /\
    (forall h, count <= h <= currBlockHeight (ledger w) ->
       exists blockHash,
         bs_GetBlockHash (blockStore (ledger w)) h = (blockHash, None) /\
         blockHash <> UINT256_EMPTY /\
         GetBlockHash (ledger w') h = blockHash) /\
    (forall h, ~ (count <= h <= currBlockHeight (ledger w)) ->
       headerIndex (ledger w') !! h = stored !! h) /\
    w' = {| ledger := set_storedIndexCount count
                        (set_headerIndex (headerIndex (ledger w')) (ledger w));
            GAS_TABLE := GAS_TABLE w; trace := trace w |}.
Proof.
  unfold isU32, MaxUint32. intros Hcurr Hrun.
  unfold loadHeaderIndexList, bind at 1, getLedger at 1, GetCurrentBlockHeight in Hrun.
  destruct (bs_GetHeaderIndexList (blockStore (ledger w))) as [stored err] eqn:Hlist.
  destruct err as [e |]; [discriminate |].
  unfold bind at 1, check at 1, ret at 1 in Hrun.
  unfold bind at 1, modifyLedger at 1 in Hrun.
  set (count := u32 (Z.of_nat (size stored))) in *.
  set (w1 := {| ledger := set_storedIndexCount count (set_headerIndex stored (ledger w));
                GAS_TABLE := GAS_TABLE w; trace := trace w |}) in Hrun.
  assert (Hcount : 0 <= count < 2 ^ 32)
    by (subst count; unfold u32; apply Z.mod_pos_bound; lia).
  exists stored. split; [reflexivity |]. cbv zeta.
  destruct (Z.ltb_spec (currBlockHeight (ledger w)) count) as [Hnone | Hsome].
  - cbn in Hrun. injection Hrun as <-. subst w1. cbn.
    split; [reflexivity |]. split; [intros h Hh; lia |].
    split; [reflexivity | reflexivity].
  - destruct (Z.eqb_spec (currBlockHeight (ledger w)) MaxUint32) as [Hmax | Hbelow].
    { apply bind_ok_inv in Hrun as ([] & w2 & _ & Hrun). discriminate. }
    unfold MaxUint32 in Hbelow.
    destruct (loadBlockHashes_ok (Z.to_nat (currBlockHeight (ledger w) - count + 1))
                count w1 w' ltac:(lia) ltac:(lia) Hrun)
      as (Hloaded & Hrest & Hshape).
    split; [rewrite Hshape; reflexivity |].
    split; [| split].
    + intros h Hh. destruct (Hloaded h ltac:(lia)) as (blockHash & Hread & Hfull & Hidx).
      exists blockHash. split; [exact Hread |]. split; [exact Hfull |].
      unfold GetBlockHash, getHeaderIndex. unfold Uint256 in *. rewrite Hidx. reflexivity.
    + intros h Hh. rewrite Hrest by lia. reflexivity.
    + rewrite Hshape at 1. subst w1. reflexivity.
Qed.

(** X17.  [recoverStore] replays nothing when the state store is not
    behind the block store: with the state store at the current block
    height, or above it, the call returns nil and changes nothing.  When
    the state store cannot tell its current block, the error is returned
    wrapped, again without any change. *)
Theorem recoverStore_nothing_to_do (rt : GoRuntime) (w : World) :
  (forall stateHash stateHeight,
     ss_GetCurrentBlock (stateStore (ledger w)) = ((stateHash, stateHeight), None) ->
     currBlockHeight (ledger w) <= stateHeight ->
     recoverStore rt w = (w, Ok tt)) /\
  (forall current err,
     ss_GetCurrentBlock (stateStore (ledger w)) = (current, Some err) ->
     recoverStore rt w = (w, Fail (Wrapf "stateStore.GetCurrentBlock error %s" err))).
Proof.
  split.
  - intros stateHash stateHeight Hstate Hlevel.
    rewrite (recoverStore_range rt w stateHash stateHeight Hstate).
    replace (Z.to_nat (currBlockHeight (ledger w) - stateHeight)) with 0%nat by lia.
    reflexivity.
  - intros [stateHash stateHeight] err Hstate.
    unfold recoverStore, bind at 1, getLedger at 1. rewrite Hstate. reflexivity.
Qed.

(** A successful [loadHeaderIndexList] touches the header index and the
    stored-entry count only. *)
Lemma loadHeaderIndexList_frame (w w' : World) :
  isU32 (currBlockHeight (ledger w)) ->
  loadHeaderIndexList w = (w', Ok tt) ->
  exists idx count,
    w' = {| ledger := set_storedIndexCount count (set_headerIndex idx (ledger w));
            GAS_TABLE := GAS_TABLE w; trace := trace w |}.
Proof.
  unfold isU32, MaxUint32. intros Hcurr Hrun.
  unfold loadHeaderIndexList, bind at 1, getLedger at 1, GetCurrentBlockHeight in Hrun.
  destruct (bs_GetHeaderIndexList (blockStore (ledger w))) as [stored err] eqn:Hlist.
  destruct err as [e |]; [discriminate |].
  unfold bind at 1, check at 1, ret at 1 in Hrun.
  unfold bind at 1, modifyLedger at 1 in Hrun.
  set (count := u32 (Z.of_nat (size stored))) in *.
  set (w1 := {| ledger := set_storedIndexCount count (set_headerIndex stored (ledger w));
                GAS_TABLE := GAS_TABLE w; trace := trace w |}) in Hrun.
  assert (Hcount : 0 <= count < 2 ^ 32)
    by (subst count; unfold u32; apply Z.mod_pos_bound; lia).
  destruct (Z.ltb_spec (currBlockHeight (ledger w)) count) as [Hnone | Hsome].
  - cbn in Hrun. injection Hrun as <-. exists stored, count. reflexivity.
  - destruct (Z.eqb_spec (currBlockHeight (ledger w)) MaxUint32) as [Hmax | Hbelow].
    { apply bind_ok_inv in Hrun as ([] & w2 & _ & Hrun). discriminate. }
    unfold MaxUint32 in Hbelow.
    destruct (loadBlockHashes_ok (Z.to_nat (currBlockHeight (ledger w) - count + 1))
                count w1 w' ltac:(lia) ltac:(lia) Hrun)
      as (_ & _ & Hshape).
    exists (headerIndex (ledger w')), count. rewrite Hshape at 1. subst w1. reflexivity.
Qed.

(** X18.  Start-up on stores that are level.  When the state store is at
    the block store's current height (or above it), a successful [init]
    only loads: the current block becomes the one the block store
    reports, the header index and the stored-entry count are loaded, and
    no block is executed, no store is written and nothing is logged. *)
Theorem init_level_stores (rt : GoRuntime) (w w' : World) (blockHash stateHash : Uint256)
    (blockHeight stateHeight : Z) :
  bs_GetCurrentBlock (blockStore (ledger w)) = ((blockHash, blockHeight), None) ->
  ss_GetCurrentBlock (stateStore (ledger w)) = ((stateHash, stateHeight), None) ->
  isU32 blockHeight ->
  blockHeight <= stateHeight ->
  init rt w = (w', Ok tt) ->
  GetCurrentBlock (ledger w') = (blockHeight, blockHash) /\
  blockStore (ledger w') = blockStore (ledger w) /\
  stateStore (ledger w') = stateStore (ledger w) /\
  eventStore (ledger w') = eventStore (ledger w) /\
  headerCache (ledger w') = headerCache (ledger w) /\
  peerTables (ledger w') = peerTables (ledger w) /\
  trace w' = trace w /\
  GAS_TABLE w' = GAS_TABLE w.
Proof.
  intros Hblock Hstate Hheight Hlevel Hrun. unfold init in Hrun.
  apply bind_ok_inv in Hrun as ([] & w1 & Hcurrent & Hrun).
  apply try_ok_inv in Hcurrent.
  apply bind_ok_inv in Hrun as ([] & w2 & Hindex & Hrecover).
  apply try_ok_inv in Hindex. apply try_ok_inv in Hrecover.
  unfold loadCurrentBlock, bind at 1, getLedger at 1 in Hcurrent.
  rewrite Hblock in Hcurrent. cbn in Hcurrent. injection Hcurrent as <-.
  apply loadHeaderIndexList_frame in Hindex as (idx & count & ->); [| exact Hheight].
  cbn [ledger GAS_TABLE trace] in Hrecover.
  rewrite (recoverStore_range rt _ stateHash stateHeight) in Hrecover by exact Hstate.
  cbn in Hrecover.
  replace (Z.to_nat (blockHeight - stateHeight)) with 0%nat in Hrecover by lia.
  cbn in Hrecover. injection Hrecover as <-.
  repeat split.
Qed.

(** ** Events extracted from the notifications of a block *)

Lemma extractShardEvents_inner (evs : list NotifyEventInfo)
    (a : list ShardSystemEventMsg) (b : list MetaDataEvent)
    (c : list ContractLifetimeEvent) :
  foldl (fun acc n =>
      let '(shardSysMsg, metaEvents, contractEvents) := acc in
      if N.eqb (ContractAddress n) ShardMgmtContractAddress
         || N.eqb (ContractAddress n) ShardSysMsgContractAddress then
        match States n with
        | StShardEvent shardEvt =>
            (shardSysMsg ++ [{| FromAddress := ContractAddress n; Event := shardEvt |}],
             metaEvents, contractEvents)
        | _ => acc
        end
      else
        match States n with
        | StMetaData evt => (shardSysMsg, metaEvents ++ [evt], contractEvents)
        | StContractLifetime evt => (shardSysMsg, metaEvents, contractEvents ++ [evt])
        | _ => acc
        end) (a, b, c) evs
  = (a ++ omap asShardSysMsg evs, b ++ omap asMetaEvent evs,
     c ++ omap asContractEvent evs).
Proof.
  revert a b c. induction evs as [| n evs IH]; intros a b c.
  - cbn. rewrite !app_nil_r. reflexivity.
  - cbn [foldl omap list_omap]. unfold asShardSysMsg, asMetaEvent, asContractEvent,
      fromShardContract.
    destruct (N.eqb (ContractAddress n) ShardMgmtContractAddress
              || N.eqb (ContractAddress n) ShardSysMsgContractAddress);
      destruct (States n); rewrite IH; rewrite <- ?app_assoc; reflexivity.
Qed.

Lemma extractShardEvents_outer (notify : list ExecuteNotify)
    (a : list ShardSystemEventMsg) (b : list MetaDataEvent)
    (c : list ContractLifetimeEvent) :
  foldl (fun acc txEvents =>
    foldl (fun acc n =>
      let '(shardSysMsg, metaEvents, contractEvents) := acc in
      if N.eqb (ContractAddress n) ShardMgmtContractAddress
         || N.eqb (ContractAddress n) ShardSysMsgContractAddress then
        match States n with
        | StShardEvent shardEvt =>
            (shardSysMsg ++ [{| FromAddress := ContractAddress n; Event := shardEvt |}],
             metaEvents, contractEvents)
        | _ => acc
        end
      else
        match States n with
        | StMetaData evt => (shardSysMsg, metaEvents ++ [evt], contractEvents)
        | StContractLifetime evt => (shardSysMsg, metaEvents, contractEvents ++ [evt])
        | _ => acc
        end)
      acc (EvtNotify txEvents)) (a, b, c) notify
  = (a ++ omap asShardSysMsg (allEvents notify), b ++ omap asMetaEvent (allEvents notify),
     c ++ omap asContractEvent (allEvents notify)).
Proof.
  revert a b c. induction notify as [| txEvents notify IH]; intros a b c.
  - cbn. rewrite !app_nil_r. reflexivity.
  - cbn [foldl]. rewrite extractShardEvents_inner, IH.
    unfold allEvents. cbn [flat_map]. rewrite !omap_app, <- !app_assoc. reflexivity.
Qed.

Lemma classified_once (evs : list NotifyEventInfo) :
  (length (omap asShardSysMsg evs) + length (omap asMetaEvent evs)
   + length (omap asContractEvent evs) <= length evs)%nat.
Proof.
  induction evs as [| n evs IH]; [cbn; lia |].
  cbn [omap list_omap length].
  destruct (asShardSysMsg n) eqn:H1; destruct (asMetaEvent n) eqn:H2;
    destruct (asContractEvent n) eqn:H3; cbn [length]; try lia;
    exfalso; unfold asShardSysMsg, asMetaEvent, asContractEvent in H1, H2, H3;
    destruct (fromShardContract n); destruct (States n); discriminate.
Qed.

(** X19.  [extractShardEvents] goes through the events of all
    notifications in order and sorts each into at most one of its three
    lists, keeping the order: an event of the shard management or shard
    system message contract goes to the shard events when it carries a
    shard event state and is dropped otherwise; an event of any other
    contract goes to the metadata events or the contract events by what
    it carries, and is dropped otherwise.  So every shard event extracted
    comes from one of the two contracts, and the extraction of a
    concatenation is the concatenation of the extractions. *)
Theorem extractShardEvents_classifies (notify more : list ExecuteNotify) :
  extractShardEvents notify =
    (omap asShardSysMsg (allEvents notify), omap asMetaEvent (allEvents notify),
     omap asContractEvent (allEvents notify)) /\
  (forall msg, msg ∈ (extractShardEvents notify).1.1 ->
     FromAddress msg = ShardMgmtContractAddress \/
     FromAddress msg = ShardSysMsgContractAddress) /\
  (length (extractShardEvents notify).1.1 + length (extractShardEvents notify).1.2
   + length (extractShardEvents notify).2 <= length (allEvents notify))%nat /\
  extractShardEvents (notify ++ more) =
    ((extractShardEvents notify).1.1 ++ (extractShardEvents more).1.1,
     (extractShardEvents notify).1.2 ++ (extractShardEvents more).1.2,
     (extractShardEvents notify).2 ++ (extractShardEvents more).2).
Proof.
  assert (Hspec : forall l, extractShardEvents l =
            (omap asShardSysMsg (allEvents l), omap asMetaEvent (allEvents l),
             omap asContractEvent (allEvents l))).
  { intros l. unfold extractShardEvents. rewrite extractShardEvents_outer. reflexivity. }
  split; [apply Hspec |]. rewrite !Hspec. cbn [fst snd].
  split; [| split].
  - intros msg Hin. apply list_elem_of_omap in Hin as (n & _ & Hn).
    unfold asShardSysMsg, fromShardContract in Hn.
    destruct (N.eqb_spec (ContractAddress n) ShardMgmtContractAddress) as [Hm | _];
      [| destruct (N.eqb_spec (ContractAddress n) ShardSysMsgContractAddress)
           as [Hs | _]]; cbn in Hn; try discriminate;
      destruct (States n); try discriminate; injection Hn as <-; cbn; auto.
  - apply classified_once.
  - unfold allEvents. rewrite flat_map_app, !omap_app. reflexivity.
Qed.

Lemma sourceHashes_inner (srcs : list Uint256) (m : gmap N N) (txHash src : Uint256) :
  foldl (fun m sourceTxHash => <[sourceTxHash := txHash]> m) m srcs !! src =
  if bool_decide (src ∈ srcs) then Some txHash else m !! src.
Proof.
  revert m. induction srcs as [| s srcs IH]; intros m; [reflexivity |].
  cbn [foldl]. rewrite IH.
  destruct (bool_decide_reflect (src ∈ srcs)) as [Hin | Hout].
  - rewrite bool_decide_eq_true_2 by (apply elem_of_cons; auto). reflexivity.
  - destruct (decide (src = s)) as [-> | Hne].
    + rewrite bool_decide_eq_true_2 by (apply elem_of_cons; auto).
      apply lookup_insert_eq.
    + rewrite bool_decide_eq_false_2
        by (intros Hin; apply elem_of_cons in Hin as [? | ?]; auto).
      apply lookup_insert_ne. congruence.
Qed.

Lemma sourceHashes_outer (notify : list ExecuteNotify) (m : gmap N N) (src : Uint256) :
  foldl (fun sourceAndShardTxHash n =>
    foldl (fun m sourceTxHash => <[sourceTxHash := TxHash n]> m)
      sourceAndShardTxHash (SourceTxHash n)) m notify !! src =
  match last (filter (fun n => src ∈ SourceTxHash n) notify) with
  | Some n => Some (TxHash n)
  | None => m !! src
  end.
Proof.
  revert m. induction notify as [| n notify IH]; intros m; [reflexivity |].
  cbn [foldl]. rewrite IH.
  destruct (decide (src ∈ SourceTxHash n)) as [Hin | Hout].
  - rewrite filter_cons_True by exact Hin.
    destruct (filter (fun n0 => src ∈ SourceTxHash n0) notify) as [| q qs].
    + cbn. rewrite sourceHashes_inner, bool_decide_eq_true_2 by exact Hin. reflexivity.
    + change (last (n :: q :: qs)) with (last (q :: qs)).
      destruct (last (q :: qs)) eqn:Hlast; [reflexivity |].
      apply last_None in Hlast. discriminate.
  - rewrite filter_cons_False by exact Hout.
    destruct (last (filter (fun n0 => src ∈ SourceTxHash n0) notify)); [reflexivity |].
    rewrite sourceHashes_inner, bool_decide_eq_false_2 by exact Hout. reflexivity.
Qed.

(** X20.  The map [extractSourceAndShardTxHash] builds has an entry for
    a hash exactly when some notification lists it among its source
    transaction hashes (a notification without source hashes adds
    nothing), and the entry is the transaction hash of the last such
    notification. *)
Theorem extractSourceAndShardTxHash_last_wins (notify : list ExecuteNotify)
    (src : Uint256) :
  (is_Some (extractSourceAndShardTxHash notify !! src) <->
   exists n, n ∈ notify /\ src ∈ SourceTxHash n) /\
  (forall pre n post,
     notify = pre ++ n :: post -> src ∈ SourceTxHash n ->
     Forall (fun later => src ∉ SourceTxHash later) post ->
     extractSourceAndShardTxHash notify !! src = Some (TxHash n)) /\
  extractSourceAndShardTxHash [] = ∅.
Proof.
  unfold extractSourceAndShardTxHash. split; [| split; [| reflexivity]].
  - rewrite sourceHashes_outer.
    destruct (last (filter (fun n => src ∈ SourceTxHash n) notify)) as [n |] eqn:Hlast.
    + split; [intros _ | eauto].
      apply last_Some_elem_of in Hlast. apply list_elem_of_filter in Hlast.
      exists n. tauto.
    + rewrite lookup_empty. split; [intros [x Hx]; discriminate |].
      intros [n [Hin Hsrc]]. apply last_None in Hlast.
      assert (Hn : n ∈ filter (fun n0 => src ∈ SourceTxHash n0) notify)
        by (apply list_elem_of_filter; auto).
      rewrite Hlast in Hn. inversion Hn.
  - intros pre n post Hsplit Hsrc Hpost. rewrite sourceHashes_outer, Hsplit.
    rewrite filter_app, filter_cons_True by exact Hsrc.
    assert (Hnone : filter (fun n0 => src ∈ SourceTxHash n0) post = []).
    { clear Hsplit. induction Hpost as [| q post Hq _ IH]; [reflexivity |].
      rewrite filter_cons_False by exact Hq. exact IH. }
    rewrite Hnone, last_snoc. reflexivity.
Qed.

(** ** The transactions of a block *)

Lemma executeOne_cases (store : LedgerStoreImp) (gasTable : gmap string Z) (header : Header)
    (wantShardCall : bool) (tx : Transaction) (es : ExecState) (w : World) :
  GAS_TABLE (exec (executeOne store gasTable header wantShardCall tx es) w) = GAS_TABLE w /\
  forall w' es',
    executeOne store gasTable header wantShardCall tx es w = (w', Ok (es', None)) ->
    isShardCall (TxType tx) = wantShardCall /\
    length (Notify (result es')) = S (length (Notify (result es))).
Proof.
  unfold executeOne, exec, bind at 1 2, emit at 1 3.
  destruct (Bool.eqb (isShardCall (TxType tx)) wantShardCall) eqn:Htype; cbn [negb].
  - unfold bind, emit.
    destruct (HandleTransaction store gasTable header tx (ctx (resetCache es)))
      as [c [notify | e | why]]; cbn; (split; [reflexivity |]);
      intros w' es' Hrun; try discriminate.
    injection Hrun as _ <-. split; [apply Bool.eqb_prop; exact Htype |].
    cbn. rewrite length_app. cbn. lia.
  - cbn. split; [reflexivity |]. intros w' es' Hrun. discriminate.
Qed.

Lemma executeTransactions_cases (store : LedgerStoreImp) (gasTable : gmap string Z)
    (header : Header) (txs : list Transaction) (es : ExecState) (w : World) :
  GAS_TABLE (exec (executeTransactions store gasTable header txs es) w) = GAS_TABLE w /\
  forall w' es',
    executeTransactions store gasTable header txs es w = (w', Ok (es', None)) ->
    Forall (fun tx => isShardCall (TxType tx) = false) txs /\
    length (Notify (result es')) = (length (Notify (result es)) + length txs)%nat.
Proof.
  revert es w. induction txs as [| tx txs IH]; intros es w.
  - cbn. split; [reflexivity |]. intros w' es' Hrun. injection Hrun as _ <-.
    split; [constructor | lia].
  - cbn [executeTransactions].
    destruct (executeOne_cases store gasTable header false tx es w) as [Hgas Hone].
    unfold exec, bind in *.
    destruct (executeOne store gasTable header false tx es w)
      as [w1 [[es1 [e |]] | e | why]]; cbn in *; try (split; [exact Hgas | discriminate]).
    destruct (IH es1 w1) as [Hgas' Hrest]. unfold exec in Hgas'.
    split; [congruence |]. intros w' es' Hrun.
    destruct (Hone w1 es1 eq_refl) as [Htype Hlen].
    destruct (Hrest w' es' Hrun) as [Htypes Hlens].
    split; [constructor; assumption | cbn [length]; lia].
Qed.

Lemma executeShardTxs_cases (store : LedgerStoreImp) (gasTable : gmap string Z)
    (header : Header) (shardTxs : list ShardTx) (es : ExecState) (w : World) :
  GAS_TABLE (exec (executeShardTxs store gasTable header shardTxs es) w) = GAS_TABLE w /\
  forall w' es',
    executeShardTxs store gasTable header shardTxs es w = (w', Ok (es', None)) ->
    Forall (fun shardTx => isShardCall (TxType (Tx shardTx)) = true) shardTxs /\
    length (Notify (result es')) = (length (Notify (result es)) + length shardTxs)%nat.
Proof.
  revert es w. induction shardTxs as [| tx txs IH]; intros es w.
  - cbn. split; [reflexivity |]. intros w' es' Hrun. injection Hrun as _ <-.
    split; [constructor | lia].
  - cbn [executeShardTxs].
    destruct (executeOne_cases store gasTable header true (Tx tx) es w) as [Hgas Hone].
    unfold exec, bind in *.
    destruct (executeOne store gasTable header true (Tx tx) es w)
      as [w1 [[es1 [e |]] | e | why]]; cbn in *; try (split; [exact Hgas | discriminate]).
    destruct (IH es1 w1) as [Hgas' Hrest]. unfold exec in Hgas'.
    split; [congruence |]. intros w' es' Hrun.
    destruct (Hone w1 es1 eq_refl) as [Htype Hlen].
    destruct (Hrest w' es' Hrun) as [Htypes Hlens].
    split; [constructor; assumption | cbn [length]; lia].
Qed.

Lemma executeShardGroups_cases (store : LedgerStoreImp) (gasTable : gmap string Z)
    (block : Block) (ids : list N) (es : ExecState) (w : World) :
  GAS_TABLE (exec (executeShardGroups store gasTable block ids es) w) = GAS_TABLE w /\
  forall w' es',
    executeShardGroups store gasTable block ids es w = (w', Ok (es', None)) ->
    let inbound := flat_map (fun id => default [] (ShardTxs block !! id)) ids in
    Forall (fun shardTx => isShardCall (TxType (Tx shardTx)) = true) inbound /\
    length (Notify (result es')) = (length (Notify (result es)) + length inbound)%nat.
Proof.
  revert es w. induction ids as [| id ids IH]; intros es w.
  - cbn. split; [reflexivity |]. intros w' es' Hrun. injection Hrun as _ <-.
    split; [constructor | lia].
  - cbn [executeShardGroups flat_map].
    destruct (executeShardTxs_cases store gasTable (BlockHeader block)
                (default [] (ShardTxs block !! id)) es w) as [Hgas Hone].
    unfold exec, bind in *.
    destruct (executeShardTxs store gasTable (BlockHeader block)
                (default [] (ShardTxs block !! id)) es w)
      as [w1 [[es1 [e |]] | e | why]]; cbn in *; try (split; [exact Hgas | discriminate]).
    destruct (IH es1 w1) as [Hgas' Hrest]. unfold exec in Hgas'.
    split; [congruence |]. intros w' es' Hrun.
    destruct (Hone w1 es1 eq_refl) as [Htype Hlen].
    destruct (Hrest w' es' Hrun) as [Htypes Hlens].
    split; [apply Forall_app; split; assumption | rewrite length_app; lia].
Qed.

(** The global parameters as [executeBlock] refreshes them: not at all for
    the genesis height. *)
Lemma executeBlock_run_cases (rt : GoRuntime) (block : Block) (w : World) :
  let this := ledger w in
  let config := {| cfgShardID := HeaderShardID (BlockHeader block);
                   cfgTime := Timestamp (BlockHeader block);
                   cfgHeight := Height (BlockHeader block);
                   cfgParentHeight := ParentHeight (BlockHeader block) |} in
  let refreshed :=
    if Height (BlockHeader block) =? 0 then (GAS_TABLE w, None)
    else refreshGlobalParam config (NewCacheDB (ss_NewOverlayDB (stateStore this)))
           this (GAS_TABLE w) in
  GAS_TABLE (exec (executeBlock_run rt block) w) = fst refreshed /\
  (forall e, snd refreshed = Some e ->
     exists es,
       result es = emptyResult /\
       executeBlock_run rt block w =
       ({| ledger := ledger w; GAS_TABLE := fst refreshed;
           trace := trace w ++ [EvExecuteBlock (Height (BlockHeader block))] |},
        Ok (es, Some e))) /\
  (forall w' es,
     executeBlock_run rt block w = (w', Ok (es, None)) ->
     Forall (fun shardTx => isShardCall (TxType (Tx shardTx)) = true)
            (inboundShardTxs block) /\
     Forall (fun tx => isShardCall (TxType tx) = false) (Transactions block) /\
     length (Notify (result es)) = length (executedTxs block)).
Proof.
  cbv zeta. unfold exec.
  remember (executeBlock_run rt block w) as run eqn:Hdef.
  unfold executeBlock_run in Hdef.
  unfold bind at 1, emit at 1 in Hdef. unfold bind at 1, getLedger at 1 in Hdef.
  cbn [ledger] in Hdef.
  set (w0 := {| ledger := ledger w; GAS_TABLE := GAS_TABLE w;
                trace := trace w ++ [EvExecuteBlock (Height (BlockHeader block))] |})
    in Hdef.
  set (config := {| cfgShardID := HeaderShardID (BlockHeader block);
                    cfgTime := Timestamp (BlockHeader block);
                    cfgHeight := Height (BlockHeader block);
                    cfgParentHeight := ParentHeight (BlockHeader block) |}) in *.
  assert (Hrefresh : forall (k : option error -> M (ExecState * option error)),
    bind (if negb (Height (BlockHeader block) =? 0) then
            g <- getGasTable ;;
            let '(g', err) :=
              refreshGlobalParam config (NewCacheDB (ss_NewOverlayDB (stateStore (ledger w))))
                (ledger w) g in
            setGasTable g' ;;; ret err
          else ret None) k w0 =
    let refreshed :=
      if Height (BlockHeader block) =? 0 then (GAS_TABLE w, None)
      else refreshGlobalParam config (NewCacheDB (ss_NewOverlayDB (stateStore (ledger w))))
             (ledger w) (GAS_TABLE w) in
    k (snd refreshed) {| ledger := ledger w; GAS_TABLE := fst refreshed;
                         trace := trace w0 |}).
  { intros k. destruct (Height (BlockHeader block) =? 0); cbn [negb]; [reflexivity |].
    unfold bind, getGasTable. cbn [GAS_TABLE]. subst w0. cbn [GAS_TABLE ledger trace].
    destruct (refreshGlobalParam _ _ _ _) as [g' err]. reflexivity. }
  rewrite Hrefresh in Hdef. cbv zeta in Hdef. clear Hrefresh.
  set (refreshed := if Height (BlockHeader block) =? 0 then (GAS_TABLE w, None)
                    else refreshGlobalParam config
                           (NewCacheDB (ss_NewOverlayDB (stateStore (ledger w))))
                           (ledger w) (GAS_TABLE w)) in *.
  destruct (snd refreshed) as [e |] eqn:Herr.
  { subst run. cbn. split; [reflexivity |]. split; [| discriminate].
    intros e' He'. injection He' as <-. eexists. split; [| reflexivity]. reflexivity. }
  split; [| split; [discriminate |]].
  - subst run. unfold bind at 1, getGasTable at 1. cbn [GAS_TABLE].
    destruct (ss_GetCurrentLockedAddress (stateStore (ledger w))) as [addrList [e |]];
      [reflexivity |].
    destruct (ss_GetCurrentLockedKeys (stateStore (ledger w))) as [keyList [e |]];
      [reflexivity |].
    match goal with
    | |- GAS_TABLE (fst (bind (executeShardGroups ?s ?g ?b ?ids ?es) _ ?w1)) = _ =>
        destruct (executeShardGroups_cases s g b ids es w1) as [Hgas _];
        unfold exec in Hgas; unfold bind;
        destruct (executeShardGroups s g b ids es w1)
          as [w2 [[es2 [e |]] | e | why]]; cbn in *; try exact Hgas
    end.
    match goal with
    | |- GAS_TABLE (fst (executeTransactions ?s ?g ?h ?txs ?es ?w1)) = _ =>
        destruct (executeTransactions_cases s g h txs es w1) as [Hgas' _];
        unfold exec in Hgas'; rewrite Hgas'; exact Hgas
    end.
  - intros w' es. subst run. unfold bind at 1, getGasTable at 1. cbn [GAS_TABLE].
    destruct (ss_GetCurrentLockedAddress (stateStore (ledger w))) as [addrList [e |]];
      [discriminate |].
    destruct (ss_GetCurrentLockedKeys (stateStore (ledger w))) as [keyList [e |]];
      [discriminate |].
    rewrite sortShardIDs_range. fold (ascendingShardIDs block).
    intros Hrun. apply bind_ok_inv in Hrun as ([es2 err2] & w2 & Hgroups & Hrun).
    destruct err2 as [e |]; [discriminate |].
    match type of Hgroups with
    | executeShardGroups ?s ?g ?b ?ids ?es0 ?w1 = _ =>
        destruct (executeShardGroups_cases s g b ids es0 w1) as [_ Hin];
        destruct (Hin w2 es2 Hgroups) as [Htypes Hlen]
    end.
    match type of Hrun with
    | executeTransactions ?s ?g ?h ?txs ?es0 ?w1 = _ =>
        destruct (executeTransactions_cases s g h txs es0 w1) as [_ Hown];
        destruct (Hown w' es Hrun) as [Htypes' Hlen']
    end.
    split; [exact Htypes |]. split; [exact Htypes' |].
    unfold executedTxs. rewrite length_app, length_fmap. unfold inboundShardTxs.
    cbn in Hlen. lia.
Qed.

(** X21.  When [executeBlock] returns without an error, its result holds
    exactly one notification for each transaction it had to run: the
    inbound shard transactions of all groups and the block's own
    transactions.  Every inbound shard transaction was a shard call and
    none of the block's own transactions was one: a block that breaks
    either rule is never executed to the end. *)
Theorem executeBlock_one_notification_each (rt : GoRuntime) (block : Block) (w : World)
    (res : ExecuteResult) :
  outcome (executeBlock rt block) w = Ok (res, None) ->
  length (Notify res) = length (executedTxs block) /\
  Forall (fun shardTx => TxType (Tx shardTx) = ShardCall) (inboundShardTxs block) /\
  Forall (fun tx => TxType tx <> ShardCall) (Transactions block).
Proof.
  unfold outcome. rewrite executeBlock_after_run.
  destruct (executeBlock_run rt block w) as [w1 [[es [e |]] | e | why]] eqn:Hrun;
    cbn; try discriminate.
  intros Hseal.
  destruct (executeBlock_run_cases rt block w) as (_ & _ & Hok).
  destruct (Hok w1 es Hrun) as (Hinbound & Hown & Hlen).
  assert (Hnotify : Notify res = Notify (result es)).
  { unfold executeBlock_seal in Hseal.
    destruct (Height (BlockHeader block) <? stateHashCheckHeight (ledger w1));
      [injection Hseal as <-; reflexivity |].
    destruct (Height (BlockHeader block) =? stateHashCheckHeight (ledger w1));
      [| injection Hseal as <-; reflexivity].
    destruct (calculateTotalStateHash _) as [root [e |]];
      [discriminate | injection Hseal as <-; reflexivity]. }
  split; [rewrite Hnotify; exact Hlen |]. split.
  - eapply Forall_impl; [exact Hinbound |]. intros shardTx Hcall. cbn beta in Hcall.
    destruct (TxType (Tx shardTx)); try discriminate. reflexivity.
  - eapply Forall_impl; [exact Hown |]. intros tx Hcall Heq. cbn beta in Hcall.
    rewrite Heq in Hcall. discriminate.
Qed.

(** X22.  [executeBlock] and the global gas table.  Executing the genesis
    block leaves the table as it is: the global parameters are not
    refreshed for height 0.  For any other height the table afterwards is
    the one [refreshGlobalParam] leaves, whatever happens to the
    transactions; and when the refresh fails, its error is returned with
    an empty result and no transaction is run. *)
Theorem executeBlock_gas_table (rt : GoRuntime) (block : Block) (w : World) :
  let config := {| cfgShardID := HeaderShardID (BlockHeader block);
                   cfgTime := Timestamp (BlockHeader block);
                   cfgHeight := Height (BlockHeader block);
                   cfgParentHeight := ParentHeight (BlockHeader block) |} in
  let refreshed :=
    refreshGlobalParam config (NewCacheDB (ss_NewOverlayDB (stateStore (ledger w))))
      (ledger w) (GAS_TABLE w) in
  (Height (BlockHeader block) = 0 ->
     GAS_TABLE (exec (executeBlock rt block) w) = GAS_TABLE w) /\
  (Height (BlockHeader block) <> 0 ->
     GAS_TABLE (exec (executeBlock rt block) w) = fst refreshed) /\
  (Height (BlockHeader block) <> 0 ->
   forall e, snd refreshed = Some e ->
     executeBlock rt block w =
     ({| ledger := ledger w; GAS_TABLE := fst refreshed;
         trace := trace w ++ [EvExecuteBlock (Height (BlockHeader block))] |},
      Ok (emptyResult, Some e))).
Proof.
  cbv zeta.
  destruct (executeBlock_run_cases rt block w) as (Hgas & Hfail & _).
  assert (Hsame : GAS_TABLE (exec (executeBlock rt block) w)
                  = GAS_TABLE (exec (executeBlock_run rt block) w)).
  { unfold exec. rewrite executeBlock_after_run.
    destruct (executeBlock_run rt block w) as [w1 [[es [e |]] | e | why]]; reflexivity. }
  rewrite Hsame, Hgas. cbv zeta in Hfail.
  split; [| split].
  - intros Hgenesis. rewrite Hgenesis. reflexivity.
  - intros Hlater. destruct (Z.eqb_spec (Height (BlockHeader block)) 0);
      [contradiction | reflexivity].
  - intros Hlater e He. revert Hfail.
    destruct (Z.eqb_spec (Height (BlockHeader block)) 0); [contradiction |].
    intros Hfail. destruct (Hfail e He) as (es & Hempty & Hrun).
    rewrite executeBlock_after_run, Hrun, Hempty. reflexivity.
Qed.

(** ** Governance events of a block *)

Lemma saveCrossShardGovernanceData_skip (evt : ShardSystemEventMsg)
    (rest : list ShardSystemEventMsg) (db : MemDB) (w : World) :
  passedOver (ledger w) db evt = true ->
  saveCrossShardGovernanceData (evt :: rest) (Some db) w =
  saveCrossShardGovernanceData rest (Some db) w.
Proof.
  unfold passedOver. cbn [saveCrossShardGovernanceData].
  destruct (EventType (Event evt) =? EVENT_SHARD_CONFIG_UPDATE).
  - destruct (decodeConfigShardEvent (EventPayload (Event evt))) as [[[[h id] cfg] peers] |];
      [intros Hp; apply bool_decide_eq_true in Hp; discriminate | reflexivity].
  - destruct (EventType (Event evt) =? EVENT_SHARD_ACTIVATED); [| reflexivity].
    destruct (decodeShardActiveEvent (EventPayload (Event evt))) as [shardID |];
      [| reflexivity].
    unfold shardStateOf, bind at 1, getLedger at 1.
    destruct (GetRawStorageItemFromMemDb db ShardMgmtContractAddress (shardStateKey shardID))
      as [data unknown].
    destruct unknown.
    + destruct (GetStorageItem (ledger w) ShardMgmtContractAddress (shardStateKey shardID))
        as [[value |] [err |]]; try reflexivity.
      destruct (decodeShardState value) as [[cfg peers] |]; [discriminate | reflexivity].
    + destruct (GetValueFromRawStorageItem data) as [value [err |]]; [reflexivity |].
      destruct (decodeShardState value) as [[cfg peers] |]; [discriminate | reflexivity].
Qed.

Lemma saveCrossShardGovernanceData_take (evt : ShardSystemEventMsg)
    (rest : list ShardSystemEventMsg) (db : MemDB) (w : World) :
  passedOver (ledger w) db evt = false ->
  saveCrossShardGovernanceData (evt :: rest) (Some db) w =
  saveCrossShardGovernanceData [evt] (Some db) w.
Proof.
  unfold passedOver. cbn [saveCrossShardGovernanceData].
  destruct (EventType (Event evt) =? EVENT_SHARD_CONFIG_UPDATE).
  - destruct (decodeConfigShardEvent (EventPayload (Event evt))) as [[[[h id] cfg] peers] |];
      [reflexivity | intros Hp; apply bool_decide_eq_false in Hp; contradiction].
  - destruct (EventType (Event evt) =? EVENT_SHARD_ACTIVATED); [| discriminate].
    destruct (decodeShardActiveEvent (EventPayload (Event evt))) as [shardID |];
      [| discriminate].
    unfold shardStateOf, bind, getLedger.
    destruct (GetRawStorageItemFromMemDb db ShardMgmtContractAddress (shardStateKey shardID))
      as [data unknown].
    destruct unknown.
    + destruct (GetStorageItem (ledger w) ShardMgmtContractAddress (shardStateKey shardID))
        as [[value |] [err |]]; try discriminate.
      destruct (decodeShardState value) as [[cfg peers] |]; [reflexivity | discriminate].
    + destruct (GetValueFromRawStorageItem data) as [value [err |]]; [discriminate |].
      destruct (decodeShardState value) as [[cfg peers] |]; [reflexivity | discriminate].
Qed.

(** X23.  [saveCrossShardGovernanceData] records at most one governance
    event per block.  It passes over the events it has no case for and
    those whose payload or shard state does not decode, records the
    configuration of the first event that does decode, and returns: the
    events after that one are never looked at.  When every event is
    passed over, nothing is recorded and nil is returned. *)
Theorem saveCrossShardGovernanceData_first_only (pre rest : list ShardSystemEventMsg)
    (evt : ShardSystemEventMsg) (db : MemDB) (w : World) :
  Forall (fun e => passedOver (ledger w) db e = true) pre ->
  passedOver (ledger w) db evt = false ->
  saveCrossShardGovernanceData (pre ++ evt :: rest) (Some db) w =
    saveCrossShardGovernanceData [evt] (Some db) w /\
  saveCrossShardGovernanceData pre (Some db) w = (w, Ok tt).
Proof.
  intros Hpre Hevt. induction Hpre as [| e pre He _ IH].
  - split; [apply saveCrossShardGovernanceData_take; exact Hevt | reflexivity].
  - cbn [app]. rewrite (saveCrossShardGovernanceData_skip e (pre ++ evt :: rest)) by exact He.
    rewrite (saveCrossShardGovernanceData_skip e pre) by exact He. exact IH.
Qed.

End FurtherProperties.

(** * Opening the ledger store *)

Section StartUp.
Context `{SV : Services} `{BT : !BootServices}.

Lemma onBlockStore_run {A} (op : BlockStore -> BlockStore * A) (w : World) :
  onBlockStore op w =
  ({| ledger := set_blockStore (fst (op (blockStore (ledger w)))) (ledger w);
      GAS_TABLE := GAS_TABLE w; trace := trace w |},
   Ok (snd (op (blockStore (ledger w))))).
Proof.
  unfold onBlockStore, bind, getLedger, modifyLedger, ret.
  destruct (op (blockStore (ledger w))) as [s a]. reflexivity.
Qed.

Lemma onStateStore_run {A} (op : StateStore -> StateStore * A) (w : World) :
  onStateStore op w =
  ({| ledger := set_stateStore (fst (op (stateStore (ledger w)))) (ledger w);
      GAS_TABLE := GAS_TABLE w; trace := trace w |},
   Ok (snd (op (stateStore (ledger w))))).
Proof.
  unfold onStateStore, bind, getLedger, modifyLedger, ret.
  destruct (op (stateStore (ledger w))) as [s a]. reflexivity.
Qed.

Lemma onEventStore_run {A} (op : EventStore -> EventStore * A) (w : World) :
  onEventStore op w =
  ({| ledger := set_eventStore (fst (op (eventStore (ledger w)))) (ledger w);
      GAS_TABLE := GAS_TABLE w; trace := trace w |},
   Ok (snd (op (eventStore (ledger w))))).
Proof.
  unfold onEventStore, bind, getLedger, modifyLedger, ret.
  destruct (op (eventStore (ledger w))) as [s a]. reflexivity.
Qed.

Lemma check_ok_inv (err : option error) (wrap : error -> error) (w w' : World) :
  check err wrap w = (w', Ok tt) -> err = None /\ w = w'.
Proof.
  destruct err as [e |]; cbn; [discriminate |].
  unfold ret. intros H. injection H as <-. split; reflexivity.
Qed.

Lemma executeBlock_ledger (rt : GoRuntime) (block : Block) (w : World) :
  ledger (exec (executeBlock rt block) w) = ledger w.
Proof.
  pose proof (executeBlock_run_log rt block w) as [Hl _].
  unfold exec in *. rewrite executeBlock_after_run.
  destruct (executeBlock_run rt block w) as [w1 [[es [e |]] | e | s]]; exact Hl.
Qed.

Lemma InitLedgerStoreWithGenesisBlock_parts (rt : GoRuntime) (genesisBlock : Block)
    (defaultBookkeeper : list PublicKey) (w : World) :
  InitLedgerStoreWithGenesisBlock rt genesisBlock defaultBookkeeper w =
  match hasAlreadyInitGenesisBlock (ledger w) with
  | Ok hasInit =>
      ((if negb hasInit then initFresh rt genesisBlock defaultBookkeeper
        else initOpened rt genesisBlock) ;;; loadPeerInfo) w
  | Fail e => (w, Fail (Wrapf "hasAlreadyInit error %s" e))
  | Abort why => (w, Abort why)
  end.
Proof.
  unfold InitLedgerStoreWithGenesisBlock, bind at 1, getLedger at 1.
  unfold bind at 1, try at 1, liftResult at 1.
  destruct (hasAlreadyInitGenesisBlock (ledger w)) as [hasInit | e | why];
    [| reflexivity | reflexivity].
  destruct hasInit; reflexivity.
Qed.

Lemma InitLedgerStoreWithGenesisBlock_ok_inv (rt : GoRuntime) (genesisBlock : Block)
    (defaultBookkeeper : list PublicKey) (w w' : World) :
  InitLedgerStoreWithGenesisBlock rt genesisBlock defaultBookkeeper w = (w', Ok tt) ->
  exists hasInit w2,
    hasAlreadyInitGenesisBlock (ledger w) = Ok hasInit /\
    (if negb hasInit then initFresh rt genesisBlock defaultBookkeeper
     else initOpened rt genesisBlock) w = (w2, Ok tt) /\
    loadPeerInfo w2 = (w', Ok tt).
Proof.
  rewrite InitLedgerStoreWithGenesisBlock_parts.
  destruct (hasAlreadyInitGenesisBlock (ledger w)) as [hasInit | e | why];
    [| discriminate | discriminate].
  intros Hrun. apply bind_ok_inv in Hrun as ([] & w2 & Hbranch & Htail).
  exists hasInit, w2. split; [reflexivity |]. split; assumption.
Qed.

(** The chain configuration found is that of the current block's header,
    or of the header that one points back to. *)
Lemma currentChainConfig_ok_inv (w w' : World) (cfg : ChainConfig) :
  currentChainConfig w = (w', Ok cfg) ->
  w' = w /\
  exists header blkInfo,
    GetHeaderByHash (ledger w) (currBlockHash (ledger w)) = (Some header, None) /\
    VbftBlock header = Ok blkInfo /\
    (NewChainConfig blkInfo = Some cfg \/
     NewChainConfig blkInfo = None /\
     exists cfgHeader Info,
       GetHeaderByHeight (ledger w) (LastConfigBlockNum blkInfo) = (Some cfgHeader, None) /\
       VbftBlock cfgHeader = Ok Info /\
       NewChainConfig Info = Some cfg).
Proof.
  unfold currentChainConfig, bind at 1, getLedger at 1.
  destruct (GetHeaderByHash (ledger w) (currBlockHash (ledger w)))
    as [[header |] [err |]] eqn:Hheader; try discriminate.
  unfold bind at 1, liftResult at 1.
  destruct (VbftBlock header) as [blkInfo | e | why] eqn:Hblk; try discriminate.
  destruct (NewChainConfig blkInfo) as [cfg0 |] eqn:Hcfg.
  - unfold ret. intros H. injection H as <- <-.
    split; [reflexivity |]. exists header, blkInfo.
    split; [reflexivity |]. split; [exact Hblk |]. left. exact Hcfg.
  - destruct (GetHeaderByHeight (ledger w) (LastConfigBlockNum blkInfo))
      as [[cfgHeader |] [err |]] eqn:Hcfgheader; try discriminate.
    unfold bind at 1, liftResult at 1.
    destruct (VbftBlock cfgHeader) as [Info | e | why] eqn:Hinfo; try discriminate.
    destruct (NewChainConfig Info) as [cfg1 |] eqn:Hcfg1; try discriminate.
    unfold ret. intros H. injection H as <- <-.
    split; [reflexivity |]. exists header, blkInfo.
    split; [reflexivity |]. split; [exact Hblk |]. right.
    split; [exact Hcfg |]. exists cfgHeader, Info.
    split; [exact Hcfgheader |]. split; [exact Hinfo | exact Hcfg1].
Qed.

(** What the tail of [InitLedgerStoreWithGenesisBlock] has done when it
    returns nil. *)
Lemma loadPeerInfo_ok_inv (w w' : World) :
  loadPeerInfo w = (w', Ok tt) ->
  exists tables : LedgerStoreImp,
    w' = {| ledger := set_stateStore (fst (ss_CheckStorage (stateStore (ledger w)))) tables;
            GAS_TABLE := GAS_TABLE w; trace := trace w |} /\
    (if String.eqb (strings_ToLower Genesis_ConsensusType) "vbft" then
       exists cfg,
         currentChainConfig w = (w, Ok cfg) /\
         tables = set_vbftPeerInfoblock (peerInfoOf (Peers cfg) ∅)
                    (set_vbftPeerInfoheader (peerInfoOf (Peers cfg) ∅) (ledger w))
     else tables = ledger w).
Proof.
  unfold loadPeerInfo. cbv zeta. intros Hrun.
  apply bind_ok_inv in Hrun as ([] & w1 & Htables & Hrun).
  apply bind_ok_inv in Hrun as (err & w2 & Hcheck & Hrun).
  rewrite onStateStore_run in Hcheck. injection Hcheck as <- <-.
  apply check_ok_inv in Hrun as [_ <-].
  exists (ledger w1).
  destruct (String.eqb (strings_ToLower Genesis_ConsensusType) "vbft").
  - apply bind_ok_inv in Htables as (cfg & w0 & Hcfg & Hset).
    destruct (currentChainConfig_ok_inv w w0 cfg Hcfg) as [-> _].
    unfold modifyLedger in Hset. injection Hset as <-.
    split; [reflexivity |]. exists cfg. split; [exact Hcfg | reflexivity].
  - unfold ret in Htables. injection Htables as <-. split; reflexivity.
Qed.

(** What the branch for a store without the version record has done when
    it returns nil. *)
Lemma initFresh_ok_inv (rt : GoRuntime) (genesisBlock : Block)
    (defaultBookkeeper : list PublicKey) (w w' : World) :
  initFresh rt genesisBlock defaultBookkeeper w = (w', Ok tt) ->
  exists w0 w1 w2 result,
    headerIndex (ledger w0) = headerIndex (ledger w) /\
    headerCache (ledger w0) = headerCache (ledger w) /\
    peerTables (ledger w0) = peerTables (ledger w) /\
    executeBlock rt genesisBlock w0 = (w1, Ok (result, None)) /\
    submitBlock genesisBlock result w1 = (w2, Ok tt) /\
    bs_SaveVersion (blockStore (ledger w2)) SYSTEM_VERSION
      = (blockStore (ledger w'), None) /\
    w' = {| ledger := set_blockStore (blockStore (ledger w')) (ledger w2);
            GAS_TABLE := GAS_TABLE w2; trace := trace w2 |}.
Proof.
  unfold initFresh. cbv zeta. intros Hrun.
  apply bind_ok_inv in Hrun as (e1 & wa & Ha & Hrun).
  rewrite onBlockStore_run in Ha. injection Ha as <- <-.
  apply bind_ok_inv in Hrun as ([] & wb & Hb & Hrun). apply check_ok_inv in Hb as [_ <-].
  apply bind_ok_inv in Hrun as (e2 & wa & Ha & Hrun).
  rewrite onStateStore_run in Ha. injection Ha as <- <-.
  apply bind_ok_inv in Hrun as ([] & wb & Hb & Hrun). apply check_ok_inv in Hb as [_ <-].
  apply bind_ok_inv in Hrun as (e3 & wa & Ha & Hrun).
  rewrite onEventStore_run in Ha. injection Ha as <- <-.
  apply bind_ok_inv in Hrun as ([] & wb & Hb & Hrun). apply check_ok_inv in Hb as [_ <-].
  apply bind_ok_inv in Hrun as (e4 & wa & Ha & Hrun).
  rewrite onStateStore_run in Ha. injection Ha as <- <-.
  apply bind_ok_inv in Hrun as ([] & wb & Hb & Hrun). apply check_ok_inv in Hb as [_ <-].
  apply bind_ok_inv in Hrun as ([result err] & w1 & Hexec & Hrun).
  apply bind_ok_inv in Hrun as ([] & wb & Hb & Hrun). apply check_ok_inv in Hb as [-> <-].
  apply bind_ok_inv in Hrun as ([] & w2 & Hsubmit & Hrun).
  apply try_ok_inv in Hsubmit.
  apply bind_ok_inv in Hrun as (e5 & wa & Ha & Hrun).
  unfold initGenesisBlock in Ha. rewrite onBlockStore_run in Ha. injection Ha as <- <-.
  apply check_ok_inv in Hrun as [Hsaved <-].
  eexists _, w1, w2, result.
  split; [| split; [| split; [| split; [exact Hexec |]]]]; try reflexivity.
  split; [exact Hsubmit |]. cbn [ledger blockStore set_blockStore].
  split; [| reflexivity].
  destruct (bs_SaveVersion (blockStore (ledger w2)) SYSTEM_VERSION) as [s e].
  cbn in Hsaved |- *. subst e. reflexivity.
Qed.

Lemma GetHeaderByHash_same (l l' : LedgerStoreImp) (blockHash : Uint256) :
  headerCache l' = headerCache l -> blockStore l' = blockStore l ->
  GetHeaderByHash l' blockHash = GetHeaderByHash l blockHash.
Proof.
  intros Hcache Hstore. unfold GetHeaderByHash, getHeaderCache.
  rewrite Hcache, Hstore. reflexivity.
Qed.

(** X24.  [InitLedgerStoreWithGenesisBlock] on a store without the
    version record.  When it returns nil, the current block is the
    genesis block given, at the height its header states and with its
    hash, and the header index maps that height to the hash; the last
    thing written to the block store is the version record.  The header
    index is otherwise as it was, the header cache is untouched, and so
    are the peer tables unless the consensus is vbft. *)
Theorem InitLedgerStoreWithGenesisBlock_fresh (rt : GoRuntime) (genesisBlock : Block)
    (defaultBookkeeper : list PublicKey) (w w' : World) :
  hasAlreadyInitGenesisBlock (ledger w) = Ok false ->
  InitLedgerStoreWithGenesisBlock rt genesisBlock defaultBookkeeper w = (w', Ok tt) ->
  GetCurrentBlock (ledger w')
    = (Height (BlockHeader genesisBlock), Block_Hash genesisBlock) /\
  GetBlockHash (ledger w') (Height (BlockHeader genesisBlock)) = Block_Hash genesisBlock /\
  (forall h, h <> Height (BlockHeader genesisBlock) ->
     GetBlockHash (ledger w') h = GetBlockHash (ledger w) h) /\
  headerCache (ledger w') = headerCache (ledger w) /\
  (strings_ToLower Genesis_ConsensusType <> "vbft" ->
     peerTables (ledger w') = peerTables (ledger w)) /\
  exists s, bs_SaveVersion s SYSTEM_VERSION = (blockStore (ledger w'), None).
Proof.
  intros Hfresh Hrun.
  apply InitLedgerStoreWithGenesisBlock_ok_inv in Hrun
    as (hasInit & w3 & Hhas & Hbranch & Htail).
  rewrite Hfresh in Hhas. injection Hhas as <-. cbn [negb] in Hbranch.
  apply initFresh_ok_inv in Hbranch
    as (w0 & w1 & w2 & result & Hidx0 & Hcache0 & Hpeers0 & Hexec & Hsubmit & Hsaved & Hw3).
  assert (Hl1 : ledger w1 = ledger w0).
  { pose proof (executeBlock_ledger rt genesisBlock w0) as Hl.
    unfold exec in Hl. rewrite Hexec in Hl. exact Hl. }
  apply submitBlock_ok_body in Hsubmit.
  pose proof (submitBlock_ok_pointer genesisBlock result w1 w2 Hsubmit) as Hpointer.
  pose proof (submitBlock_body_memory genesisBlock result w1) as (Hidx & Hcache & Hpeers).
  unfold exec in Hidx, Hcache, Hpeers. rewrite Hsubmit in Hidx, Hcache, Hpeers.
  cbn [fst] in Hidx, Hcache, Hpeers. rewrite Hl1 in Hidx, Hcache, Hpeers.
  apply loadPeerInfo_ok_inv in Htail as (tables & Hw' & Htables).
  assert (Hmem : currBlockHeight tables = currBlockHeight (ledger w2) /\
                 currBlockHash tables = currBlockHash (ledger w2) /\
                 headerIndex tables = headerIndex (ledger w2) /\
                 headerCache tables = headerCache (ledger w2) /\
                 blockStore tables = blockStore (ledger w3) /\
                 (strings_ToLower Genesis_ConsensusType <> "vbft" ->
                  peerTables tables = peerTables (ledger w2))).
  { destruct (String.eqb_spec (strings_ToLower Genesis_ConsensusType) "vbft") as [Hv | Hv].
    - destruct Htables as (cfg & _ & ->). rewrite Hw3. cbn.
      repeat split; try reflexivity. intros Hne. contradiction.
    - subst tables. rewrite Hw3. cbn. repeat split; reflexivity. }
  destruct Hmem as (Hh & Hx & Hi & Hc & Hb & Hp).
  unfold pointer in Hpointer. injection Hpointer as Hheight Hhash.
  subst w'. unfold GetCurrentBlock, GetBlockHash, getHeaderIndex.
  cbn [ledger currBlockHeight currBlockHash headerIndex headerCache set_stateStore
       blockStore].
  split; [rewrite Hh, Hx, Hheight, Hhash; reflexivity |].
  split; [rewrite Hi, Hidx, lookup_insert_eq; reflexivity |].
  split.
  { intros h Hne. rewrite Hi, Hidx, Hidx0, lookup_insert_ne by congruence. reflexivity. }
  split; [rewrite Hc, Hcache, Hcache0; reflexivity |].
  split.
  { intros Hne. unfold peerTables in *.
    cbn [vbftPeerInfoheader vbftPeerInfoblock set_stateStore].
    specialize (Hp Hne). cbn in Hp. rewrite Hp, Hpeers, Hpeers0. reflexivity. }
  exists (blockStore (ledger w2)). rewrite Hb. exact Hsaved.
Qed.

Lemma initOpened_run (rt : GoRuntime) (genesisBlock : Block) (w : World) :
  initOpened rt genesisBlock w =
  match init rt w with
  | (w1, Ok _) =>
      if currBlockHeight (ledger w1) =? 0 then
        match bs_ContainBlock (blockStore (ledger w1)) (Block_Hash genesisBlock) with
        | (_, Some err) => (w1, Fail (Wrapf "HashBlockExist error %s" err))
        | (false, None) =>
            (w1, Fail (Errorf "GenesisBlock arenot init correctly, hash %s"))
        | (true, None) => (w1, Ok tt)
        end
      else (w1, Ok tt)
  | (w1, Fail e) => (w1, Fail (Wrapf "init error %s" e))
  | (w1, Abort why) => (w1, Abort why)
  end.
Proof.
  unfold initOpened, bind at 1, try at 1.
  destruct (init rt w) as [w1 [[] | e | why]]; [| reflexivity | reflexivity].
  unfold bind at 1, getLedger at 1.
  destruct (currBlockHeight (ledger w1) =? 0); [| reflexivity].
  cbv zeta.
  destruct (bs_ContainBlock (blockStore (ledger w1)) (Block_Hash genesisBlock))
    as [[|] [err |]]; reflexivity.
Qed.

(** X25.  [InitLedgerStoreWithGenesisBlock] on a store that has the
    version record.  The stores are loaded and recovered by [init]; when
    that fails, its error is returned wrapped.  The genesis block given
    is looked at in one case only: when the ledger is at height 0 after
    [init], the block store must contain a block with its hash, and the
    call fails when it does not.  At any other height the result does
    not depend on the genesis block, and the default bookkeepers are
    never used at all. *)
Theorem InitLedgerStoreWithGenesisBlock_opened (rt : GoRuntime) (genesisBlock : Block)
    (defaultBookkeeper : list PublicKey) (w : World) :
  hasAlreadyInitGenesisBlock (ledger w) = Ok true ->
  (forall w1 e,
     init rt w = (w1, Fail e) ->
     InitLedgerStoreWithGenesisBlock rt genesisBlock defaultBookkeeper w
     = (w1, Fail (Wrapf "init error %s" e))) /\
  (forall w1,
     init rt w = (w1, Ok tt) ->
     currBlockHeight (ledger w1) = 0 ->
     bs_ContainBlock (blockStore (ledger w1)) (Block_Hash genesisBlock) = (false, None) ->
     InitLedgerStoreWithGenesisBlock rt genesisBlock defaultBookkeeper w
     = (w1, Fail (Errorf "GenesisBlock arenot init correctly, hash %s"))) /\
  (forall w1,
     init rt w = (w1, Ok tt) ->
     currBlockHeight (ledger w1) <> 0 ->
     forall otherGenesis,
       InitLedgerStoreWithGenesisBlock rt otherGenesis defaultBookkeeper w
       = InitLedgerStoreWithGenesisBlock rt genesisBlock defaultBookkeeper w) /\
  (forall otherBookkeeper,
     InitLedgerStoreWithGenesisBlock rt genesisBlock otherBookkeeper w
     = InitLedgerStoreWithGenesisBlock rt genesisBlock defaultBookkeeper w).
Proof.
  intros Hopened.
  assert (Hparts : forall g bk,
            InitLedgerStoreWithGenesisBlock rt g bk w = (initOpened rt g ;;; loadPeerInfo) w).
  { intros g bk. rewrite InitLedgerStoreWithGenesisBlock_parts, Hopened. reflexivity. }
  split; [| split; [| split]].
  - intros w1 e Hinit. rewrite Hparts. unfold bind.
    rewrite initOpened_run, Hinit. reflexivity.
  - intros w1 Hinit Hzero Hmissing. rewrite Hparts. unfold bind.
    rewrite initOpened_run, Hinit, Hzero, Hmissing. reflexivity.
  - intros w1 Hinit Hlater otherGenesis. rewrite !Hparts. unfold bind.
    rewrite !initOpened_run, Hinit.
    destruct (Z.eqb_spec (currBlockHeight (ledger w1)) 0); [contradiction | reflexivity].
  - intros otherBookkeeper. rewrite !Hparts. reflexivity.
Qed.

(** X26.  Under the vbft consensus, a successful
    [InitLedgerStoreWithGenesisBlock] leaves the header peer table and
    the block peer table equal: both are built, from nothing, from the
    peers of one chain configuration.  That configuration is the one the
    header of the current block carries, or, when it carries none, the
    one carried by the header at the height its consensus payload names
    as the last configuration block. *)
Theorem InitLedgerStoreWithGenesisBlock_peer_tables (rt : GoRuntime) (genesisBlock : Block)
    (defaultBookkeeper : list PublicKey) (w w' : World) :
  strings_ToLower Genesis_ConsensusType = "vbft" ->
  InitLedgerStoreWithGenesisBlock rt genesisBlock defaultBookkeeper w = (w', Ok tt) ->
  exists header blkInfo cfg,
    GetHeaderByHash (ledger w') (currBlockHash (ledger w')) = (Some header, None) /\
    VbftBlock header = Ok blkInfo /\
    (NewChainConfig blkInfo = Some cfg \/
     NewChainConfig blkInfo = None /\
     exists cfgHeader Info,
       GetHeaderByHeight (ledger w') (LastConfigBlockNum blkInfo) = (Some cfgHeader, None) /\
       VbftBlock cfgHeader = Ok Info /\
       NewChainConfig Info = Some cfg) /\
    vbftPeerInfoheader (ledger w') = peerInfoOf (Peers cfg) ∅ /\
    vbftPeerInfoblock (ledger w') = peerInfoOf (Peers cfg) ∅.
Proof.
  intros Hvbft Hrun.
  apply InitLedgerStoreWithGenesisBlock_ok_inv in Hrun as (hasInit & w2 & _ & _ & Htail).
  apply loadPeerInfo_ok_inv in Htail as (tables & -> & Htables).
  rewrite Hvbft in Htables. cbn [String.eqb Ascii.eqb Bool.eqb] in Htables.
  destruct Htables as (cfg & Hcfg & ->).
  apply currentChainConfig_ok_inv in Hcfg as (_ & header & blkInfo & Hheader & Hblk & Hwhich).
  exists header, blkInfo, cfg.
  cbn [ledger currBlockHash set_stateStore set_vbftPeerInfoblock set_vbftPeerInfoheader
       vbftPeerInfoheader vbftPeerInfoblock].
  split.
  { rewrite <- Hheader. apply GetHeaderByHash_same; reflexivity. }
  split; [exact Hblk |].
  split; [| split; reflexivity].
  destruct Hwhich as [Hhere | (Hnone & cfgHeader & Info & Hthere & Hinfo & Hcfg)];
    [left; exact Hhere | right].
  split; [exact Hnone |]. exists cfgHeader, Info.
  split; [| split; assumption].
  rewrite <- Hthere. unfold GetHeaderByHeight, GetBlockHash, getHeaderIndex.
  cbn [headerIndex set_stateStore set_vbftPeerInfoblock set_vbftPeerInfoheader].
  destruct (N.eqb _ UINT256_EMPTY); [reflexivity |].
  apply GetHeaderByHash_same; reflexivity.
Qed.

End StartUp.

(** * Examples on the in-memory implementation *)

Import Sim Scenario.




Lemma afterBlock1_height : currBlockHeight (ledger afterBlock1) = 1.
Proof. vm_compute. reflexivity. Defined.

Lemma isU32_small (x : Z) : (0 <=? x) && (x <=? MaxUint32) = true -> isU32 x.
Proof. unfold isU32. intros H. apply andb_prop in H. lia. Defined.

(** Submitting [block1] again at height 1 is a no-op. *)
Lemma C2_witness :
  isU32 (currBlockHeight (ledger afterBlock1)) /\
  isU32 (Height (BlockHeader block1)) /\
  SubmitBlock block1 emptyResult afterBlock1 = (afterBlock1, Ok tt).
Proof.
  assert (H1 : isU32 (currBlockHeight (ledger afterBlock1))).
  { apply isU32_small. vm_compute. reflexivity. }
  assert (H2 : isU32 (Height (BlockHeader block1))).
  { apply isU32_small. vm_compute. reflexivity. }
  split; [exact H1 |]. split; [exact H2 |].
  apply (proj1 (C2_SubmitBlock_height_order block1 emptyResult afterBlock1 H1 H2)).
  rewrite afterBlock1_height. vm_compute. discriminate.
Defined.

(** Executing [block1] again at height 1 returns the recorded root and
    does nothing else. *)
Lemma C5_witness :
  isU32 (currBlockHeight (ledger afterBlock1)) /\
  isU32 (Height (BlockHeader block1)) /\
  ExecuteBlock forwards block1 afterBlock1 =
  (afterBlock1,
   Ok ({| WriteSet := None; Hash := UINT256_EMPTY; MerkleRoot := 486820%N;
          Notify := []; ShardNotify := [] |}, None)).
Proof.
  assert (H1 : isU32 (currBlockHeight (ledger afterBlock1))).
  { apply isU32_small. vm_compute. reflexivity. }
  assert (H2 : isU32 (Height (BlockHeader block1))).
  { apply isU32_small. vm_compute. reflexivity. }
  split; [exact H1 |]. split; [exact H2 |].
  rewrite (proj1 (C5_ExecuteBlock_idempotent forwards block1 afterBlock1 H1 H2)).
  - vm_compute. reflexivity.
  - rewrite afterBlock1_height. vm_compute. discriminate.
Defined.

(** A storage fault during an invocation makes [HandleTransaction] return
    an error; a reverting invocation does not. *)
Lemma C7_witness :
  (dispatched (TxType faultTx) = true \/
   overlay_Error (overlay (ctx (resetCache (startState afterGenesis)))) = None) /\
  (exists e, snd (HandleTransaction (ledger afterGenesis) ∅ (BlockHeader block1) faultTx
                    (ctx (resetCache (startState afterGenesis)))) = Fail e) /\
  (exists n, snd (HandleTransaction (ledger afterGenesis) ∅ (BlockHeader block1) revertTx
                    (ctx (resetCache (startState afterGenesis)))) = Ok n /\
             State (ContractEvent n) = CONTRACT_STATE_FAIL).
Proof.
  split; [left; reflexivity |]. split.
  - apply (proj1 (C7_error_scoping (ledger afterGenesis) ∅ (BlockHeader block1) faultTx
                    (ctx (resetCache (startState afterGenesis)))
                    (or_introl eq_refl))).
    vm_compute. discriminate.
  - eexists. split.
    + apply (proj1 (proj2 (C7_error_scoping (ledger afterGenesis) ∅ (BlockHeader block1)
                             revertTx (ctx (resetCache (startState afterGenesis)))
                             (or_introl eq_refl)))).
      vm_compute. reflexivity.
    + vm_compute. reflexivity.
Defined.

(** Above the threshold height (0 here), the root of [block2] is the one
    the state store derives from the overlay's change hash. *)
Lemma C8_witness :
  outcome (executeBlock_run forwards block2) afterBlock1 = Ok (ranBlock2, None) /\
  exists res,
    outcome (executeBlock forwards block2) afterBlock1 = Ok (res, None) /\
    MerkleRoot res =
      ss_GetStateMerkleRootWithNewHash (stateStore (ledger afterBlock1))
        (overlay_ChangeHash (snd (executeBlock_persist forwards block2 ranBlock2))) /\
    MerkleRoot res = 2130869%N.
Proof.
  assert (Hrun : outcome (executeBlock_run forwards block2) afterBlock1
                 = Ok (ranBlock2, None)).
  { vm_compute. reflexivity. }
  split; [exact Hrun |].
  destruct (C8_three_phase_root forwards block2 afterBlock1 ranBlock2 Hrun)
    as [res [err [Hexec [_ [_ [_ Habove]]]]]].
  destruct Habove as [Herr [Hroot _]].
  { vm_compute. reflexivity. }
  exists res. subst err. unfold outcome. rewrite Hexec.
  split; [reflexivity |]. split; [exact Hroot |].
  rewrite Hroot. vm_compute. reflexivity.
Defined.

Lemma stale_not_chained : ~ chained (ledger afterBlock1) (BlockHeader staleBlock2).
Proof.
  intros [prev [Hprev [_ [_ Htime]]]].
  vm_compute in Hprev. inversion Hprev. subst prev.
  vm_compute in Htime. discriminate.
Defined.

(** C9 as first stated fails on a replay: once [block2] is committed, a
    block of height 2 whose timestamp is not later than that of the header
    it names as its predecessor is submitted again; [SubmitBlock] returns
    nil, not an error. *)
Lemma C9_counterexample :
  Height (BlockHeader staleBlock2) <> 0 /\
  fst (GetHeaderByHash (ledger uninterrupted) (PrevBlockHash (BlockHeader staleBlock2)))
    = Some (BlockHeader block1) /\
  Timestamp (BlockHeader staleBlock2) <= Timestamp (BlockHeader block1) /\
  SubmitBlock staleBlock2 result2 uninterrupted = (uninterrupted, Ok tt) /\
  ~ (exists e, outcome (SubmitBlock staleBlock2 result2) uninterrupted = Fail e).
Proof.
  assert (Hnil : SubmitBlock staleBlock2 result2 uninterrupted = (uninterrupted, Ok tt)).
  { apply SubmitBlock_replay. vm_compute. discriminate. }
  split; [vm_compute; discriminate |].
  split; [vm_compute; reflexivity |].
  split; [vm_compute; discriminate |].
  split; [exact Hnil |].
  intros [e He]. unfold outcome in He. rewrite Hnil in He. discriminate.
Qed.

(** [block2] is accepted on top of [block1] and is chained to it; the same
    block with a timestamp that is not later is turned down by both entry
    points, which leave the world as it is. *)
Lemma C9_witness :
  Height (BlockHeader staleBlock2) <> 0 /\
  Height (BlockHeader block2) <> 0 /\
  outcome (SubmitBlock block2 result2) afterBlock1 = Ok tt /\
  chained (ledger afterBlock1) (BlockHeader block2) /\
  (exists e, AddHeader (BlockHeader staleBlock2) afterBlock1 = (afterBlock1, Fail e)) /\
  (exists e, SubmitBlock staleBlock2 result2 afterBlock1 = (afterBlock1, Fail e)).
Proof.
  assert (Hs : Height (BlockHeader staleBlock2) <> 0) by (vm_compute; discriminate).
  assert (Hb : Height (BlockHeader block2) <> 0) by (vm_compute; discriminate).
  assert (Hok : outcome (SubmitBlock block2 result2) afterBlock1 = Ok tt).
  { vm_compute. reflexivity. }
  split; [exact Hs |]. split; [exact Hb |]. split; [exact Hok |].
  split; [| split].
  - destruct (C9_header_chain (BlockHeader staleBlock2) block2 result2 afterBlock1 Hs Hb)
      as [_ [Hsubmit _]].
    apply (Hsubmit (exec (SubmitBlock block2 result2) afterBlock1)).
    + rewrite afterBlock1_height. vm_compute. reflexivity.
    + unfold exec, outcome in *.
      destruct (SubmitBlock block2 result2 afterBlock1) as [w' r]. simpl in *.
      rewrite Hok. reflexivity.
  - destruct (C9_header_chain (BlockHeader staleBlock2) block2 result2 afterBlock1 Hs Hb)
      as [_ [_ [Hadd _]]].
    apply Hadd, stale_not_chained.
  - destruct (C9_header_chain (BlockHeader staleBlock2) staleBlock2 result2 afterBlock1
                Hs Hs) as [_ [_ [_ [Hsubmit _]]]].
    apply Hsubmit; [apply stale_not_chained |].
    rewrite afterBlock1_height. vm_compute. reflexivity.
Defined.

(** A genesis block whose header carries an arbitrary block root is saved
    and committed. *)
Lemma C10_witness :
  Height (BlockHeader genesisOddRoot) = 0 /\
  isU32 (currBlockHeight (ledger newWorld)) /\
  verifyHeader (ledger newWorld) (BlockHeader genesisOddRoot) ∅ = (∅, Ok tt) /\
  outcome (submitBlock genesisOddRoot
             {| WriteSet := Some ∅; Hash := 0%N; MerkleRoot := 0%N;
                Notify := []; ShardNotify := [] |}) newWorld = Ok tt.
Proof.
  assert (Hh : Height (BlockHeader genesisOddRoot) = 0) by reflexivity.
  assert (Hu : isU32 (currBlockHeight (ledger newWorld))).
  { apply isU32_small. vm_compute. reflexivity. }
  split; [exact Hh |]. split; [exact Hu |].
  destruct (C10_genesis_unchecked (ledger newWorld) ∅ genesisOddRoot
              {| WriteSet := Some ∅; Hash := 0%N; MerkleRoot := 0%N;
                 Notify := []; ShardNotify := [] |} newWorld Hh Hu) as [Hv Hs].
  split; [exact Hv |].
  unfold outcome. rewrite Hs. vm_compute. reflexivity.
Defined.

(** * Further examples on the in-memory implementation *)

Import Inputs.

Ltac closed :=
  vm_compute; repeat match goal with |- _ /\ _ => split end;
  solve [reflexivity | discriminate].

(** At height 1, the root asked for height 2 is computed from the one new
    transaction root. *)
Lemma X1_witness :
  isU32 (currBlockHeight (ledger afterBlock1)) /\
  currBlockHeight (ledger afterBlock1) < MaxUint32 /\
  isU32 2 /\
  1 <= 2 + len [9%N] <= MaxUint32 + 1 /\
  GetBlockRootWithNewTxRoots (ledger afterBlock1) 2 [9%N] =
    Ok (ss_GetBlockRootWithNewTxRoots (stateStore (ledger afterBlock1)) [9%N]) /\
  GetBlockRootWithNewTxRoots (ledger afterBlock1) 3 [9%N] =
    Abort "slice bounds out of range".
Proof.
  assert (H1 : isU32 (currBlockHeight (ledger afterBlock1))) by closed.
  assert (H2 : currBlockHeight (ledger afterBlock1) < MaxUint32) by closed.
  assert (H3 : isU32 2) by closed.
  assert (H3' : isU32 3) by closed.
  assert (H4 : 1 <= 2 + len [9%N] <= MaxUint32 + 1) by closed.
  assert (H4' : 1 <= 3 + len [9%N] <= MaxUint32 + 1) by closed.
  split; [exact H1 |]. split; [exact H2 |]. split; [exact H3 |]. split; [exact H4 |].
  split.
  - destruct (GetBlockRootWithNewTxRoots_bounds (ledger afterBlock1) 2 [9%N] H1 H2 H3 H4)
      as (_ & Hreach & _).
    apply Hreach; closed.
  - destruct (GetBlockRootWithNewTxRoots_bounds (ledger afterBlock1) 3 [9%N] H1 H2 H3' H4')
      as (_ & _ & Hbeyond & _).
    apply Hbeyond; closed.
Defined.

Lemma afterBlock1_dense : denseIndex (ledger afterBlock1) 2.
Proof. vm_compute. reflexivity. Defined.

Lemma header2_added :
  AddHeader header2 afterBlock1 = (exec (AddHeader header2) afterBlock1, Ok tt).
Proof. vm_compute. reflexivity. Defined.

(** The header of [block2] is accepted on top of [block1] and becomes the
    current header. *)
Lemma X4_witness :
  1 <= 2 <= MaxUint32 /\
  denseIndex (ledger afterBlock1) 2 /\
  AddHeader header2 afterBlock1 = (exec (AddHeader header2) afterBlock1, Ok tt) /\
  GetCurrentHeaderHeight (ledger (exec (AddHeader header2) afterBlock1)) = 2 /\
  GetCurrentHeaderHash (ledger (exec (AddHeader header2) afterBlock1)) = 2021%N /\
  GetCurrentBlock (ledger (exec (AddHeader header2) afterBlock1)) = (1, 1011%N).
Proof.
  assert (H1 : 1 <= 2 <= MaxUint32) by closed.
  split; [exact H1 |]. split; [exact afterBlock1_dense |]. split; [exact header2_added |].
  destruct (AddHeader_advances_tip header2 afterBlock1 _ 2 H1 afterBlock1_dense
              header2_added) as (_ & _ & Htip & Hhash & _ & _ & _ & _ & Hcurrent).
  split; [exact Htip |]. split; [rewrite Hhash; reflexivity |].
  rewrite Hcurrent. vm_compute. reflexivity.
Defined.

(** Added a second time, the header of [block2] is turned down. *)
Lemma X5_witness :
  1 <= 2 <= MaxUint32 /\
  denseIndex (ledger afterBlock1) 2 /\
  AddHeader header2 afterBlock1 = (exec (AddHeader header2) afterBlock1, Ok tt) /\
  AddHeader header2 (exec (AddHeader header2) afterBlock1) =
  (exec (AddHeader header2) afterBlock1,
   Fail (Errorf "header height %d not equal next header height %d")).
Proof.
  assert (H1 : 1 <= 2 <= MaxUint32) by closed.
  split; [exact H1 |]. split; [exact afterBlock1_dense |]. split; [exact header2_added |].
  exact (AddHeader_twice header2 afterBlock1 _ 2 H1 afterBlock1_dense header2_added).
Defined.

(** A batch given out of order, with the headers of heights 3 and 2, is
    accepted on top of [block1]. *)
Lemma X6_witness :
  1 <= 2 /\
  2 + len [header3; header2] <= MaxUint32 + 1 /\
  denseIndex (ledger afterBlock1) 2 /\
  AddHeaders byHeight [header3; header2] afterBlock1 =
    (exec (AddHeaders byHeight [header3; header2]) afterBlock1, Ok tt) /\
  Height <$> sortByHeight byHeight [header3; header2] = [2; 3] /\
  GetCurrentHeaderHeight (ledger (exec (AddHeaders byHeight [header3; header2]) afterBlock1))
    = 3.
Proof.
  assert (H1 : 1 <= 2) by closed.
  assert (H2 : 2 + len [header3; header2] <= MaxUint32 + 1) by closed.
  assert (H3 : AddHeaders byHeight [header3; header2] afterBlock1 =
               (exec (AddHeaders byHeight [header3; header2]) afterBlock1, Ok tt))
    by (vm_compute; reflexivity).
  split; [exact H1 |]. split; [exact H2 |]. split; [exact afterBlock1_dense |].
  split; [exact H3 |].
  destruct (AddHeaders_consecutive byHeight [header3; header2] afterBlock1 _ 2
              H1 H2 afterBlock1_dense H3) as (Hsorted & _ & _ & Htip & _).
  split; [rewrite Hsorted; reflexivity | rewrite Htip; reflexivity].
Defined.

(** A batch with the headers of heights 5 and 2: the header of height 2
    is added and stays, the one of height 5 is turned down. *)
Lemma X7_witness :
  sortByHeight byHeight [header5; header2] = [header2] ++ header5 :: [] /\
  addHeaderList [header2] afterBlock1 =
    (exec (addHeaderList [header2]) afterBlock1, Ok tt) /\
  AddHeader header5 (exec (addHeaderList [header2]) afterBlock1) =
    (exec (addHeaderList [header2]) afterBlock1,
     Fail (Errorf "header height %d not equal next header height %d")) /\
  AddHeaders byHeight [header5; header2] afterBlock1 =
    (exec (addHeaderList [header2]) afterBlock1,
     Fail (Errorf "header height %d not equal next header height %d")) /\
  GetCurrentHeaderHeight (ledger (exec (addHeaderList [header2]) afterBlock1)) = 2.
Proof.
  assert (H1 : sortByHeight byHeight [header5; header2] = [header2] ++ header5 :: [])
    by (vm_compute; reflexivity).
  assert (H2 : addHeaderList [header2] afterBlock1 =
               (exec (addHeaderList [header2]) afterBlock1, Ok tt))
    by (vm_compute; reflexivity).
  assert (H3 : AddHeader header5 (exec (addHeaderList [header2]) afterBlock1) =
               (exec (addHeaderList [header2]) afterBlock1,
                Fail (Errorf "header height %d not equal next header height %d")))
    by (vm_compute; reflexivity).
  split; [exact H1 |]. split; [exact H2 |]. split; [exact H3 |].
  split; [| vm_compute; reflexivity].
  exact (proj1 (AddHeaders_stops_at_first_error byHeight [header5; header2] [header2] []
                  header5 afterBlock1 _ _ _ H1 H2 H3)).
Defined.

Lemma configHeader_accepted :
  verifyHeader (SV := Vbft.services) (ledger afterGenesis) Vbft.configHeader Vbft.onePeer
  = (peerInfoOf (Peers Vbft.chainConfig) ∅, Ok tt).
Proof. vm_compute. reflexivity. Defined.

(** Under the vbft consensus, a header signed by the one known peer is
    accepted against a table of one peer. *)
Lemma X8_witness :
  Height Vbft.configHeader <> 0 /\
  strings_ToLower (Genesis_ConsensusType (Services := Vbft.services)) = "vbft" /\
  verifyHeader (SV := Vbft.services) (ledger afterGenesis) Vbft.configHeader Vbft.onePeer
    = (peerInfoOf (Peers Vbft.chainConfig) ∅, Ok tt) /\
  1 <= len (Bookkeepers Vbft.configHeader) /\
  (forall bookkeeper, bookkeeper ∈ Bookkeepers Vbft.configHeader ->
     is_Some (Vbft.onePeer !! PubkeyID (Services := Vbft.services) bookkeeper)).
Proof.
  assert (H1 : Height Vbft.configHeader <> 0) by closed.
  assert (H2 : strings_ToLower (Genesis_ConsensusType (Services := Vbft.services)) = "vbft")
    by reflexivity.
  split; [exact H1 |]. split; [exact H2 |]. split; [exact configHeader_accepted |].
  destruct (verifyHeader_vbft_quorum (SV := Vbft.services) (ledger afterGenesis)
              Vbft.configHeader Vbft.onePeer _ H1 H2 configHeader_accepted)
    as (Hquorum & _ & Hknown & _).
  split; [exact Hquorum | exact Hknown].
Defined.

Lemma signedHeader2_accepted :
  verifyHeader (ledger afterBlock1) signedHeader2 ∅ = (∅, Ok tt).
Proof. vm_compute. reflexivity. Defined.

(** Under the solo consensus, a header with four bookkeepers has been
    verified for three signatures. *)
Lemma X9_witness :
  Height signedHeader2 <> 0 /\
  strings_ToLower Genesis_ConsensusType <> "vbft" /\
  verifyHeader (ledger afterBlock1) signedHeader2 ∅ = (∅, Ok tt) /\
  VerifyMultiSignature (Header_Hash signedHeader2) (Bookkeepers signedHeader2) 3
    (SigData signedHeader2) = None /\
  AddressFromBookkeepers (Bookkeepers signedHeader2)
    = (NextBookkeeper (BlockHeader block1), None).
Proof.
  assert (H1 : Height signedHeader2 <> 0) by closed.
  assert (H2 : strings_ToLower Genesis_ConsensusType <> "vbft") by closed.
  split; [exact H1 |]. split; [exact H2 |]. split; [exact signedHeader2_accepted |].
  destruct (verifyHeader_bookkeeper_check (ledger afterBlock1) signedHeader2 ∅ ∅
              H1 H2 signedHeader2_accepted) as (_ & _ & Hsig & prev & Hprev & Haddr).
  split; [exact Hsig |].
  rewrite Haddr. vm_compute in Hprev. injection Hprev as <-. reflexivity.
Defined.

(** The table built from [chainConfig], which lists the identifier "A"
    twice, maps "A" to the index listed last. *)
Lemma X10_witness :
  Height Vbft.configHeader <> 0 /\
  strings_ToLower (Genesis_ConsensusType (Services := Vbft.services)) = "vbft" /\
  verifyHeader (SV := Vbft.services) (ledger afterGenesis) Vbft.configHeader Vbft.onePeer
    = (peerInfoOf (Peers Vbft.chainConfig) ∅, Ok tt) /\
  VbftBlock (Services := Vbft.services) Vbft.configHeader
    = Ok {| LastConfigBlockNum := 0; NewChainConfig := Some Vbft.chainConfig |} /\
  peerInfoOf (Peers Vbft.chainConfig) ∅ !! "A" = Some 3 /\
  peerInfoOf (Peers Vbft.chainConfig) ∅ !! "B" = Some 2.
Proof.
  assert (H1 : Height Vbft.configHeader <> 0) by closed.
  assert (H2 : strings_ToLower (Genesis_ConsensusType (Services := Vbft.services)) = "vbft")
    by reflexivity.
  assert (H3 : VbftBlock (Services := Vbft.services) Vbft.configHeader
               = Ok {| LastConfigBlockNum := 0; NewChainConfig := Some Vbft.chainConfig |})
    by reflexivity.
  split; [exact H1 |]. split; [exact H2 |]. split; [exact configHeader_accepted |].
  split; [exact H3 |].
  destruct (verifyHeader_new_config (SV := Vbft.services) (ledger afterGenesis)
              Vbft.configHeader Vbft.onePeer _ _ Vbft.chainConfig
              H1 H2 configHeader_accepted H3 eq_refl) as (_ & Hlast).
  split.
  - apply (Hlast [ {| Index := 1; ID := "A" |}; {| Index := 2; ID := "B" |} ]
                 {| Index := 3; ID := "A" |} []); [reflexivity | constructor].
  - apply (Hlast [ {| Index := 1; ID := "A" |} ] {| Index := 2; ID := "B" |}
                 [ {| Index := 3; ID := "A" |} ]); [reflexivity |].
    repeat constructor. discriminate.
Defined.

(** [submitBlock] of [block2] on top of [block1] sets the index entry of
    height 2. *)
Lemma X11_witness :
  GetBlockRootWithNewTxRoots (ledger afterBlock1) (Height (BlockHeader block2))
    [TransactionsRoot (BlockHeader block2)] = Ok 16%N /\
  (Height (BlockHeader block2) = 0 \/ 16%N = BlockRoot (BlockHeader block2)) /\
  GetBlockHash (ledger (exec (submitBlock block2 result2) afterBlock1)) 2 = 2021%N /\
  GetBlockHash (ledger (exec (submitBlock block2OddRoot result2) afterBlock1)) 2
    = UINT256_EMPTY.
Proof.
  assert (H1 : GetBlockRootWithNewTxRoots (ledger afterBlock1) (Height (BlockHeader block2))
                 [TransactionsRoot (BlockHeader block2)] = Ok 16%N)
    by (vm_compute; reflexivity).
  assert (H2 : Height (BlockHeader block2) = 0 \/ 16%N = BlockRoot (BlockHeader block2))
    by (right; reflexivity).
  split; [exact H1 |]. split; [exact H2 |]. split; [| vm_compute; reflexivity].
  exact (proj1 (submitBlock_index_entry_stays block2 result2 afterBlock1 16%N H1 H2)).
Defined.

Lemma block2_submitted :
  SubmitBlock block2 result2 afterBlock1
  = (exec (SubmitBlock block2 result2) afterBlock1, Ok tt).
Proof. vm_compute. reflexivity. Defined.

(** [SubmitBlock] of [block2] on top of [block1] moves the current block
    to height 2. *)
Lemma X12_witness :
  isU32 (currBlockHeight (ledger afterBlock1)) /\
  currBlockHeight (ledger afterBlock1) < Height (BlockHeader block2) /\
  SubmitBlock block2 result2 afterBlock1
    = (exec (SubmitBlock block2 result2) afterBlock1, Ok tt) /\
  GetCurrentBlock (ledger (exec (SubmitBlock block2 result2) afterBlock1)) = (2, 2021%N).
Proof.
  assert (H1 : isU32 (currBlockHeight (ledger afterBlock1))) by closed.
  assert (H2 : currBlockHeight (ledger afterBlock1) < Height (BlockHeader block2)) by closed.
  split; [exact H1 |]. split; [exact H2 |]. split; [exact block2_submitted |].
  destruct (SubmitBlock_success block2 result2 afterBlock1 _ H1 H2 block2_submitted)
    as (_ & Hcurrent & _).
  rewrite Hcurrent. reflexivity.
Defined.

(** Submitted again, with another execution result, [block2] changes
    nothing. *)
Lemma X13_witness :
  isU32 (currBlockHeight (ledger afterBlock1)) /\
  currBlockHeight (ledger afterBlock1) < Height (BlockHeader block2) /\
  SubmitBlock block2 result2 afterBlock1
    = (exec (SubmitBlock block2 result2) afterBlock1, Ok tt) /\
  SubmitBlock block2 emptyResult (exec (SubmitBlock block2 result2) afterBlock1)
    = (exec (SubmitBlock block2 result2) afterBlock1, Ok tt).
Proof.
  assert (H1 : isU32 (currBlockHeight (ledger afterBlock1))) by closed.
  assert (H2 : currBlockHeight (ledger afterBlock1) < Height (BlockHeader block2)) by closed.
  split; [exact H1 |]. split; [exact H2 |]. split; [exact block2_submitted |].
  exact (SubmitBlock_again block2 result2 emptyResult afterBlock1 _ H1 H2 block2_submitted).
Defined.

(** [block2] with another block root is turned down. *)
Lemma X14_witness :
  0 <= currBlockHeight (ledger afterBlock1) < Height (BlockHeader block2OddRoot) /\
  Height (BlockHeader block2OddRoot) = u32 (currBlockHeight (ledger afterBlock1) + 1) /\
  verifyHeader (ledger afterBlock1) (BlockHeader block2OddRoot)
    (vbftPeerInfoblock (ledger afterBlock1)) = (∅, Ok tt) /\
  GetBlockRootWithNewTxRoots (ledger afterBlock1) (Height (BlockHeader block2OddRoot))
    [TransactionsRoot (BlockHeader block2OddRoot)] = Ok 16%N /\
  16%N <> BlockRoot (BlockHeader block2OddRoot) /\
  SubmitBlock block2OddRoot result2 afterBlock1 =
  ({| ledger := set_vbftPeerInfoblock ∅ (ledger afterBlock1);
      GAS_TABLE := GAS_TABLE afterBlock1; trace := trace afterBlock1 |},
   Fail (Wrapf "saveBlock error %s"
           (Errorf "wrong block root at height:%d, expected:%s, got:%s"))).
Proof.
  assert (H1 : 0 <= currBlockHeight (ledger afterBlock1)
               < Height (BlockHeader block2OddRoot)) by closed.
  assert (H2 : Height (BlockHeader block2OddRoot)
               = u32 (currBlockHeight (ledger afterBlock1) + 1)) by closed.
  assert (H3 : verifyHeader (ledger afterBlock1) (BlockHeader block2OddRoot)
                 (vbftPeerInfoblock (ledger afterBlock1)) = (∅, Ok tt))
    by (vm_compute; reflexivity).
  assert (H4 : GetBlockRootWithNewTxRoots (ledger afterBlock1)
                 (Height (BlockHeader block2OddRoot))
                 [TransactionsRoot (BlockHeader block2OddRoot)] = Ok 16%N)
    by (vm_compute; reflexivity).
  assert (H5 : 16%N <> BlockRoot (BlockHeader block2OddRoot)) by closed.
  split; [exact H1 |]. split; [exact H2 |]. split; [exact H3 |]. split; [exact H4 |].
  split; [exact H5 |].
  exact (SubmitBlock_wrong_block_root block2OddRoot result2 afterBlock1 ∅ 16%N
           H1 H2 H3 H4 H5).
Defined.

(** With the current block 2000 heights ahead of the stored index, one
    batch is stored. *)
Lemma X15_witness :
  0 <= storedIndexCount (ledger farAhead) /\
  storedIndexCount (ledger farAhead) <= currBlockHeight (ledger farAhead) <= MaxUint32 /\
  outcome saveHeaderIndexList farAhead = Ok tt /\
  storedIndexCount (ledger (exec saveHeaderIndexList farAhead)) = 2000.
Proof.
  assert (H1 : 0 <= storedIndexCount (ledger farAhead)) by closed.
  assert (H2 : storedIndexCount (ledger farAhead) <= currBlockHeight (ledger farAhead)
               <= MaxUint32) by closed.
  split; [exact H1 |]. split; [exact H2 |].
  destruct (saveHeaderIndexList_batch farAhead H1 H2) as (_ & Hbatch & _).
  destruct Hbatch as (_ & Hok & Hcount); [closed |].
  split; [exact Hok | rewrite Hcount; reflexivity].
Defined.

Lemma reopened_index_loaded :
  loadHeaderIndexList reopenedAt2 = (exec loadHeaderIndexList reopenedAt2, Ok tt).
Proof. vm_compute. reflexivity. Defined.

(** A new process at height 2 loads the hashes of the heights 0 to 2 from
    the block store. *)
Lemma X16_witness :
  isU32 (currBlockHeight (ledger reopenedAt2)) /\
  loadHeaderIndexList reopenedAt2 = (exec loadHeaderIndexList reopenedAt2, Ok tt) /\
  storedIndexCount (ledger (exec loadHeaderIndexList reopenedAt2)) = 0 /\
  GetBlockHash (ledger (exec loadHeaderIndexList reopenedAt2)) 2 <> UINT256_EMPTY.
Proof.
  assert (H1 : isU32 (currBlockHeight (ledger reopenedAt2))) by closed.
  split; [exact H1 |]. split; [exact reopened_index_loaded |].
  destruct (loadHeaderIndexList_loads reopenedAt2 _ H1 reopened_index_loaded)
    as (stored & Hstored & Hcount & Hloaded & _).
  vm_compute in Hstored. injection Hstored as <-.
  split; [rewrite Hcount; reflexivity |].
  destruct (Hloaded 2) as (blockHash & _ & Hfull & Hindex); [closed |].
  rewrite Hindex. exact Hfull.
Defined.

(** A new process on the disks of the uninterrupted run starts at height
    2 without executing anything. *)
Lemma X18_witness :
  bs_GetCurrentBlock (blockStore (ledger reopened)) = ((2021%N, 2), None) /\
  ss_GetCurrentBlock (stateStore (ledger reopened)) = ((2021%N, 2), None) /\
  isU32 2 /\
  2 <= 2 /\
  init forwards reopened = (exec (init forwards) reopened, Ok tt) /\
  GetCurrentBlock (ledger (exec (init forwards) reopened)) = (2, 2021%N) /\
  trace (exec (init forwards) reopened) = [].
Proof.
  assert (H1 : bs_GetCurrentBlock (blockStore (ledger reopened)) = ((2021%N, 2), None))
    by (vm_compute; reflexivity).
  assert (H2 : ss_GetCurrentBlock (stateStore (ledger reopened)) = ((2021%N, 2), None))
    by (vm_compute; reflexivity).
  assert (H3 : isU32 2) by closed.
  assert (H4 : 2 <= 2) by closed.
  assert (H5 : init forwards reopened = (exec (init forwards) reopened, Ok tt))
    by (vm_compute; reflexivity).
  split; [exact H1 |]. split; [exact H2 |]. split; [exact H3 |]. split; [exact H4 |].
  split; [exact H5 |].
  destruct (init_level_stores forwards reopened _ 2021%N 2021%N 2 2 H1 H2 H3 H4 H5)
    as (Hcurrent & _ & _ & _ & _ & _ & Htrace & _).
  split; [exact Hcurrent | rewrite Htrace; reflexivity].
Defined.

(** The block with three inbound shard calls and one transaction of its
    own gives four notifications. *)
Lemma X21_witness :
  exists res,
    outcome (executeBlock forwards xblock) afterGenesis = Ok (res, None) /\
    length (Notify res) = 4%nat.
Proof.
  eexists. split; [vm_compute; reflexivity |].
  match goal with
  | |- length (Notify ?res) = _ =>
      assert (Hrun : outcome (executeBlock forwards xblock) afterGenesis = Ok (res, None))
        by (vm_compute; reflexivity);
      rewrite (proj1 (executeBlock_one_notification_each forwards xblock afterGenesis
                        res Hrun))
  end.
  vm_compute. reflexivity.
Defined.

(** Of five governance events, the first configuration update that
    decodes is the one recorded. *)
Lemma X23_witness :
  Forall (fun e => passedOver (SV := Vbft.services) (ledger afterGenesis) ∅ e = true)
    [Vbft.otherEvent; Vbft.brokenUpdate; Vbft.activation] /\
  passedOver (SV := Vbft.services) (ledger afterGenesis) ∅ Vbft.update1 = false /\
  saveCrossShardGovernanceData (SV := Vbft.services)
    ([Vbft.otherEvent; Vbft.brokenUpdate; Vbft.activation] ++ Vbft.update1 :: [Vbft.update2])
    (Some ∅) afterGenesis =
  saveCrossShardGovernanceData (SV := Vbft.services) [Vbft.update1] (Some ∅) afterGenesis.
Proof.
  assert (H1 : Forall (fun e => passedOver (SV := Vbft.services) (ledger afterGenesis) ∅ e
                                = true)
                 [Vbft.otherEvent; Vbft.brokenUpdate; Vbft.activation])
    by (repeat constructor).
  assert (H2 : passedOver (SV := Vbft.services) (ledger afterGenesis) ∅ Vbft.update1 = false)
    by reflexivity.
  split; [exact H1 |]. split; [exact H2 |].
  exact (proj1 (saveCrossShardGovernanceData_first_only (SV := Vbft.services)
                  [Vbft.otherEvent; Vbft.brokenUpdate; Vbft.activation] [Vbft.update2]
                  Vbft.update1 ∅ afterGenesis H1 H2)).
Defined.

Lemma genesis_initialised :
  InitLedgerStoreWithGenesisBlock (BT := unversioned) forwards genesis [] newWorld
  = (exec (InitLedgerStoreWithGenesisBlock (BT := unversioned) forwards genesis []) newWorld,
     Ok tt).
Proof. vm_compute. reflexivity. Defined.

(** A store without the version record is given [genesis]. *)
Lemma X24_witness :
  hasAlreadyInitGenesisBlock (BT := unversioned) (ledger newWorld) = Ok false /\
  InitLedgerStoreWithGenesisBlock (BT := unversioned) forwards genesis [] newWorld
  = (exec (InitLedgerStoreWithGenesisBlock (BT := unversioned) forwards genesis []) newWorld,
     Ok tt) /\
  GetCurrentBlock
    (ledger (exec (InitLedgerStoreWithGenesisBlock (BT := unversioned) forwards genesis [])
               newWorld))
  = (0, 1%N).
Proof.
  assert (H1 : hasAlreadyInitGenesisBlock (BT := unversioned) (ledger newWorld) = Ok false)
    by reflexivity.
  split; [exact H1 |]. split; [exact genesis_initialised |].
  destruct (InitLedgerStoreWithGenesisBlock_fresh (BT := unversioned) forwards genesis []
              newWorld _ H1 genesis_initialised) as (Hcurrent & _).
  rewrite Hcurrent. reflexivity.
Defined.

(** A store that holds [genesis] is opened with another genesis block. *)
Lemma X25_witness :
  hasAlreadyInitGenesisBlock (BT := versioned) (ledger (restart afterGenesis)) = Ok true /\
  InitLedgerStoreWithGenesisBlock (BT := versioned) forwards otherGenesis []
    (restart afterGenesis)
  = (exec (init forwards) (restart afterGenesis),
     Fail (Errorf "GenesisBlock arenot init correctly, hash %s")) /\
  outcome (InitLedgerStoreWithGenesisBlock (BT := versioned) forwards genesis [])
    (restart afterGenesis) = Ok tt.
Proof.
  assert (H1 : hasAlreadyInitGenesisBlock (BT := versioned) (ledger (restart afterGenesis))
               = Ok true) by reflexivity.
  split; [exact H1 |]. split; [| vm_compute; reflexivity].
  destruct (InitLedgerStoreWithGenesisBlock_opened (BT := versioned) forwards otherGenesis []
              (restart afterGenesis) H1) as (_ & Hmissing & _).
  apply Hmissing; vm_compute; reflexivity.
Defined.

Lemma vbftGenesis_initialised :
  InitLedgerStoreWithGenesisBlock (SV := Vbft.services) (BT := unversioned)
    forwards vbftGenesis [] newWorld
  = (exec (InitLedgerStoreWithGenesisBlock (SV := Vbft.services) (BT := unversioned)
             forwards vbftGenesis []) newWorld,
     Ok tt).
Proof. vm_compute. reflexivity. Defined.

(** Under the vbft consensus, a store given a genesis block that
    announces [Vbft.chainConfig] starts with two equal peer tables. *)
Lemma X26_witness :
  strings_ToLower (Genesis_ConsensusType (Services := Vbft.services)) = "vbft" /\
  InitLedgerStoreWithGenesisBlock (SV := Vbft.services) (BT := unversioned)
    forwards vbftGenesis [] newWorld
  = (exec (InitLedgerStoreWithGenesisBlock (SV := Vbft.services) (BT := unversioned)
             forwards vbftGenesis []) newWorld,
     Ok tt) /\
  vbftPeerInfoheader
    (ledger (exec (InitLedgerStoreWithGenesisBlock (SV := Vbft.services) (BT := unversioned)
                     forwards vbftGenesis []) newWorld))
  = vbftPeerInfoblock
      (ledger (exec (InitLedgerStoreWithGenesisBlock (SV := Vbft.services)
                       (BT := unversioned) forwards vbftGenesis []) newWorld)).
Proof.
  assert (H1 : strings_ToLower (Genesis_ConsensusType (Services := Vbft.services)) = "vbft")
    by reflexivity.
  split; [exact H1 |]. split; [exact vbftGenesis_initialised |].
  destruct (InitLedgerStoreWithGenesisBlock_peer_tables (SV := Vbft.services)
              (BT := unversioned) forwards vbftGenesis [] newWorld _ H1
              vbftGenesis_initialised)
    as (header & blkInfo & cfg & _ & _ & _ & Hheader & Hblock).
  rewrite Hheader, Hblock. reflexivity.
Defined.

(** * The recovery scenario *)

(** C3.  Recovery after a crash between the event store's and the state
    store's commit of [block2].  On restart the block store is at height
    2 and the state store at height 1; [recoverStore] runs its loop from
    the state store's height up to, and excluding, the block store's
    height: it executes [block1] again, on a state that already contains
    it, and never [block2].  The state store stays at height 1 with the
    contract's value written twice by [block1], the event store's current
    block goes back to height 1, and neither store is what an
    uninterrupted run leaves. *)
Theorem C3_recovery_replays_wrong_heights :
  outcome (genBlock forwards block2) (stateDisk true afterBlock1) =
    Fail (Wrapf "submitBlock height:%d error:%s"
            (Wrapf "saveBlock error %s"
               (Wrapf "stateStore.CommitTo height:%d error %s" (ErrExternal 5)))) /\
  snd (bCurrent (blocksOnDisk crashed)) = 2 /\
  snd (eCurrent (eventsOnDisk crashed)) = 2 /\
  snd (sCurrent (stateOnDisk crashed)) = 1 /\
  outcome (init forwards) (restart crashed) = Ok tt /\
  executedHeights (trace recovered) = [1] /\
  snd (sCurrent (stateOnDisk recovered)) = 1 /\
  snd (sCurrent (stateOnDisk uninterrupted)) = 2 /\
  sKV (stateOnDisk recovered) !! counterKey = Some "aa" /\
  sKV (stateOnDisk uninterrupted) !! counterKey = Some "ab" /\
  snd (eCurrent (eventsOnDisk recovered)) = 1 /\
  snd (eCurrent (eventsOnDisk uninterrupted)) = 2 /\
  stateOnDisk recovered <> stateOnDisk uninterrupted /\
  eventsOnDisk recovered <> eventsOnDisk uninterrupted.
Proof.
  repeat split; try (vm_compute; reflexivity).
  - intros Heq. apply (f_equal (fun d => snd (sCurrent d))) in Heq.
    vm_compute in Heq. discriminate.
  - intros Heq. apply (f_equal (fun d => snd (eCurrent d))) in Heq.
    vm_compute in Heq. discriminate.
Qed.
